(** * NetReveal Playwright test suite: helpers and page objects, verified

    A shallow embedding of the TypeScript helpers ([utils/helpers.ts]), the
    page objects ([LoginPage], [WatchlistManagerPage], [StandardListPage]),
    the configuration constants and the [analyzePage] helper of the test
    specs, followed by the properties the specification states about them.

    The browser engine is an external collaborator.  It is modelled as an
    interface ([Engine]) whose answers the code cannot predict: every call
    may fulfil or reject.  Asynchronous code is sequential here (every
    promise is awaited at once), so an [async] function is a computation in
    a state, exception and trace monad [M].

    Modelling conventions:
    - JS numbers that the code uses as counters, timeouts and delays are
      integers ([Z]); NaN, infinities and fractions are not modelled;
    - JS strings are [string]s of 8-bit characters; [toLowerCase] and [trim]
      are the ASCII versions;
    - a thrown value is an [Error] object ([JsError]: name and message). *)

From Stdlib Require Import String Ascii List ZArith Bool Lia DecimalString.
From Equations Require Import Equations.
Import ListNotations.
Open Scope string_scope.
Open Scope Z_scope.

Set Implicit Arguments.
Set Warnings "-register-all".
Set Equations Transparent.

(** ** JavaScript strings *)

Module Js.

(** The double-quote character, and a quoted string. *)
Definition dq : string := String (ascii_of_nat 34) EmptyString.
Definition q (s : string) : string := dq ++ s ++ dq.

(** [s.startsWith(p)] *)
Definition startsWith (s p : string) : bool := String.prefix p s.

(** [s.includes(p)]: [p] occurs in [s] at some offset. *)
Fixpoint includes (s p : string) : bool :=
  String.prefix p s ||
  match s with
  | EmptyString => false
  | String _ s' => includes s' p
  end.

Definition lower_ascii (c : ascii) : ascii :=
  let n := nat_of_ascii c in
  if (Nat.leb 65 n && Nat.leb n 90)%bool then ascii_of_nat (n + 32)%nat else c.

(** [s.toLowerCase()] *)
Fixpoint toLowerCase (s : string) : string :=
  match s with
  | EmptyString => EmptyString
  | String c s' => String (lower_ascii c) (toLowerCase s')
  end.

Definition is_space (c : ascii) : bool :=
  let n := nat_of_ascii c in
  (Nat.eqb n 32 || (Nat.leb 9 n && Nat.leb n 13))%bool.

Fixpoint trimStart (s : string) : string :=
  match s with
  | EmptyString => EmptyString
  | String c s' => if is_space c then trimStart s' else s
  end.

(** Drops trailing white space: a character is kept when something that is
    not white space follows or it is not white space itself. *)
Fixpoint trimEnd (s : string) : string :=
  match s with
  | EmptyString => EmptyString
  | String c s' =>
      match trimEnd s' with
      | EmptyString => if is_space c then EmptyString else String c EmptyString
      | t => String c t
      end
  end.

(** [s.trim()] *)
Definition trim (s : string) : string := trimEnd (trimStart s).

(** [`${n}`] for an integer [n]. *)
Definition of_number (n : Z) : string := NilZero.string_of_int (Z.to_int n).

(** An [Error] object. *)
Record JsError := mkError { err_name : string; err_message : string }.

(** [new Error(message)] *)
Definition Error (message : string) : JsError := mkError "Error" message.

(** [`${error}`], that is [Error.prototype.toString]. *)
Definition error_to_string (e : JsError) : string :=
  if String.eqb (err_name e) EmptyString then err_message e
  else if String.eqb (err_message e) EmptyString then err_name e
  else err_name e ++ ": " ++ err_message e.

(** [`${lastError}`] where [lastError] may still be [undefined]. *)
Definition opt_error_to_string (e : option JsError) : string :=
  match e with
  | Some e => error_to_string e
  | None => "undefined"
  end.

(** [`${b}`] for a boolean. *)
Definition of_bool (b : bool) : string := if b then "true" else "false".

(** The line feed. *)
Definition nl : string := String (ascii_of_nat 10) EmptyString.

(** What [console.log] prints for an object of boolean fields that does
    not fit on one line: one field per line, indented by two spaces. *)
Fixpoint inspect_fields (fields : list (string * bool)) : string :=
  match fields with
  | [] => EmptyString
  | [(k, v)] => "  " ++ k ++ ": " ++ of_bool v ++ nl
  | (k, v) :: rest => "  " ++ k ++ ": " ++ of_bool v ++ "," ++ nl ++ inspect_fields rest
  end.

Definition inspect_flags (fields : list (string * bool)) : string :=
  "{" ++ nl ++ inspect_fields fields ++ "}".

(** [s.replace(/\s+/g, '-')]: every maximal run of white space becomes
    one hyphen; [in_run] tells that the character before was white
    space. *)
Fixpoint replace_spaces_from (in_run : bool) (s : string) : string :=
  match s with
  | EmptyString => EmptyString
  | String c s' =>
      if is_space c then
        if in_run then replace_spaces_from true s'
        else String "-" (replace_spaces_from true s')
      else String c (replace_spaces_from false s')
  end.

Definition replace_spaces (s : string) : string := replace_spaces_from false s.

End Js.
Import Js.

(** ** Configuration constants ([config/constants.ts]) *)

Module Config.

Record Timeouts := mkTimeouts { SHORT : Z; MEDIUM : Z; LONG : Z; EXTENDED : Z }.

Record Navigation := mkNavigation {
  WATCHLIST_MANAGER : string;
  SYNONYMS : string;
  SYNONYMS_RULES_MANAGER : string;
  LISTS : string;
  STANDARD_LISTS : string }.

Record TestData := mkTestData {
  RULE_SET_NAME : string;
  EXPECTED_TEXT : string;
  EU_LIST_NAME : string;
  EU_NAME_TEXT : string }.

(** The exported bindings of the module.  [TIMEOUTS], [NAVIGATION] and
    [TEST_DATA] are plain (unfrozen) objects, so they live in the process
    state next to the other module-level variables. *)
Record Constants := mkConstants {
  NETREVEAL_URL : string;
  USERNAME : string;
  PASSWORD : string;
  TIMEOUTS : Timeouts;
  NAVIGATION : Navigation;
  TEST_DATA : TestData }.

Definition initial : Constants :=
  {| NETREVEAL_URL := "https://10.222.2.239:8443/netreveal/login.do";
     USERNAME := "admin";
     PASSWORD := "password";
     TIMEOUTS := {| SHORT := 5000; MEDIUM := 15000; LONG := 30000; EXTENDED := 60000 |};
     NAVIGATION := {| WATCHLIST_MANAGER := "Watchlist Manager";
                      SYNONYMS := "Synonyms";
                      SYNONYMS_RULES_MANAGER := "Synonyms Rules Manager";
                      LISTS := "Lists";
                      STANDARD_LISTS := "Standard Lists" |};
     TEST_DATA := {| RULE_SET_NAME := "Weighted words rule set";
                     EXPECTED_TEXT := "agency rule";
                     EU_LIST_NAME := "EU List";
                     EU_NAME_TEXT := "eu_name" |} |}.

End Config.

(** ** The browser engine, as the code sees it *)

Module Playwright.

(** A locator is a description of how to find elements, built by
    [page.locator], [locator.first], [locator.locator]; [nth] names the
    handles returned by [locator.all]. *)
Inductive Locator :=
| locator (selector : string)
| first (l : Locator)
| sub_locator (l : Locator) (selector : string)
| nth (l : Locator) (i : nat).

Fixpoint Locator_eqb (a b : Locator) : bool :=
  match a, b with
  | locator s, locator t => String.eqb s t
  | first a', first b' => Locator_eqb a' b'
  | sub_locator a' s, sub_locator b' t => (Locator_eqb a' b' && String.eqb s t)%bool
  | nth a' i, nth b' j => (Locator_eqb a' b' && Nat.eqb i j)%bool
  | _, _ => false
  end.

(** What the snapshot collector of [useMcpSnapshot] returns for one DOM
    element, and for the page. *)
Record Element := mkElement {
  tagName : string;
  id : option string;
  className : option string;
  textContent : option string;
  attributes : list (string * string);
  role : option string;
  ariaLabel : option string }.

Record Snapshot := mkSnapshot {
  snap_title : string;
  snap_url : string;
  elementsCount : Z;
  accessibilityTree : list Element }.

(** The asynchronous calls the code makes on the page and its locators,
    with the options the code passes. *)
Inductive Action :=
| page_goto (url : string) (timeout : Z) (waitUntil : option string)
| page_setContent (html : string)
| page_setViewportSize (width height : Z)
| page_title
| page_content
| page_screenshot (path : string) (fullPage : option bool)
| page_waitForLoadState (state : string) (timeout : option Z)
| page_waitForTimeout (ms : Z)
| page_evaluate_onLine
| page_evaluate_pageInfo
| page_evaluate_logInfo
| locator_count (l : Locator)
| locator_all (l : Locator)
| locator_isVisible (l : Locator) (timeout : option Z)
| locator_waitFor (l : Locator) (state : string) (timeout : Z)
| locator_click (l : Locator) (force : option bool) (timeout : option Z)
| locator_clear (l : Locator)
| locator_fill (l : Locator) (value : string)
| locator_textContent (l : Locator)
| expect_toBeVisible (l : Locator) (timeout : Z).

(** The type of value each call resolves to. *)
Definition answer (a : Action) : Type :=
  match a with
  | page_title | page_content => string
  | page_evaluate_onLine => bool
  | page_evaluate_pageInfo => Snapshot
  | locator_count _ | locator_all _ => nat
  | locator_isVisible _ _ => bool
  | locator_textContent _ => option string
  | _ => unit
  end.

End Playwright.
Import Playwright.

(** ** Results, events and the process state *)

Inductive Res (A : Type) : Type :=
| Ok (a : A)
| Throw (e : JsError).
Arguments Ok {A} a.
Arguments Throw {A} e.

Definition is_ok {A} (r : Res A) : bool :=
  match r with Ok _ => true | Throw _ => false end.

Definition rejection {A} (r : Res A) : option JsError :=
  match r with Ok _ => None | Throw e => Some e end.

Inductive Level := LOG | WARN | ERROR.

(** What a run does, in order: console output, calls to the engine (and
    how they settled), what [page.url()] returned, timers ([setTimeout] awaited for [ms]), and
    invocations of a callback passed to [retry] (whether it was rejected,
    and what the invocation itself did). *)
Inductive Event :=
| Console (level : Level) (msg : string)
| Did (a : Action) (r : Res (answer a))
| Url (url : string)
| Timer (ms : Z)
| Invoke (rejected : option JsError) (inner : list Event).

(** The module-level variables of the Node process: the exported constants
    and the two variables of the test spec. *)
Record Process := mkProcess {
  constants : Config.Constants;
  mcpConnected : bool;
  lastSnapshot : option Snapshot }.

Definition initial_process : Process :=
  {| constants := Config.initial; mcpConnected := false; lastSnapshot := None |}.

(** The engine: each call fulfils or rejects and moves the world on;
    [page.url()] and [Date.now()] are synchronous and total; awaiting a
    timer lets the world evolve. *)
Class Engine (W : Type) := mkEngine {
  engine_do : forall a : Action, W -> Res (answer a) * W;
  engine_url : W -> string;
  engine_now : W -> Z;
  engine_elapse : Z -> W -> W }.

(** ** The monad of asynchronous code *)

Record St (W : Type) := mkSt { world : W; process : Process }.

Record Out (W A : Type) := mkOut {
  result : Res A;
  final : St W;
  trace : list Event }.

Definition M (W A : Type) : Type := St W -> Out W A.

Section Monad.
Context {W : Type} {E : Engine W}.

Definition ret {A} (a : A) : M W A := fun s => mkOut (Ok a) s [].

Definition throw {A} (e : JsError) : M W A := fun s => mkOut (Throw e) s [].

Definition bind {A B} (m : M W A) (k : A -> M W B) : M W B := fun s =>
  match m s with
  | mkOut (Ok a) s1 t1 =>
      match k a s1 with
      | mkOut r s2 t2 => mkOut r s2 (t1 ++ t2)
      end
  | mkOut (Throw e) s1 t1 => mkOut (Throw e) s1 t1
  end.

(** [try { m } catch (error) { h error }] *)
Definition try_catch {A} (m : M W A) (h : JsError -> M W A) : M W A := fun s =>
  match m s with
  | mkOut (Ok a) s1 t1 => mkOut (Ok a) s1 t1
  | mkOut (Throw e) s1 t1 =>
      match h e s1 with
      | mkOut r s2 t2 => mkOut r s2 (t1 ++ t2)
      end
  end.

Definition emit (ev : Event) : M W unit := fun s => mkOut (Ok tt) s [ev].

Definition console_log (msg : string) : M W unit := emit (Console LOG msg).
Definition console_warn (msg : string) : M W unit := emit (Console WARN msg).
Definition console_error (msg : string) : M W unit := emit (Console ERROR msg).

(** [await] of one engine call. *)
Definition perform (a : Action) : M W (answer a) := fun s =>
  match engine_do a (world s) with
  | (r, w') => mkOut r (mkSt w' (process s)) [Did a r]
  end.

Definition page_url : M W string := fun s =>
  mkOut (Ok (engine_url (world s))) s [Url (engine_url (world s))].

Definition Date_now : M W Z := fun s => mkOut (Ok (engine_now (world s))) s [].

(** [await new Promise(resolve => setTimeout(resolve, ms))] *)
Definition setTimeout_wait (ms : Z) : M W unit := fun s =>
  mkOut (Ok tt) (mkSt (engine_elapse ms (world s)) (process s)) [Timer ms].

(** [await operation()] for a callback [operation]. *)
Definition invoke {A} (operation : M W A) : M W A := fun s =>
  match operation s with
  | mkOut r s1 t1 => mkOut r s1 [Invoke (rejection r) t1]
  end.

Definition get_process : M W Process := fun s => mkOut (Ok (process s)) s [].

Definition set_process (f : Process -> Process) : M W unit := fun s =>
  mkOut (Ok tt) (mkSt (world s) (f (process s))) [].

Definition get_constants : M W Config.Constants := fun s =>
  mkOut (Ok (constants (process s))) s [].

End Monad.

Declare Scope js_scope.
Delimit Scope js_scope with js.
Notation "x <- m ;; k" := (bind m (fun x => k))
  (at level 61, m at next level, right associativity) : js_scope.
Notation "m ;; k" := (bind m (fun _ => k))
  (at level 61, right associativity) : js_scope.
Notation "'TRY' m 'CATCH' e '=>' h" := (try_catch m (fun e => h))
  (at level 61, m at level 61, e name, h at level 61) : js_scope.
Open Scope js_scope.

(** [promise.catch(() => v)] *)
Definition catch_value {W A} (m : M W A) (v : A) : M W A :=
  try_catch m (fun _ => ret v).

(** ** [utils/helpers.ts] *)

Module Helpers.
Section Helpers.
Context {W : Type} {E : Engine W}.

(** [BasePage.navigateTo] *)
Definition navigateTo (url : string) : M W unit :=
  TRY (c <- get_constants ;;
       perform (page_goto url (Config.LONG (Config.TIMEOUTS c)) (Some "domcontentloaded")))
  CATCH error =>
    (console_error ("Navigation to " ++ url ++ " failed: " ++ error_to_string error) ;;
     throw (Error ("Failed to navigate to " ++ url ++ ": " ++ error_to_string error))).

(** [BasePage.maximizeWindow] *)
Definition maximizeWindow : M W unit :=
  TRY perform (page_setViewportSize 1920 1080)
  CATCH error =>
    (console_error ("Failed to maximize window: " ++ error_to_string error) ;;
     throw (Error ("Failed to maximize window: " ++ error_to_string error))).

(** The default value of a parameter is evaluated when the call is made. *)
Definition default_MEDIUM (timeoutMs : option Z) : M W Z :=
  match timeoutMs with
  | Some t => ret t
  | None => c <- get_constants ;; ret (Config.MEDIUM (Config.TIMEOUTS c))
  end.

Definition waitForElement (l : Locator) (timeoutMs : option Z) : M W unit :=
  t <- default_MEDIUM timeoutMs ;;
  TRY perform (locator_waitFor l "visible" t)
  CATCH error =>
    (console_error ("Element wait timed out: " ++ error_to_string error) ;;
     throw (Error ("Element wait timed out: " ++ error_to_string error))).

Section Retry.
Context {T : Type}.
Variable operation : M W T.
Variables maxRetries delayMs : Z.

(** The [for] loop of [retry], entered with the current values of
    [attempt] and [lastError]; the statement after the loop is the
    [throw]. *)
Equations? retry_from (attempt : Z) (lastError : option JsError) : M W T
  by wf (Z.to_nat (maxRetries + 1 - attempt)) lt :=
retry_from attempt lastError with Z_le_dec attempt maxRetries := {
  | left _ =>
      TRY invoke operation
      CATCH error =>
        (console_warn ("Retry attempt " ++ of_number attempt ++ "/" ++ of_number maxRetries
                       ++ " failed: " ++ error_to_string error) ;;
         (if attempt <? maxRetries then setTimeout_wait delayMs else ret tt) ;;
         retry_from (attempt + 1) (Some error))
  | right _ =>
      throw (Error ("Operation failed after " ++ of_number maxRetries
                    ++ " attempts. Last error: " ++ opt_error_to_string lastError)) }.
Proof. lia. Qed.
End Retry.

Definition retry {T} (operation : M W T) (maxRetries delayMs : option Z) : M W T :=
  retry_from operation
    (match maxRetries with Some n => n | None => 3 end)
    (match delayMs with Some d => d | None => 1000 end)
    1 None.

(** [takeScreenshot]: a failure is logged and not passed on. *)
Definition takeScreenshot (testName screenshotName : string) : M W unit :=
  TRY (now <- Date_now ;;
       perform (page_screenshot
                  ("./test-results/screenshots/" ++ testName ++ "-" ++ screenshotName
                   ++ "-" ++ of_number now ++ ".png") (Some true)))
  CATCH error =>
    console_error ("Failed to take screenshot: " ++ error_to_string error).

(** [elementExists], whose [timeoutMs] defaults to 5000. *)
Definition elementExists (l : Locator) (timeoutMs : option Z) : M W bool :=
  TRY (perform (locator_waitFor l "attached"
                  (match timeoutMs with Some t => t | None => 5000 end)) ;;
       ret true)
  CATCH error => ret false.

Record ClickOptions := mkClickOptions { force : option bool; timeout : option Z }.

(** [options?.timeout || TIMEOUTS.MEDIUM]: a timeout of 0 is falsy. *)
Definition click_timeout (options : option ClickOptions) : M W Z :=
  match options with
  | Some {| timeout := Some t |} =>
      if t =? 0 then c <- get_constants ;; ret (Config.MEDIUM (Config.TIMEOUTS c))
      else ret t
  | _ => c <- get_constants ;; ret (Config.MEDIUM (Config.TIMEOUTS c))
  end.

Definition click_force (options : option ClickOptions) : option bool :=
  match options with
  | Some o => force o
  | None => None
  end.

Definition safeClick (l : Locator) (options : option ClickOptions) : M W unit :=
  timeout <- click_timeout options ;;
  retry (waitForElement l (Some timeout) ;;
         perform (locator_click l (click_force options) (Some timeout)))
        None None.

End Helpers.
End Helpers.

(** The type of the selector function a test may inject into a page
    object.  It is ordinary code of the test: it may log, read the last
    snapshot, and throw. *)
Definition McpSelectorFn (W : Type) : Type := string -> M W string.

(** [//*[@id=...]] with the identifier in double quotes. *)
Definition xpath_id (i : string) : string := "//*[@id=" ++ q i ++ "]".

(** [tag:has-text(...)] with the text in double quotes. *)
Definition has_text (tag text : string) : string := tag ++ ":has-text(" ++ q text ++ ")".

(** ** [pages/watchlistManager/WatchlistManagerPage.ts] *)

Module WatchlistManagerPage.
Import Helpers.
Section Page.
Context {W : Type} {E : Engine W}.

Record t := mk {
  mainMenuButton : Locator;
  watchlistManagerMenu : Locator;
  synonymsMenu : Locator;
  synonymsRulesManagerMenu : Locator;
  listsMenu : Locator;
  standardListsMenu : Locator;
  euListLink : Locator;
  nameColumnHeader : Locator;
  nameColumnSortIcon : Locator;
  sortColumnHeading : Locator;
  weightedWordsRuleSetLink : Locator;
  agencyRuleText : Locator;
  mcpSelector : option (McpSelectorFn W) }.

Definition getSelector (mcpSelector : option (McpSelectorFn W))
    (description fallbackSelector : string) : M W string :=
  console_log ("Searching for selector with description: " ++ q description) ;;
  let fallback :=
    console_log ("Using fallback selector for " ++ q description ++ ": " ++ fallbackSelector) ;;
    ret fallbackSelector in
  match mcpSelector with
  | Some mcp =>
      r <- (TRY (let normalizedDescription := trim (toLowerCase description) in
                 mcpGeneratedSelector <- mcp normalizedDescription ;;
                 console_log ("Using MCP selector for " ++ q description ++ ": "
                              ++ mcpGeneratedSelector) ;;
                 ret (Some mcpGeneratedSelector))
            CATCH error =>
              (console_warn ("Error using MCP selector for " ++ q description ++ ": "
                             ++ error_to_string error) ;;
               ret None)) ;;
      match r with
      | Some selector => ret selector
      | None => fallback
      end
  | None => fallback
  end.

Definition lists_id : string := "home_watchlistmanagement_home_watchlistmanagement_lists".
Definition standard_lists_id : string :=
  "home_watchlistmanagement_home_watchlistmanagement_lists_home_watchlistmanagement_lists_standard".

(** The constructor. *)
Definition new (mcpSelectorFn : option (McpSelectorFn W)) : M W t :=
  let sel := getSelector mcpSelectorFn in
  c <- get_constants ;;
  let TEST_DATA := Config.TEST_DATA c in
  let mainMenuButton := locator (xpath_id "menu-trigger") in
  s1 <- sel "watchlist manager menu" (xpath_id "home_watchlistmanagement") ;;
  s2 <- sel "synonyms menu" (xpath_id "home_watchlistmanagement_menu-item_synonyms_path") ;;
  s3 <- sel "synonyms rules manager menu"
          (xpath_id "home_watchlistmanagement_menu-item_synonyms_path_menu-item_synonym_rules_manager_path") ;;
  let listsMenu := locator (xpath_id lists_id) in
  let standardListsMenu := locator (xpath_id standard_lists_id) in
  s4 <- sel "eu list" ("text=" ++ Config.EU_LIST_NAME TEST_DATA) ;;
  s5 <- sel "name column header" (has_text "th" "Name") ;;
  s6 <- sel "sort icon" ".sort-icon, .sortable-icon" ;;
  let sortColumnHeading := locator (xpath_id "SYSWLMPP_Synonym_RS_List_sort0") in
  s7 <- sel "weighted words rule set" (has_text "a" (Config.RULE_SET_NAME TEST_DATA)) ;;
  s8 <- sel "agency rule" (has_text "a" (Config.EXPECTED_TEXT TEST_DATA)) ;;
  console_log "WatchlistManagerPage initialized with MCP selectors:" ;;
  l1 <- sel "main menu" (xpath_id "menu-trigger") ;;
  console_log ("- Main menu: " ++ l1) ;;
  l2 <- sel "watchlist manager menu" (xpath_id "home_watchlistmanagement") ;;
  console_log ("- Watchlist Manager menu: " ++ l2) ;;
  l3 <- sel "agency rule" (has_text "a" (Config.EXPECTED_TEXT TEST_DATA)) ;;
  console_log ("- Agency rule: " ++ l3) ;;
  console_log ("- Lists menu: " ++ xpath_id lists_id) ;;
  console_log ("- Standard Lists menu: " ++ xpath_id standard_lists_id) ;;
  l4 <- sel "eu list" (has_text "a" (Config.EU_LIST_NAME TEST_DATA)) ;;
  console_log ("- EU List: " ++ l4) ;;
  ret {| mainMenuButton := mainMenuButton;
         watchlistManagerMenu := locator s1;
         synonymsMenu := locator s2;
         synonymsRulesManagerMenu := locator s3;
         listsMenu := listsMenu;
         standardListsMenu := standardListsMenu;
         euListLink := locator s4;
         nameColumnHeader := locator s5;
         nameColumnSortIcon := sub_locator (locator s5) s6;
         sortColumnHeading := sortColumnHeading;
         weightedWordsRuleSetLink := locator s7;
         agencyRuleText := locator s8;
         mcpSelector := mcpSelectorFn |}.

Definition mock_indicator : Locator := locator ("[data-testid=" ++ q "mock-indicator" ++ "]").
Definition mock_dashboard_h1 : Locator := locator (has_text "h1" "NetReveal Mock Dashboard").
Definition mock_mode_p : Locator := locator (has_text "p" "mock mode").

Definition isRunningInMockMode : M W bool :=
  TRY (console_log "Checking if running in mock mode" ;;
       title <- perform page_title ;;
       if (includes title "Mock" || includes title "Test Mode")%bool then
         console_log "Mock mode detected via page title" ;; ret true
       else
         url <- page_url ;;
         if includes url "mock=true" then
           console_log "Mock mode detected via URL parameter" ;; ret true
         else
           mockIndicators <- perform (locator_count mock_indicator) ;;
           if Nat.ltb 0 mockIndicators then
             console_log "Mock mode detected via mock indicator elements" ;; ret true
           else
             n1 <- perform (locator_count mock_dashboard_h1) ;;
             hasMockElements <-
               (if Nat.ltb 0 n1 then ret true
                else n2 <- perform (locator_count mock_mode_p) ;; ret (Nat.ltb 0 n2)) ;;
             let isMockByUrl := (startsWith url "data:" || includes url "about:blank")%bool in
             if (hasMockElements || isMockByUrl)%bool then
               console_log "Mock mode detected via additional checks" ;; ret true
             else if (includes url "netreveal" || includes url "https://10.222")%bool then
               console_log "Detected actual application URL, assuming NOT in mock mode" ;;
               ret false
             else
               console_log "No mock mode indicators found, assuming normal operation" ;;
               ret false)
  CATCH error =>
    (console_warn ("Error detecting mock mode: " ++ error_to_string error
                   ++ ", assuming mock mode for safety") ;;
     ret true).

Definition clickMainMenu (this : t) : M W unit :=
  TRY (console_log ("Clicking main menu button using exact XPath: " ++ xpath_id "menu-trigger") ;;
       title <- perform page_title ;;
       let isMockMode := (includes title "Mock" || includes title "Test Mode")%bool in
       if isMockMode then
         console_log "Running in mock mode - skipping waitFor for menu button" ;;
         n <- perform (locator_count (locator (xpath_id "menu-trigger"))) ;;
         let mainMenuExists := Nat.ltb 0 n in
         console_log ("Main menu button exists in mock mode: " ++ of_bool mainMenuExists) ;;
         console_log "Main menu button handled in mock mode"
       else
         c <- get_constants ;;
         waitForElement (mainMenuButton this) (Some (Config.MEDIUM (Config.TIMEOUTS c))) ;;
         safeClick (mainMenuButton this) None ;;
         console_log ("Main menu button clicked using exact XPath: " ++ xpath_id "menu-trigger"))
  CATCH error =>
    (console_error ("Failed to click main menu button: " ++ error_to_string error) ;;
     throw (Error ("Failed to click main menu button: " ++ error_to_string error))).

Definition navigateToSynonyms (this : t) : M W unit :=
  TRY (console_log "Navigating to Synonyms" ;;
       safeClick (synonymsMenu this) None ;;
       console_log "Navigated to Synonyms")
  CATCH error =>
    (console_error ("Failed to navigate to Synonyms: " ++ error_to_string error) ;;
     throw (Error ("Failed to navigate to Synonyms: " ++ error_to_string error))).

Definition sortNameColumnIfNeeded (this : t) : M W unit :=
  TRY (console_log "Checking if rule set is visible" ;;
       isRuleSetVisible <- elementExists (weightedWordsRuleSetLink this) None ;;
       (if negb isRuleSetVisible then
          console_log ("Rule set not visible, sorting Name column using XPath: "
                       ++ xpath_id "SYSWLMPP_Synonym_RS_List_sort0") ;;
          safeClick (sortColumnHeading this) None ;;
          perform (page_waitForTimeout 1000) ;;
          isVisibleAfterFirstSort <- elementExists (weightedWordsRuleSetLink this) None ;;
          if negb isVisibleAfterFirstSort then
            console_log "Rule set not visible after first sort, trying reverse sort" ;;
            safeClick (sortColumnHeading this) None ;;
            perform (page_waitForTimeout 1000)
          else ret tt
        else ret tt) ;;
       console_log "Name column sorted if needed")
  CATCH error =>
    (console_error ("Failed to sort Name column: " ++ error_to_string error) ;;
     throw (Error ("Failed to sort Name column: " ++ error_to_string error))).

(** ** The other operations of the page object *)

Definition navigateToWatchlistManager (this : t) : M W unit :=
  TRY (console_log "Navigating to Watchlist Manager" ;;
       title <- perform page_title ;;
       let isMockMode := (includes title "Mock" || includes title "Test Mode")%bool in
       if isMockMode then
         console_log "Running in mock mode - skipping click for Watchlist Manager" ;;
         console_log "Navigated to Watchlist Manager in mock mode"
       else
         safeClick (watchlistManagerMenu this) None ;;
         console_log "Navigated to Watchlist Manager")
  CATCH error =>
    (console_error ("Failed to navigate to Watchlist Manager: " ++ error_to_string error) ;;
     throw (Error ("Failed to navigate to Watchlist Manager: " ++ error_to_string error))).

Definition navigateToSynonymsRulesManager (this : t) : M W unit :=
  TRY (console_log "Navigating to Synonyms Rules Manager" ;;
       safeClick (synonymsRulesManagerMenu this) None ;;
       perform (page_waitForLoadState "networkidle" None) ;;
       console_log "Navigated to Synonyms Rules Manager")
  CATCH error =>
    (console_error ("Failed to navigate to Synonyms Rules Manager: " ++ error_to_string error) ;;
     throw (Error ("Failed to navigate to Synonyms Rules Manager: " ++ error_to_string error))).

Definition navigateToLists (this : t) : M W unit :=
  TRY (console_log ("Navigating to Lists using exact XPath: " ++ xpath_id lists_id) ;;
       isMockMode <- isRunningInMockMode ;;
       if isMockMode then
         console_log "Running in mock mode - skipping Lists navigation completely" ;;
         n <- perform (locator_count (locator (xpath_id lists_id))) ;;
         let listsMenuExists := Nat.ltb 0 n in
         console_log ("Lists menu element exists in mock mode: " ++ of_bool listsMenuExists) ;;
         (if negb listsMenuExists then
            console_warn "Lists menu element not found in mock mode, will proceed anyway"
          else ret tt) ;;
         console_log "Navigated to Lists in mock mode"
       else
         TRY (c <- get_constants ;;
              waitForElement (listsMenu this) (Some (Config.MEDIUM (Config.TIMEOUTS c))) ;;
              safeClick (listsMenu this) None ;;
              console_log "Navigated to Lists using exact XPath")
         CATCH normalModeError =>
           (console_error ("Error in normal navigation mode for Lists: "
                           ++ error_to_string normalModeError) ;;
            console_warn "Attempting mock mode fallback check for Lists..." ;;
            n <- perform (locator_count (locator (xpath_id lists_id))) ;;
            let maybeInMock := Nat.ltb 0 n in
            if maybeInMock then
              console_log "Found Lists menu element despite navigation error - assuming mock mode"
            else throw normalModeError))
  CATCH error =>
    (console_error ("Failed to navigate to Lists: " ++ error_to_string error) ;;
     throw (Error ("Failed to navigate to Lists: " ++ error_to_string error))).

Definition navigateToStandardLists (this : t) : M W unit :=
  TRY (console_log ("Navigating to Standard Lists using exact XPath: "
                    ++ xpath_id standard_lists_id) ;;
       isMockMode <- isRunningInMockMode ;;
       if isMockMode then
         console_log "Running in mock mode - skipping StandardLists navigation completely" ;;
         (TRY (n <- perform (locator_count (locator (xpath_id standard_lists_id))) ;;
               let standardListsExists := Nat.ltb 0 n in
               console_log ("Standard Lists element exists in mock mode: "
                            ++ of_bool standardListsExists) ;;
               if negb standardListsExists then
                 console_warn "Standard Lists element not found in mock mode, will proceed anyway"
               else ret tt)
          CATCH elementError =>
            (console_warn ("Error checking standard lists element: "
                           ++ error_to_string elementError) ;;
             console_log "Proceeding anyway in mock mode")) ;;
         console_log "Navigated to Standard Lists in mock mode"
       else
         c <- get_constants ;;
         waitForElement (standardListsMenu this) (Some (Config.MEDIUM (Config.TIMEOUTS c))) ;;
         safeClick (standardListsMenu this) None ;;
         console_log "Navigated to Standard Lists in normal mode")
  CATCH error =>
    (console_error ("Failed to navigate to Standard Lists: " ++ error_to_string error) ;;
     throw (Error ("Failed to navigate to Standard Lists: " ++ error_to_string error))).

Definition navigateToEUList (this : t) : M W unit :=
  TRY (console_log "Navigating to EU List" ;;
       isMockMode <- isRunningInMockMode ;;
       if isMockMode then
         console_log "Running in mock mode - skipping EU List navigation completely" ;;
         n <- perform (locator_count (locator "#eu_list_item")) ;;
         let euListExists := Nat.ltb 0 n in
         console_log ("EU List element exists in mock mode: " ++ of_bool euListExists) ;;
         (if negb euListExists then
            console_warn "EU List element not found in mock mode, will proceed anyway"
          else ret tt) ;;
         console_log "Navigated to EU List in mock mode"
       else
         TRY (c <- get_constants ;;
              waitForElement (euListLink this) (Some (Config.MEDIUM (Config.TIMEOUTS c))) ;;
              safeClick (euListLink this) None ;;
              (TRY perform (page_waitForLoadState "networkidle" (Some 5000))
               CATCH networkError =>
                 console_warn ("Network wait timed out but continuing: "
                               ++ error_to_string networkError)) ;;
              console_log "Navigated to EU List")
         CATCH normalModeError =>
           (console_error ("Error in normal navigation mode: "
                           ++ error_to_string normalModeError) ;;
            console_warn "Attempting mock mode fallback check for EU List..." ;;
            n <- perform (locator_count (locator "#eu_list_item")) ;;
            let maybeInMock := Nat.ltb 0 n in
            if maybeInMock then
              console_log "Found EU List element despite navigation error - assuming mock mode"
            else throw normalModeError))
  CATCH error =>
    (console_error ("Failed to navigate to EU List: " ++ error_to_string error) ;;
     throw (Error ("Failed to navigate to EU List: " ++ error_to_string error))).

(** [TEST_DATA.RULE_SET_NAME], read when a template is evaluated. *)
Definition RULE_SET_NAME : M W string :=
  c <- get_constants ;; ret (Config.RULE_SET_NAME (Config.TEST_DATA c)).

Definition EXPECTED_TEXT : M W string :=
  c <- get_constants ;; ret (Config.EXPECTED_TEXT (Config.TEST_DATA c)).

Definition EU_NAME_TEXT : M W string :=
  c <- get_constants ;; ret (Config.EU_NAME_TEXT (Config.TEST_DATA c)).

Definition clickWeightedWordsRuleSet (this : t) : M W unit :=
  TRY (name <- RULE_SET_NAME ;;
       console_log ("Clicking '" ++ name ++ "' link") ;;
       c <- get_constants ;;
       safeClick (weightedWordsRuleSetLink this)
         (Some {| force := None; timeout := Some (Config.LONG (Config.TIMEOUTS c)) |}) ;;
       perform (page_waitForLoadState "networkidle" None) ;;
       name <- RULE_SET_NAME ;;
       console_log ("Clicked '" ++ name ++ "' link"))
  CATCH error =>
    (name <- RULE_SET_NAME ;;
     console_error ("Failed to click '" ++ name ++ "' link: " ++ error_to_string error) ;;
     name <- RULE_SET_NAME ;;
     throw (Error ("Failed to click '" ++ name ++ "' link: " ++ error_to_string error))).

Definition assertAgencyRulePresent (this : t) : M W unit :=
  TRY (text <- EXPECTED_TEXT ;;
       console_log ("Asserting '" ++ text ++ "' is present") ;;
       c <- get_constants ;;
       perform (expect_toBeVisible (agencyRuleText this) (Config.MEDIUM (Config.TIMEOUTS c))) ;;
       text <- EXPECTED_TEXT ;;
       console_log ("Assertion passed: '" ++ text ++ "' is present and visible"))
  CATCH error =>
    (text <- EXPECTED_TEXT ;;
     console_error ("Assertion failed: '" ++ text ++ "' is not visible: "
                    ++ error_to_string error) ;;
     text <- EXPECTED_TEXT ;;
     throw (Error ("Assertion failed: '" ++ text ++ "' is not visible: "
                   ++ error_to_string error))).

(** [await this.page.waitForLoadState('networkidle', { timeout: TIMEOUTS.SHORT })] *)
Definition wait_idle_SHORT : M W unit :=
  c <- get_constants ;;
  perform (page_waitForLoadState "networkidle" (Some (Config.SHORT (Config.TIMEOUTS c)))).

Definition navigateToSynonymRulesWithoutAssertion (this : t) : M W unit :=
  TRY (console_log "Starting navigation sequence using proper menu navigation..." ;;
       console_log "Step 1: Opening main menu" ;;
       clickMainMenu this ;;
       wait_idle_SHORT ;;
       console_log "Step 2: Navigating to Watchlist Manager" ;;
       navigateToWatchlistManager this ;;
       wait_idle_SHORT ;;
       console_log "Step 3: Navigating to Synonyms" ;;
       navigateToSynonyms this ;;
       wait_idle_SHORT ;;
       console_log "Step 4: Navigating to Synonyms Rules Manager" ;;
       navigateToSynonymsRulesManager this ;;
       perform (page_waitForLoadState "networkidle" None) ;;
       console_log "Step 5: Sorting name column if needed" ;;
       sortNameColumnIfNeeded this ;;
       console_log "Step 6: Clicking on weighted words rule set" ;;
       clickWeightedWordsRuleSet this ;;
       console_log "Navigation sequence completed successfully (without assertion)")
  CATCH error =>
    (console_error ("Navigation sequence failed: " ++ error_to_string error) ;;
     throw (Error ("Navigation sequence failed: " ++ error_to_string error))).

Definition navigateToSynonymRulesAndAssert (this : t) : M W unit :=
  TRY (console_log "Starting navigation sequence using proper menu navigation..." ;;
       console_log "Step 1: Opening main menu" ;;
       clickMainMenu this ;;
       wait_idle_SHORT ;;
       console_log "Step 2: Navigating to Watchlist Manager" ;;
       navigateToWatchlistManager this ;;
       wait_idle_SHORT ;;
       console_log "Step 3: Navigating to Synonyms" ;;
       navigateToSynonyms this ;;
       wait_idle_SHORT ;;
       console_log "Step 4: Navigating to Synonyms Rules Manager" ;;
       navigateToSynonymsRulesManager this ;;
       perform (page_waitForLoadState "networkidle" None) ;;
       console_log "Step 5: Sorting name column if needed" ;;
       sortNameColumnIfNeeded this ;;
       console_log "Step 6: Clicking on weighted words rule set" ;;
       clickWeightedWordsRuleSet this ;;
       console_log "Step 7: Asserting agency rule is present" ;;
       assertAgencyRulePresent this ;;
       console_log "Navigation sequence completed successfully")
  CATCH error =>
    (console_error ("Navigation sequence failed: " ++ error_to_string error) ;;
     throw (Error ("Navigation sequence failed: " ++ error_to_string error))).

(** The three messages with which [assertEuNamePresent] fails. *)
Definition eu_name_not_found (text : string) : string :=
  "EU List Validation Failed: The required text '" ++ text
  ++ "' was not found in the page content. "
  ++ "This indicates that the EU List page did not load correctly or the search index data is missing. "
  ++ "Please check the application configuration and ensure that EU List data is properly loaded.".

Definition eu_name_not_visible (text : string) : string :=
  "EU List Validation Failed: The text '" ++ text
  ++ "' was found in the page but is not visible. "
  ++ "This could be due to CSS styling that hides the element or it being positioned outside the viewport. "
  ++ "Please check the element's visibility properties and position in the DOM.".

Definition eu_name_unverified (text : string) : string :=
  "EU List Validation Failed: Unable to verify the presence of '" ++ text ++ "'. "
  ++ "An unexpected error occurred during validation. Please check the test logs for details.".

(** [await this.page.screenshot({ path: `./test-results/${name}-${Date.now()}.png` })] *)
Definition debug_screenshot (name : string) : M W unit :=
  now <- Date_now ;;
  perform (page_screenshot ("./test-results/" ++ name ++ "-" ++ of_number now ++ ".png") None).

Definition assertEuNamePresent (this : t) : M W unit :=
  text <- EU_NAME_TEXT ;;
  console_log ("Asserting '" ++ text ++ "' is present") ;;
  TRY (isMockMode <- isRunningInMockMode ;;
       text <- EU_NAME_TEXT ;;
       let euNameSelector := "text=" ++ text in
       let euNameLocator := locator euNameSelector in
       isElementPresent <- elementExists euNameLocator (Some 3000) ;;
       if isMockMode then
         console_log "Running in mock mode - checking actual presence of eu_name in HTML" ;;
         pageContent <- perform page_content ;;
         text <- EU_NAME_TEXT ;;
         let hasEuNameText :=
           (includes (toLowerCase pageContent) (toLowerCase text)
            || includes (toLowerCase pageContent) "eu_name")%bool in
         console_log ("Debug: Raw HTML contains 'eu_name' string: " ++ of_bool hasEuNameText) ;;
         if isElementPresent then
           console_log ("Element found using locator: " ++ euNameSelector) ;;
           text <- EU_NAME_TEXT ;;
           console_log ("Assertion passed: '" ++ text ++ "' element found")
         else if hasEuNameText then
           console_log "Assertion passed: 'eu_name' string found in mock mode HTML content"
         else
           debug_screenshot "eu-name-assertion-failure" ;;
           text <- EU_NAME_TEXT ;;
           throw (Error (eu_name_not_found text))
       else
         console_log "Using text selector for eu_name in normal mode" ;;
         text <- EU_NAME_TEXT ;;
         let euNameSelector := "text=" ++ text in
         let euNameLocator := locator euNameSelector in
         console_log ("Looking for eu_name with selector: " ++ euNameSelector) ;;
         (TRY (c <- get_constants ;;
               perform (expect_toBeVisible euNameLocator (Config.MEDIUM (Config.TIMEOUTS c))))
          CATCH visibilityError =>
            (debug_screenshot "eu-name-visibility-failure" ;;
             text <- EU_NAME_TEXT ;;
             throw (Error (eu_name_not_visible text)))) ;;
         text <- EU_NAME_TEXT ;;
         console_log ("Assertion passed: '" ++ text ++ "' is present and visible"))
  CATCH error =>
    (if (negb (String.eqb (err_message error) EmptyString)
         && negb (includes (err_message error) "EU List Validation Failed"))%bool then
       console_error ("Assertion error: " ++ err_message error) ;;
       debug_screenshot "eu-name-assertion-error" ;;
       text <- EU_NAME_TEXT ;;
       throw (Error (eu_name_unverified text))
     else throw error).

(** A wait for the network to settle whose failure is logged and not
    passed on; [after] names the step it follows. *)
Definition settle_network (timeout : Config.Timeouts -> Z) (after : string) : M W unit :=
  TRY (c <- get_constants ;;
       perform (page_waitForLoadState "networkidle" (Some (timeout (Config.TIMEOUTS c)))))
  CATCH waitError =>
    (console_warn ("Network wait after " ++ after ++ " timed out: "
                   ++ error_to_string waitError) ;;
     console_log "Continuing without waiting for network idle").

(** [await this.page.locator(selector).count() > 0] *)
Definition exists_on_page (selector : string) : M W bool :=
  n <- perform (locator_count (locator selector)) ;; ret (Nat.ltb 0 n).

Definition navigateToEUListWithoutAssertion (this : t) : M W unit :=
  TRY (console_log "Starting navigation sequence to EU List using proper menu navigation..." ;;
       isMockMode <- isRunningInMockMode ;;
       if isMockMode then
         console_log "Running in mock mode - using simplified navigation sequence" ;;
         console_log "Step 1-5: Mock navigation - checking if required elements exist" ;;
         menuTriggerExists <- exists_on_page (xpath_id "menu-trigger") ;;
         watchlistManagerExists <- exists_on_page (xpath_id "home_watchlistmanagement") ;;
         listsMenuExists <- exists_on_page (xpath_id lists_id) ;;
         standardListsExists <- exists_on_page (xpath_id standard_lists_id) ;;
         euListItemExists <- exists_on_page ("text=" ++ q "EU List") ;;
         standardListsExists <-
           (if negb standardListsExists then
              byId <- exists_on_page ("//*[contains(@id, " ++ q "standard"
                                      ++ ") and contains(@id, " ++ q "lists" ++ ")]") ;;
              if byId then ret true
              else exists_on_page ("text=" ++ q "Standard Lists")
            else ret standardListsExists) ;;
         euListItemExists <-
           (if negb euListItemExists then
              exists_on_page ("//*[contains(@id, " ++ q "eu_list" ++ ")]")
            else ret euListItemExists) ;;
         console_log ("Mock elements check: "
                      ++ inspect_flags [ ("menuTriggerExists", menuTriggerExists);
                                         ("watchlistManagerExists", watchlistManagerExists);
                                         ("listsMenuExists", listsMenuExists);
                                         ("standardListsExists", standardListsExists);
                                         ("euListItemExists", euListItemExists) ]) ;;
         (if (negb menuTriggerExists || negb watchlistManagerExists
              || negb listsMenuExists)%bool then
            console_error "Critical mock elements missing from the page" ;;
            throw (Error "Mock environment is missing required menu elements")
          else ret tt) ;;
         (if negb standardListsExists then
            console_warn "Standard Lists element not found in mock environment - proceeding anyway"
          else ret tt) ;;
         (if negb euListItemExists then
            console_warn "EU List element not found in mock environment - proceeding anyway"
          else ret tt) ;;
         console_log "Navigation sequence to EU List completed successfully in mock mode (without assertion)"
       else
         console_log "Step 1: Opening main menu" ;;
         clickMainMenu this ;;
         settle_network Config.SHORT "clicking main menu" ;;
         console_log "Step 2: Navigating to Watchlist Manager" ;;
         navigateToWatchlistManager this ;;
         settle_network Config.SHORT "navigating to Watchlist Manager" ;;
         console_log "Step 3: Navigating to Lists" ;;
         navigateToLists this ;;
         settle_network Config.SHORT "navigating to Lists" ;;
         console_log "Step 4: Navigating to Standard Lists" ;;
         navigateToStandardLists this ;;
         settle_network Config.MEDIUM "navigating to Standard Lists" ;;
         console_log "Step 5: Navigating to EU List" ;;
         navigateToEUList this ;;
         console_log "Navigation sequence to EU List completed successfully (without assertion)")
  CATCH error =>
    (console_error ("Navigation sequence to EU List failed: " ++ error_to_string error) ;;
     (TRY debug_screenshot "navigation-to-eu-list-failure"
      CATCH screenshotError =>
        console_error ("Failed to take failure screenshot: "
                       ++ error_to_string screenshotError)) ;;
     throw (Error ("Navigation sequence to EU List failed: " ++ error_to_string error))).

End Page.
End WatchlistManagerPage.

(** ** [pages/watchlistManager/StandardListPage.ts] *)

Module StandardListPage.
Import Helpers.
Section Page.
Context {W : Type} {E : Engine W}.

Record t := mk {
  mainMenuButton : Locator;
  watchlistManagerMenu : Locator;
  listsMenu : Locator;
  standardListsMenu : Locator;
  euListLink : Locator;
  euNameText : Locator;
  mcpSelector : option (McpSelectorFn W) }.

Definition getSelector (mcpSelector : option (McpSelectorFn W))
    (description fallbackSelector : string) : M W string :=
  let fallback :=
    console_log ("Using fallback selector for " ++ q description ++ ": " ++ fallbackSelector) ;;
    ret fallbackSelector in
  match mcpSelector with
  | Some mcp =>
      r <- (TRY (mcpGeneratedSelector <- mcp description ;;
                 console_log ("Using MCP selector for " ++ q description ++ ": "
                              ++ mcpGeneratedSelector) ;;
                 ret (Some mcpGeneratedSelector))
            CATCH error =>
              (console_warn ("Error using MCP selector for " ++ q description ++ ": "
                             ++ error_to_string error) ;;
               ret None)) ;;
      match r with
      | Some selector => ret selector
      | None => fallback
      end
  | None => fallback
  end.

Definition role_menuitem : string := "[role=" ++ q "menuitem" ++ "]".
Definition expanded_true : string := "[expanded=" ++ q "true" ++ "]".

(** The five comma-separated alternatives the constructor gives for a
    menu entry called [name]. *)
Definition menu_entry_selector (name : string) : string :=
  has_text role_menuitem name ++ ", " ++ has_text "menuitem" name
  ++ ", :text-is(" ++ q name ++ "), :text(" ++ q name ++ "), " ++ has_text "li" name.

(** The constructor. *)
Definition new (mcpSelectorFn : option (McpSelectorFn W)) : M W t :=
  let sel := getSelector mcpSelectorFn in
  c <- get_constants ;;
  let NAVIGATION := Config.NAVIGATION c in
  let TEST_DATA := Config.TEST_DATA c in
  s0 <- sel "main menu" (xpath_id "menu-trigger") ;;
  s1 <- sel "watchlist manager menu"
          (xpath_id "home_watchlistmanagement" ++ ", "
           ++ has_text role_menuitem (Config.WATCHLIST_MANAGER NAVIGATION) ++ ", "
           ++ has_text "menuitem" (Config.WATCHLIST_MANAGER NAVIGATION) ++ ", text="
           ++ q (Config.WATCHLIST_MANAGER NAVIGATION)) ;;
  s2 <- sel "lists menu" (menu_entry_selector (Config.LISTS NAVIGATION)) ;;
  s3 <- sel "standard lists menu" (menu_entry_selector (Config.STANDARD_LISTS NAVIGATION)) ;;
  s4 <- sel "eu list" (has_text "a" (Config.EU_LIST_NAME TEST_DATA) ++ ", text="
                       ++ q (Config.EU_LIST_NAME TEST_DATA)) ;;
  s5 <- sel "eu_name" ("text=" ++ q (Config.EU_NAME_TEXT TEST_DATA) ++ ", text=eu_name, "
                       ++ has_text EmptyString "eu_name") ;;
  console_log "StandardListPage initialized with MCP selectors:" ;;
  l1 <- sel "main menu" (xpath_id "menu-trigger") ;;
  console_log ("- Main menu: " ++ l1) ;;
  l2 <- sel "watchlist manager menu" (xpath_id "home_watchlistmanagement") ;;
  console_log ("- Watchlist Manager menu: " ++ l2) ;;
  l3 <- sel "eu list" (has_text "a" "EU List") ;;
  console_log ("- EU List link: " ++ l3) ;;
  ret {| mainMenuButton := locator s0;
         watchlistManagerMenu := locator s1;
         listsMenu := locator s2;
         standardListsMenu := locator s3;
         euListLink := locator s4;
         euNameText := locator s5;
         mcpSelector := mcpSelectorFn |}.

(** The locator of the expanded Watchlist Manager entry. *)
Definition expanded_watchlist_manager (WATCHLIST_MANAGER : string) : Locator :=
  locator (has_text "menuitem" WATCHLIST_MANAGER ++ expanded_true ++ ", "
           ++ has_text role_menuitem WATCHLIST_MANAGER ++ expanded_true).

(** The array [selectorStrategies] of [navigateToLists].  Each entry is a
    thunk; those built from a template read [NAVIGATION.LISTS] when they
    are called, so they are functions of the constants here. *)
Definition selectorStrategies (this : t) : list (Config.Constants -> Locator) :=
  let LISTS c := Config.LISTS (Config.NAVIGATION c) in
  [ fun _ => listsMenu this;
    fun c => first (locator ("text=" ++ q (LISTS c)));
    fun c => first (locator (expanded_true ++ " " ++ has_text "menuitem" (LISTS c) ++ ", "
                             ++ expanded_true ++ " " ++ has_text role_menuitem (LISTS c)));
    fun c => first (locator (":text(" ++ q (LISTS c) ++ ")"));
    fun c => first (locator (has_text "li" (LISTS c))) ].

(** One pass through the body of the strategy loop, for the strategy at
    index [i]; the value is the new [success]. *)
Definition try_strategy (this : t) (strategy : Config.Constants -> Locator) (i : Z)
    : M W bool :=
  TRY (console_log ("Trying Lists menu click strategy " ++ of_number (i + 1)) ;;
       c <- get_constants ;;
       let locator := strategy c in
       isVisible <- catch_value (perform (locator_isVisible locator (Some 1000))) false ;;
       if isVisible then
         safeClick locator None ;;
         c <- get_constants ;;
         perform (page_waitForLoadState "networkidle" (Some (Config.SHORT (Config.TIMEOUTS c)))) ;;
         perform (page_waitForTimeout 500) ;;
         standardListsVisible <-
           catch_value (perform (locator_isVisible (standardListsMenu this) (Some 1000))) false ;;
         if standardListsVisible then
           console_log ("Successfully clicked Lists using strategy " ++ of_number (i + 1)) ;;
           ret true
         else
           console_log ("Strategy " ++ of_number (i + 1)
                        ++ " clicked but Standard Lists not visible") ;;
           ret false
       else
         console_log ("Lists menu not visible with strategy " ++ of_number (i + 1)) ;;
         ret false)
  CATCH err =>
    (console_log ("Strategy " ++ of_number (i + 1) ++ " failed: " ++ error_to_string err) ;;
     ret false).

(** The loop [for (i; i < length && !success; i++)] over the strategies
    that remain, [i] being the index of the first of them.  Every entry
    of the array is a function, so the test for an undefined entry never
    fires. *)
Fixpoint strategy_loop (this : t) (remaining : list (Config.Constants -> Locator)) (i : Z)
    : M W bool :=
  match remaining with
  | [] => ret false
  | strategy :: rest =>
      success <- try_strategy this strategy i ;;
      if success then ret true else strategy_loop this rest (i + 1)
  end.

Definition navigateToLists (this : t) : M W unit :=
  TRY (console_log "Navigating to Lists" ;;
       currentUrl <- page_url ;;
       already <-
         (if includes (toLowerCase currentUrl) "list" then
            console_log ("URL already contains " ++ q "list"
                         ++ ", checking if already on correct page") ;;
            isStandardListsVisible <-
              catch_value (perform (locator_isVisible (standardListsMenu this) None)) false ;;
            if isStandardListsVisible then
              console_log "Already on Lists page, skipping navigation" ;; ret true
            else ret false
          else ret false) ;;
       if already then ret tt
       else
         c <- get_constants ;;
         isWatchlistExpanded <-
           catch_value
             (perform (locator_isVisible
                         (expanded_watchlist_manager
                            (Config.WATCHLIST_MANAGER (Config.NAVIGATION c))) None))
             false ;;
         (if negb isWatchlistExpanded then
            console_log "Watchlist Manager not expanded, expanding it first" ;;
            retry (safeClick (watchlistManagerMenu this) None ;;
                   perform (page_waitForTimeout 1000) ;;
                   c <- get_constants ;;
                   expanded <-
                     catch_value
                       (perform (locator_isVisible
                                   (expanded_watchlist_manager
                                      (Config.WATCHLIST_MANAGER (Config.NAVIGATION c))) None))
                       false ;;
                   if negb expanded
                   then throw (Error "Watchlist Manager menu not expanded after click")
                   else ret tt)
                  (Some 3) (Some 1000)
          else ret tt) ;;
         console_log "Attempting to click Lists menu using multiple strategies" ;;
         success <- strategy_loop this (selectorStrategies this) 0 ;;
         (if negb success then throw (Error "All Lists menu click strategies failed")
          else ret tt) ;;
         console_log "Successfully navigated to Lists")
  CATCH error =>
    (console_error ("Failed to navigate to Lists: " ++ error_to_string error) ;;
     throw (Error ("Failed to navigate to Lists: " ++ error_to_string error))).

(** ** The other operations of the page object *)

Definition clickMainMenu (this : t) : M W unit :=
  TRY (console_log "Checking if main menu needs to be clicked..." ;;
       watchlistManagerVisible <-
         catch_value (perform (locator_isVisible (watchlistManagerMenu this) None)) false ;;
       if watchlistManagerVisible then
         console_log "Watchlist Manager menu already visible, skipping main menu click"
       else
         console_log "Clicking main menu button" ;;
         c <- get_constants ;;
         waitForElement (mainMenuButton this) (Some (Config.MEDIUM (Config.TIMEOUTS c))) ;;
         safeClick (mainMenuButton this) None ;;
         perform (page_waitForTimeout 500) ;;
         c <- get_constants ;;
         isWatchlistVisible <-
           catch_value (perform (locator_isVisible (watchlistManagerMenu this)
                                   (Some (Config.SHORT (Config.TIMEOUTS c))))) false ;;
         (if negb isWatchlistVisible then
            console_log "Watchlist Manager not visible after clicking main menu, trying again" ;;
            safeClick (mainMenuButton this) None
          else ret tt) ;;
         console_log "Main menu button clicked successfully")
  CATCH error =>
    (console_error ("Failed to click main menu button: " ++ error_to_string error) ;;
     throw (Error ("Failed to click main menu button: " ++ error_to_string error))).

Definition navigateToWatchlistManager (this : t) : M W unit :=
  TRY (console_log "Navigating to Watchlist Manager" ;;
       safeClick (watchlistManagerMenu this) None ;;
       console_log "Navigated to Watchlist Manager")
  CATCH error =>
    (console_error ("Failed to navigate to Watchlist Manager: " ++ error_to_string error) ;;
     throw (Error ("Failed to navigate to Watchlist Manager: " ++ error_to_string error))).

(** The array [alternativeLocators] of [assertEuNameTextVisible]. *)
Definition alternativeLocators : list Locator :=
  [ locator ("text=" ++ q "eu_name");
    locator (has_text EmptyString "eu_name");
    locator ("[id*=" ++ q "eu_name" ++ "]");
    locator "text=eu_name";
    locator (has_text "td" "eu_name") ].

(** The loop over the alternative locators; the value is the new
    [found]. *)
Fixpoint find_alternative (remaining : list Locator) : M W bool :=
  match remaining with
  | [] => ret false
  | alternative :: rest =>
      c <- get_constants ;;
      isVisible <-
        catch_value (perform (locator_isVisible alternative
                                (Some (Config.SHORT (Config.TIMEOUTS c))))) false ;;
      if isVisible then
        console_log "Found eu_name with alternative selector" ;;
        c <- get_constants ;;
        perform (expect_toBeVisible alternative (Config.MEDIUM (Config.TIMEOUTS c))) ;;
        ret true
      else find_alternative rest
  end.

Definition assertEuNameTextVisible (this : t) : M W unit :=
  TRY (console_log "Asserting eu_name text is present" ;;
       c <- get_constants ;;
       isEuNameVisible <-
         catch_value (perform (locator_isVisible (euNameText this)
                                 (Some (Config.SHORT (Config.TIMEOUTS c))))) false ;;
       (if negb isEuNameVisible then
          console_log "eu_name text not immediately visible, trying alternate selectors" ;;
          found <- find_alternative alternativeLocators ;;
          if negb found then
            console_log "Trying to find any element in the Search Indexes section" ;;
            let searchIndexesSection := first (locator (has_text EmptyString "Search Indexes")) in
            isSectionVisible <-
              catch_value (perform (locator_isVisible searchIndexesSection None)) false ;;
            if isSectionVisible then
              console_log "Found Search Indexes section, looking for eu_name within it" ;;
              let indexNameColumn :=
                first (sub_locator searchIndexesSection (has_text EmptyString "Index Name")) in
              let euNameInSection :=
                first (sub_locator indexNameColumn (has_text EmptyString "eu_name")) in
              c <- get_constants ;;
              perform (expect_toBeVisible euNameInSection (Config.MEDIUM (Config.TIMEOUTS c)))
            else throw (Error "Could not find Search Indexes section or eu_name text")
          else ret tt
        else
          c <- get_constants ;;
          perform (expect_toBeVisible (euNameText this) (Config.MEDIUM (Config.TIMEOUTS c)))) ;;
       console_log "Assertion passed: eu_name text is present and visible")
  CATCH error =>
    (console_error ("Assertion failed: eu_name text is not visible: "
                    ++ error_to_string error) ;;
     throw (Error ("Assertion failed: eu_name text is not visible: "
                   ++ error_to_string error))).

(** The array [selectorStrategies] of [navigateToStandardLists]. *)
Definition standardSelectorStrategies (this : t) : list (Config.Constants -> Locator) :=
  let STANDARD_LISTS c := Config.STANDARD_LISTS (Config.NAVIGATION c) in
  [ fun _ => standardListsMenu this;
    fun c => first (locator ("text=" ++ q (STANDARD_LISTS c)));
    fun c => first (locator ("menu " ++ has_text "menuitem" (STANDARD_LISTS c) ++ ", [role="
                             ++ q "menu" ++ "] " ++ has_text role_menuitem (STANDARD_LISTS c)));
    fun c => first (locator (":text(" ++ q (STANDARD_LISTS c) ++ ")"));
    fun c => first (locator (has_text "li" (STANDARD_LISTS c))) ].

(** [await this.page.screenshot({ path: `./test-results/${name}-${Date.now()}.png` })] *)
Definition debug_screenshot (name : string) : M W unit :=
  now <- Date_now ;;
  perform (page_screenshot ("./test-results/" ++ name ++ "-" ++ of_number now ++ ".png") None).

(** One pass through the body of the strategy loop of
    [navigateToStandardLists]; the value is the new [success]. *)
Definition try_standard_strategy (this : t) (currentUrl : string)
    (strategy : Config.Constants -> Locator) (i : Z) : M W bool :=
  TRY (console_log ("Trying Standard Lists menu click strategy " ++ of_number (i + 1)) ;;
       c <- get_constants ;;
       let locator := strategy c in
       isVisible <- catch_value (perform (locator_isVisible locator (Some 1000))) false ;;
       if isVisible then
         debug_screenshot "before-standard-lists-click" ;;
         safeClick locator None ;;
         c <- get_constants ;;
         perform (page_waitForLoadState "networkidle" (Some (Config.MEDIUM (Config.TIMEOUTS c)))) ;;
         perform (page_waitForTimeout 1000) ;;
         debug_screenshot "after-standard-lists-click" ;;
         euListVisible <-
           catch_value (perform (locator_isVisible (euListLink this) (Some 1000))) false ;;
         newUrl <- page_url ;;
         let urlChanged := negb (String.eqb newUrl currentUrl) in
         if (euListVisible || urlChanged)%bool then
           console_log ("Successfully clicked Standard Lists using strategy "
                        ++ of_number (i + 1)) ;;
           ret true
         else
           console_log ("Strategy " ++ of_number (i + 1)
                        ++ " clicked but EU List not visible and URL didn't change") ;;
           ret false
       else
         console_log ("Standard Lists menu not visible with strategy " ++ of_number (i + 1)) ;;
         ret false)
  CATCH err =>
    (console_log ("Strategy " ++ of_number (i + 1) ++ " failed: " ++ error_to_string err) ;;
     ret false).

Fixpoint standard_strategy_loop (this : t) (currentUrl : string)
    (remaining : list (Config.Constants -> Locator)) (i : Z) : M W bool :=
  match remaining with
  | [] => ret false
  | strategy :: rest =>
      success <- try_standard_strategy this currentUrl strategy i ;;
      if success then ret true else standard_strategy_loop this currentUrl rest (i + 1)
  end.

Definition navigateToStandardLists (this : t) : M W unit :=
  TRY (console_log "Navigating to Standard Lists" ;;
       currentUrl <- page_url ;;
       already <-
         (if (includes (toLowerCase currentUrl) "standard"
              && includes (toLowerCase currentUrl) "list")%bool then
            console_log "URL suggests we might already be on Standard Lists page" ;;
            euListVisible <-
              catch_value (perform (locator_isVisible (euListLink this) (Some 1000))) false ;;
            if euListVisible then
              console_log "EU List already visible, we are already on Standard Lists page" ;;
              ret true
            else ret false
          else ret false) ;;
       if already then ret tt
       else
         console_log "Attempting to click Standard Lists menu using multiple strategies" ;;
         success <- standard_strategy_loop this currentUrl (standardSelectorStrategies this) 0 ;;
         (if negb success then throw (Error "All Standard Lists menu click strategies failed")
          else ret tt) ;;
         console_log "Successfully navigated to Standard Lists")
  CATCH error =>
    (console_error ("Failed to navigate to Standard Lists: " ++ error_to_string error) ;;
     throw (Error ("Failed to navigate to Standard Lists: " ++ error_to_string error))).

End Page.
End StandardListPage.

(** ** [pages/login/LoginPage.ts] *)

Module LoginPage.
Import Helpers.

(** The page loaded in place of the login page when the server cannot be
    reached. *)
Definition mock_login_html : string :=
  ("
          <html>
            <head><title>NetReveal Test Mode</title></head>
            <body>
              <h1>NetReveal - Test Mode</h1>
              <p>Running in mock mode - real server not available</p>
              <div id=" ++ dq ++ "login-form" ++ dq ++ ">
                <input id=" ++ dq ++ "forms-text-field-username" ++ dq ++ " placeholder=" ++ dq ++ "Username" ++ dq ++ " />
                <input id=" ++ dq ++ "forms-text-field-password" ++ dq ++ " type=" ++ dq ++ "password" ++ dq ++ " placeholder=" ++ dq ++ "Password" ++ dq ++ " />
                <button>Login</button>
              </div>
            </body>
          </html>
        ").

(** The dashboard fabricated by [login]: the text set by the handler of
    the inner [try] and the one set by the handler of the outer [try]
    (they differ in indentation only). *)
Definition mock_dashboard_html_inner : string :=
  ("
          <html>
            <head>
              <title>NetReveal Dashboard</title>
              <style>
                .menu-item {
                  display: block !important;
                  visibility: visible !important;
                  border: 2px solid blue;
                  margin: 10px;
                  padding: 10px;
                  background-color: #f0f0ff;
                }
              </style>
            </head>
            <body>
              <h1>NetReveal Mock Dashboard (All Elements Visible)</h1>
              <p>Test running in mock mode with all navigation elements visible</p>
              
              <!-- Menu structure with all elements immediately visible -->
              <div id=" ++ dq ++ "menu-trigger" ++ dq ++ " class=" ++ dq ++ "menu-item" ++ dq ++ ">Menu Button</div>
              <div id=" ++ dq ++ "home_watchlistmanagement" ++ dq ++ " class=" ++ dq ++ "menu-item" ++ dq ++ ">Watchlist Manager Menu</div>
              <div id=" ++ dq ++ "home_watchlistmanagement_home_watchlistmanagement_lists" ++ dq ++ " class=" ++ dq ++ "menu-item" ++ dq ++ ">Lists Menu</div>
              <div id=" ++ dq ++ "standard_lists" ++ dq ++ " class=" ++ dq ++ "menu-item" ++ dq ++ ">Standard Lists Menu</div>
              <div><a href=" ++ dq ++ "#" ++ dq ++ " id=" ++ dq ++ "eu_list_item" ++ dq ++ " class=" ++ dq ++ "menu-item" ++ dq ++ ">EU List Link</a></div>
              <div id=" ++ dq ++ "eu_name_container" ++ dq ++ " class=" ++ dq ++ "menu-item eu-name-container" ++ dq ++ ">eu_name Text</div>
            </body>
          </html>
        ").

Definition mock_dashboard_html_outer : string :=
  ("
        <html>
          <head>
            <title>NetReveal Dashboard</title>
            <style>
              .menu-item {
                display: block !important;
                visibility: visible !important;
                border: 2px solid blue;
                margin: 10px;
                padding: 10px;
                background-color: #f0f0ff;
              }
            </style>
          </head>
          <body>
            <h1>NetReveal Mock Dashboard (All Elements Visible)</h1>
            <p>Test running in mock mode with all navigation elements visible</p>
            
            <!-- Menu structure with all elements immediately visible -->
            <div id=" ++ dq ++ "menu-trigger" ++ dq ++ " class=" ++ dq ++ "menu-item" ++ dq ++ ">Menu Button</div>
            <div id=" ++ dq ++ "home_watchlistmanagement" ++ dq ++ " class=" ++ dq ++ "menu-item" ++ dq ++ ">Watchlist Manager Menu</div>
            <div id=" ++ dq ++ "home_watchlistmanagement_home_watchlistmanagement_lists" ++ dq ++ " class=" ++ dq ++ "menu-item" ++ dq ++ ">Lists Menu</div>
            <div id=" ++ dq ++ "standard_lists" ++ dq ++ " class=" ++ dq ++ "menu-item" ++ dq ++ ">Standard Lists Menu</div>
            <div><a href=" ++ dq ++ "#" ++ dq ++ " id=" ++ dq ++ "eu_list_item" ++ dq ++ " class=" ++ dq ++ "menu-item" ++ dq ++ ">EU List Link</a></div>
            <div id=" ++ dq ++ "eu_name_container" ++ dq ++ " class=" ++ dq ++ "menu-item eu-name-container" ++ dq ++ ">eu_name Text</div>
          </body>
        </html>
      ").

Section Page.
Context {W : Type} {E : Engine W}.

Record t := mk {
  usernameInput : Locator;
  passwordInput : Locator;
  loginButton : Locator;
  errorMessage : Locator;
  mcpSelector : option (McpSelectorFn W) }.

Definition getSelector (mcpSelector : option (McpSelectorFn W))
    (description fallbackSelector : string) : M W string :=
  let fallback :=
    console_log ("Using fallback selector for " ++ q description ++ ": " ++ fallbackSelector) ;;
    ret fallbackSelector in
  match mcpSelector with
  | Some mcp =>
      r <- (TRY (mcpGeneratedSelector <- mcp description ;;
                 console_log ("Using MCP selector for " ++ q description ++ ": "
                              ++ mcpGeneratedSelector) ;;
                 ret (Some mcpGeneratedSelector))
            CATCH error =>
              (console_warn ("Error using MCP selector for " ++ q description ++ ": "
                             ++ error_to_string error) ;;
               ret None)) ;;
      match r with
      | Some selector => ret selector
      | None => fallback
      end
  | None => fallback
  end.

(** The constructor. *)
Definition new (mcpSelectorFn : option (McpSelectorFn W)) : M W t :=
  let sel := getSelector mcpSelectorFn in
  s1 <- sel "username field" (xpath_id "forms-text-field-username") ;;
  s2 <- sel "password field" (xpath_id "forms-text-field-password") ;;
  s3 <- sel "login button" (has_text "button" "Login") ;;
  s4 <- sel "error message" (".error-message, .alert-error, " ++ has_text "text" "failed") ;;
  console_log "LoginPage initialized with selectors:" ;;
  l1 <- sel "username field" (xpath_id "forms-text-field-username") ;;
  console_log ("- Username: " ++ l1) ;;
  l2 <- sel "password field" (xpath_id "forms-text-field-password") ;;
  console_log ("- Password: " ++ l2) ;;
  l3 <- sel "login button" (has_text "button" "Login") ;;
  console_log ("- Login button: " ++ l3) ;;
  ret {| usernameInput := locator s1;
         passwordInput := locator s2;
         loginButton := first (locator s3);
         errorMessage := locator s4;
         mcpSelector := mcpSelectorFn |}.

(** [`${text}`] for the result of [textContent], which may be [null]. *)
Definition of_text (text : option string) : string :=
  match text with Some s => s | None => "null" end.

(** [for (const button of buttons) console.log(..., await button.textContent())] *)
Fixpoint log_button_texts (buttons : list Locator) : M W unit :=
  match buttons with
  | [] => ret tt
  | button :: rest =>
      text <- perform (locator_textContent button) ;;
      console_log ("Button text: " ++ of_text text) ;;
      log_button_texts rest
  end.

Definition navigateToLoginPage (this : t) (url : string) : M W unit :=
  TRY (console_log ("Navigating to login page: " ++ url) ;;
       (TRY (perform (page_goto url 30000 (Some "networkidle")) ;;
             console_log "Successfully navigated to URL")
        CATCH navigationError =>
          (console_error ("Navigation failed: " ++ error_to_string navigationError) ;;
           isConnected <- (TRY (b <- perform page_evaluate_onLine ;; ret (of_bool b))
                           CATCH e => ret "unknown") ;;
           console_error ("Browser online status: " ++ isConnected) ;;
           console_warn "⚠️ WARNING: Server connection failed. Proceeding with test in mock mode." ;;
           console_warn "Loading a blank page for test continuation purposes" ;;
           perform (page_setContent mock_login_html) ;;
           console_log "Mock page loaded as fallback")) ;;
       maximizeWindow ;;
       title <- perform page_title ;;
       console_log ("Page title: " ++ title) ;;
       inputs <- perform (locator_count (locator "input")) ;;
       console_log ("Found " ++ of_number (Z.of_nat inputs) ++ " input elements") ;;
       buttons <- perform (locator_all (locator "button")) ;;
       log_button_texts (map (nth (locator "button")) (seq 0 buttons)) ;;
       console_log "Checking for username input field visibility..." ;;
       usernameExists <-
         (TRY perform (locator_isVisible (usernameInput this) (Some 10000))
          CATCH e =>
            (console_warn ("Error checking username visibility: " ++ error_to_string e) ;;
             ret false)) ;;
       if usernameExists then
         console_log "Login page loaded successfully - username field found"
       else
         console_warn "⚠️ Username field not visible after navigation. This may cause subsequent steps to fail." ;;
         current <- page_url ;;
         console_log ("Current URL after navigation: " ++ current) ;;
         console_log "Taking debug screenshot of current page state" ;;
         now <- Date_now ;;
         perform (page_screenshot ("./test-results/login-page-error-" ++ of_number now ++ ".png")
                                  None))
  CATCH error =>
    (console_error ("Failed to navigate to login page: " ++ error_to_string error) ;;
     (TRY (now <- Date_now ;;
           perform (page_screenshot ("./test-results/login-error-" ++ of_number now ++ ".png")
                                    None) ;;
           console_log "Captured error screenshot")
      CATCH screenshotError =>
        console_error ("Failed to capture error screenshot: "
                       ++ error_to_string screenshotError)) ;;
     throw (Error ("Failed to navigate to login page: " ++ error_to_string error))).

(** A parameter that defaults to an exported constant. *)
Definition default_to (get : Config.Constants -> string) (arg : option string) : M W string :=
  match arg with
  | Some v => ret v
  | None => c <- get_constants ;; ret (get c)
  end.

Definition enterUsername (this : t) (username : option string) : M W unit :=
  username <- default_to Config.USERNAME username ;;
  TRY (perform (locator_clear (usernameInput this)) ;;
       perform (locator_fill (usernameInput this) username) ;;
       console_log ("Username '" ++ username ++ "' entered"))
  CATCH error =>
    (console_error ("Failed to enter username: " ++ error_to_string error) ;;
     throw (Error ("Failed to enter username: " ++ error_to_string error))).

Definition enterPassword (this : t) (password : option string) : M W unit :=
  password <- default_to Config.PASSWORD password ;;
  TRY (perform (locator_clear (passwordInput this)) ;;
       perform (locator_fill (passwordInput this) password) ;;
       console_log "Password entered")
  CATCH error =>
    (console_error ("Failed to enter password: " ++ error_to_string error) ;;
     throw (Error ("Failed to enter password: " ++ error_to_string error))).

Definition clickLogin (this : t) : M W unit :=
  TRY (safeClick (loginButton this) None ;;
       console_log "Login button clicked")
  CATCH error =>
    (console_error ("Failed to click login button: " ++ error_to_string error) ;;
     throw (Error ("Failed to click login button: " ++ error_to_string error))).

Definition login (this : t) (username password : option string) : M W unit :=
  username <- default_to Config.USERNAME username ;;
  password <- default_to Config.PASSWORD password ;;
  TRY (enterUsername this (Some username) ;;
       enterPassword this (Some password) ;;
       clickLogin this ;;
       (TRY ((TRY perform (page_waitForLoadState "networkidle" (Some 30000))
              CATCH e => console_log "Navigation timeout after login, but continuing...") ;;
             errorVisible <-
               catch_value (perform (locator_isVisible (errorMessage this) None)) false ;;
             if errorVisible then
               errorText <- perform (locator_textContent (errorMessage this)) ;;
               throw (Error ("Login failed: " ++ of_text errorText))
             else ret tt)
        CATCH loginError =>
          (console_warn "Login navigation failed, setting up mock dashboard" ;;
           perform (page_setContent mock_dashboard_html_inner) ;;
           console_log "Mock dashboard loaded for test continuation")) ;;
       console_log "Login successful")
  CATCH error =>
    (console_error ("Login failed: " ++ error_to_string error) ;;
     console_warn "Continuing with test in mock mode despite login failure" ;;
     perform (page_setContent mock_dashboard_html_outer) ;;
     console_log "Mock dashboard loaded for test continuation despite login failure").

(** ** The check of the login state *)

(** The loop [for (const selector of selectors)] of [isLoggedIn], which
    stops at the first selector that matches an element; the value is the
    new flag. *)
Fixpoint first_present (found : string) (selectors : list string) : M W bool :=
  match selectors with
  | [] => ret false
  | selector :: rest =>
      count <- perform (locator_count (locator selector)) ;;
      if Nat.ltb 0 count then
        console_log (found ++ selector) ;; ret true
      else first_present found rest
  end.

(** One indicator of [isLoggedIn]: the selector of the injected function
    first, if there is one, then the fixed selectors. *)
Definition indicator (mcpSelector : option (McpSelectorFn W))
    (description what : string) (selectors : list string) : M W bool :=
  has <-
    match mcpSelector with
    | Some mcp =>
        mcpGenerated <- mcp description ;;
        TRY (count <- perform (locator_count (locator mcpGenerated)) ;;
             if Nat.ltb 0 count then
               console_log ("Found " ++ what ++ " with MCP selector: " ++ mcpGenerated) ;;
               ret true
             else ret false)
        CATCH error =>
          (console_warn ("Error with MCP selector for " ++ what ++ ": "
                         ++ error_to_string error) ;;
           ret false)
    | None => ret false
    end ;;
  if negb has then first_present ("Found " ++ what ++ " with selector: ") selectors
  else ret true.

Definition watchlistManagerSelectors : list string :=
  [ has_text "menuitem" "Watchlist Manager";
    has_text "li" "Watchlist Manager";
    has_text "a" "Watchlist Manager";
    "text=" ++ q "Watchlist Manager" ].

Definition menuButtonSelectors : list string :=
  [ has_text "button" "Menu";
    has_text "a" "Menu";
    has_text ("[role=" ++ q "button" ++ "]") "Menu";
    "text=" ++ q "Menu" ].

Definition navigationSelectors : list string :=
  [ has_text "region" "Main navigation";
    "[role=" ++ q "navigation" ++ "]";
    "nav";
    "menu" ].

Definition mockElements : list string :=
  [ "#menu-trigger";
    "#home_watchlistmanagement";
    ".menu-item";
    has_text "h1" "NetReveal Mock Dashboard";
    has_text "h1" "Test Mode";
    "#eu_list_item";
    "#eu_name_container" ].

Definition isLoggedIn (this : t) : M W bool :=
  TRY (console_log "Checking if user is logged in..." ;;
       hasWatchlistMenu <-
         indicator (mcpSelector this) "watchlist manager menu" "Watchlist Manager"
           watchlistManagerSelectors ;;
       hasMenuButton <-
         indicator (mcpSelector this) "menu button" "Menu button" menuButtonSelectors ;;
       hasMainNavigation <-
         indicator (mcpSelector this) "main navigation" "navigation" navigationSelectors ;;
       title <- perform page_title ;;
       let isMockMode := (includes title "Mock" || includes title "Test Mode")%bool in
       isMockDashboard <-
         (if isMockMode then
            console_log "Detected mock mode, using additional mock-specific element checks" ;;
            first_present "Found mock dashboard element: " mockElements
          else ret false) ;;
       let isLoggedIn :=
         (hasWatchlistMenu || hasMenuButton || hasMainNavigation || isMockDashboard)%bool in
       console_log ("Login indicators found: "
                    ++ inspect_flags [ ("hasWatchlistMenu", hasWatchlistMenu);
                                       ("hasMenuButton", hasMenuButton);
                                       ("hasMainNavigation", hasMainNavigation);
                                       ("isMockDashboard", isMockDashboard);
                                       ("isMockMode", isMockMode) ]) ;;
       console_log ("Is user logged in: " ++ of_bool isLoggedIn) ;;
       if isMockMode then
         console_log "Running in mock mode, forcing logged in state to true for test continuity" ;;
         ret true
       else ret isLoggedIn)
  CATCH error =>
    (console_error ("Failed to check login status: " ++ error_to_string error) ;;
     ret false).

End Page.
End LoginPage.

(** ** [tests/ui/WLM/Synonyms/WLMAgencyList.spec.ts]: the MCP helpers *)

Module AgencyListSpec.
Import Helpers.
Section Spec.
Context {W : Type} {E : Engine W}.

(** [test.step(title, body)] of the test runner: runs [body] and settles
    as it does. *)
Definition test_step {A} (title : string) (body : M W A) : M W A := body.

Definition set_mcpConnected (b : bool) : M W unit :=
  set_process (fun p => {| constants := constants p;
                           mcpConnected := b;
                           lastSnapshot := lastSnapshot p |}).

Definition set_lastSnapshot (v : option Snapshot) : M W unit :=
  set_process (fun p => {| constants := constants p;
                           mcpConnected := mcpConnected p;
                           lastSnapshot := v |}).

Definition useMcpSnapshot : M W (option Snapshot) :=
  TRY (console_log "Capturing page snapshot with Playwright MCP..." ;;
       snapshotResult <-
         test_step "MCP Snapshot"
           (TRY (result <- perform page_evaluate_pageInfo ;; ret (Some result))
            CATCH error =>
              (console_error ("Error during MCP snapshot: " ++ error_to_string error) ;;
               ret None)) ;;
       match snapshotResult with
       | Some snapshot =>
           console_log ("MCP snapshot captured successfully for: " ++ snap_title snapshot) ;;
           console_log ("Elements analyzed: " ++ of_number (elementsCount snapshot))
       | None => console_warn "MCP snapshot returned no data"
       end ;;
       ret snapshotResult)
  CATCH error =>
    (console_error ("MCP snapshot failed: " ++ error_to_string error) ;;
     ret None).

Definition analysis_screenshot (prefix : string) : M W unit :=
  now <- Date_now ;;
  perform (page_screenshot ("./test-results/" ++ prefix ++ of_number now ++ ".png") None).

(** The handler of the [try] inside the step. *)
Definition snapshot_failed (snapshotError : JsError) : M W unit :=
  console_error ("Failed to capture MCP snapshot: " ++ error_to_string snapshotError) ;;
  analysis_screenshot "page-analysis-fallback-".

(** [analyzePage].  The three outcomes of its first block are: the block
    is skipped or completes ([None]), or it returns from the function
    ([Some v]).  The local variable [snapshotResult] is assigned by the
    first statement of the inner [try]; the value the function returns is
    the one it holds when the step has settled. *)
Definition analyzePage (stepDescription : option string) : M W (option Snapshot) :=
  let stepDescription :=
    match stepDescription with Some d => d | None => "page structure" end in
  TRY (console_log ("Analyzing " ++ stepDescription ++ " using Playwright MCP Server...") ;;
       p <- get_process ;;
       returned <-
         (if negb (mcpConnected p) then
            console_log "MCP Server not connected. Attempting to connect..." ;;
            TRY (set_mcpConnected true ;;
                 console_log "Successfully connected to Playwright MCP Server" ;;
                 ret None)
            CATCH connectionError =>
              (console_error ("Failed to connect to MCP Server: "
                              ++ error_to_string connectionError) ;;
               set_mcpConnected false ;;
               ret (Some None))
          else ret None) ;;
       match returned with
       | Some v => ret v
       | None =>
           p <- get_process ;;
           if negb (mcpConnected p) then
             console_log "MCP Server connection failed. Falling back to basic page analysis." ;;
             perform page_evaluate_logInfo ;;
             analysis_screenshot "page-analysis-" ;;
             ret None
           else
             test_step ("Analyzing " ++ stepDescription ++ " with MCP")
               (captured <- (TRY (r <- useMcpSnapshot ;; ret (inl r))
                             CATCH snapshotError => ret (inr snapshotError)) ;;
                match captured with
                | inr snapshotError => snapshot_failed snapshotError ;; ret None
                | inl snapshotResult =>
                    (TRY (set_lastSnapshot snapshotResult ;;
                          title <- perform page_title ;;
                          console_log ("MCP snapshot captured for: " ++ title) ;;
                          url <- page_url ;;
                          console_log ("Current URL: " ++ url) ;;
                          console_log ("Snapshot elements captured: "
                                       ++ match snapshotResult with
                                          | Some _ => "Yes" | None => "No" end) ;;
                          analysis_screenshot "page-analysis-" ;;
                          console_log (stepDescription ++ " analysis completed"))
                     CATCH snapshotError => snapshot_failed snapshotError) ;;
                    ret snapshotResult
                end)
       end)
  CATCH error =>
    (console_error ("Failed to analyze page: " ++ error_to_string error) ;;
     ret None).

(** The object [selectorMap] of [getMcpSelector], as the list of its own
    properties. *)
Definition selectorMap : list (string * string) :=
  [ ("username field", "#forms-text-field-username");
    ("password field", "#forms-text-field-password");
    ("login button", has_text "button" "Login");
    ("main menu", "#menu-trigger");
    ("watchlist manager menu", "#home_watchlistmanagement");
    ("synonyms menu", "#home_watchlistmanagement_menu-item_synonyms_path");
    ("synonyms rules manager menu",
     "#home_watchlistmanagement_menu-item_synonyms_path_menu-item_synonym_rules_manager_path");
    ("weighted words rule set", has_text "a" "Weighted words rule set");
    ("agency rule", has_text "a" "agency rule") ].

Fixpoint lookup (key : string) (m : list (string * string)) : option string :=
  match m with
  | [] => None
  | (k, v) :: rest => if String.eqb k key then Some v else lookup key rest
  end.

(** [x && x.toLowerCase().includes(normalized)] for an optional string
    (absent and empty are falsy). *)
Definition field_matches (x : option string) (normalized : string) : bool :=
  match x with
  | Some s => (negb (String.eqb s EmptyString) && includes (toLowerCase s) normalized)%bool
  | None => false
  end.

Definition element_matches (normalized : string) (element : Element) : bool :=
  (field_matches (textContent element) normalized
   || field_matches (id element) normalized
   || field_matches (ariaLabel element) normalized
   || field_matches (role element) normalized
   || existsb (fun attr => includes (toLowerCase (snd attr)) normalized)
              (attributes element))%bool.

Definition truthy (x : option string) : option string :=
  match x with
  | Some s => if String.eqb s EmptyString then None else Some s
  | None => None
  end.

(** [s.split(' ')[0]] *)
Fixpoint first_word (s : string) : string :=
  match s with
  | EmptyString => EmptyString
  | String c s' => if Ascii.eqb c " " then EmptyString else String c (first_word s')
  end.

(** The selector generated for the first matching element, if one of the
    four forms applies. *)
Definition generated_selector (element : Element) : M W (option string) :=
  match truthy (id element) with
  | Some i => console_log ("Generated ID selector: #" ++ i) ;; ret (Some ("#" ++ i))
  | None =>
      match truthy (role element), truthy (textContent element) with
      | Some r, Some txt =>
          let s := has_text ("[role=" ++ q r ++ "]") txt in
          console_log ("Generated role+text selector: " ++ s) ;; ret (Some s)
      | _, _ =>
          match truthy (Some (tagName element)), truthy (textContent element) with
          | Some tag, Some txt =>
              let s := has_text tag txt in
              console_log ("Generated tag+text selector: " ++ s) ;; ret (Some s)
          | _, _ =>
              match truthy (className element) with
              | Some cls =>
                  let className := first_word cls in
                  console_log ("Generated class selector: ." ++ className) ;;
                  ret (Some ("." ++ className))
              | None => ret None
              end
          end
      end
  end.

Definition getMcpSelector (elementDescription : string) : M W string :=
  p <- get_process ;;
  generated <-
    match lastSnapshot p with
    | Some snapshot =>
        TRY (let normalized := trim (toLowerCase elementDescription) in
             console_log ("Looking for robust selector for: " ++ q normalized) ;;
             let matchingElements :=
               filter (element_matches normalized) (accessibilityTree snapshot) in
             match matchingElements with
             | element :: _ => generated_selector element
             | [] => ret None
             end)
        CATCH error =>
          (console_error ("Error generating selector from snapshot: "
                          ++ error_to_string error) ;;
           ret None)
    | None => ret None
    end ;;
  match generated with
  | Some selector => ret selector
  | None =>
      let selector :=
        match lookup (toLowerCase elementDescription) selectorMap with
        | Some s => s
        | None => "text=" ++ q elementDescription
        end in
      console_log ("Using fallback selector: " ++ selector) ;;
      ret selector
  end.

(** ** The element reference and the clean-up hook *)

(** [generateMcpElementRef], a pure function. *)
Definition generateMcpElementRef (element : string) : string :=
  "element-ref-" ++ replace_spaces (toLowerCase element).

(** The hook [test.afterEach]. *)
Definition afterEach : M W unit :=
  console_log "Test cleanup started" ;;
  (TRY (logoutButtonSelector <- getMcpSelector "logout button" ;;
        console_log ("Using selector for logout button: " ++ logoutButtonSelector) ;;
        let logoutButton := locator logoutButtonSelector in
        isLogoutVisible <- catch_value (perform (locator_isVisible logoutButton None)) false ;;
        if isLogoutVisible then
          perform (locator_click logoutButton None None) ;;
          console_log "Logged out successfully"
        else ret tt)
   CATCH error => console_warn ("Logout attempt failed: " ++ error_to_string error)) ;;
  console_log "Test cleanup completed".

End Spec.
End AgencyListSpec.

(** ** A simulated browser

    A small deterministic engine used to run the code on concrete
    scenarios.  A scenario fixes what the server serves (if it can be
    reached), which locators resolve in which document at which time, and
    which calls are broken.  It is a stand-in for the real engine, not a
    model of it. *)

Module Sim.

Record World := mkWorld {
  doc : string;                               (* the document of the page *)
  location : string;                          (* what page.url() returns *)
  clock : Z;                                  (* milliseconds *)
  site : option string;                       (* served document; None: unreachable *)
  dom : Z -> string -> Locator -> bool;       (* time, document, locator: resolves? *)
  broken : Action -> bool }.                  (* calls that reject outright *)

Definition drop (n : nat) (s : string) : string :=
  String.substring n (String.length s - n) s.

Fixpoint after (p s : string) : option string :=
  if String.prefix p s then Some (drop (String.length p) s)
  else match s with
       | EmptyString => None
       | String _ s' => after p s'
       end.

Fixpoint before (p s : string) : string :=
  if String.prefix p s then EmptyString
  else match s with
       | EmptyString => EmptyString
       | String c s' => String c (before p s')
       end.

(** The text of the title element of a document. *)
Definition html_title (html : string) : string :=
  match after "<title>" html with
  | Some rest => before "</title>" rest
  | None => EmptyString
  end.

Definition TimeoutError (ms : Z) : JsError :=
  mkError "TimeoutError" ("Timeout " ++ of_number ms ++ "ms exceeded.").

Definition tick (ms : Z) (w : World) : World :=
  {| doc := doc w; location := location w; clock := clock w + ms;
     site := site w; dom := dom w; broken := broken w |}.

Definition load (html url : string) (w : World) : World :=
  {| doc := html; location := url; clock := clock w;
     site := site w; dom := dom w; broken := broken w |}.

Definition resolves (w : World) (l : Locator) : bool := dom w (clock w) (doc w) l.

(** A call that needs its element: fulfils at once when the locator
    resolves, and otherwise times out. *)
Definition needs {A} (w : World) (l : Locator) (timeout : Z) (v : A) : Res A * World :=
  if resolves w l then (Ok v, tick 1 w) else (Throw (TimeoutError timeout), tick timeout w).

Definition or_default (timeout : option Z) : Z :=
  match timeout with Some t => t | None => 30000 end.

Definition settle (a : Action) (w : World) : Res (answer a) * World :=
  match a as a' return Res (answer a') * World with
  | page_goto url timeout _ =>
      match site w with
      | Some html => (Ok tt, tick 1 (load html url w))
      | None => (Throw (Error ("page.goto: net::ERR_CONNECTION_REFUSED at " ++ url)), tick 1 w)
      end
  | page_setContent html => (Ok tt, tick 1 (load html (location w) w))
  | page_setViewportSize _ _ => (Ok tt, tick 1 w)
  | page_title => (Ok (html_title (doc w)), tick 1 w)
  | page_content => (Ok (doc w), tick 1 w)
  | page_screenshot _ _ => (Ok tt, tick 1 w)
  | page_waitForLoadState _ _ => (Ok tt, tick 1 w)
  | page_waitForTimeout ms => (Ok tt, tick ms w)
  | page_evaluate_onLine => (Ok true, tick 1 w)
  | page_evaluate_pageInfo =>
      (Ok (mkSnapshot (html_title (doc w)) (location w) 0 []), tick 1 w)
  | page_evaluate_logInfo => (Ok tt, tick 1 w)
  | locator_count l => (Ok (if resolves w l then 1%nat else 0%nat), tick 1 w)
  | locator_all l => (Ok (if resolves w l then 1%nat else 0%nat), tick 1 w)
  | locator_isVisible l _ => (Ok (resolves w l), tick 1 w)
  | locator_waitFor l _ timeout => needs w l timeout tt
  | locator_click l _ timeout => needs w l (or_default timeout) tt
  | locator_clear l => needs w l 30000 tt
  | locator_fill l _ => needs w l 30000 tt
  | locator_textContent l => needs w l 30000 (Some "Invalid user name or password")
  | expect_toBeVisible l timeout => needs w l timeout tt
  end.

#[global] Instance engine : Engine World :=
  {| engine_do := fun a w =>
       if broken w a then (Throw (Error "Target page, context or browser has been closed"), w)
       else settle a w;
     engine_url := location;
     engine_now := clock;
     engine_elapse := tick |}.

(** A blank page at time 0 in a scenario. *)
Definition blank (site : option string) (dom : Z -> string -> Locator -> bool)
    (broken : Action -> bool) : St World :=
  mkSt (mkWorld EmptyString "about:blank" 0 site dom broken) initial_process.

Definition nothing_broken (a : Action) : bool := false.
Definition no_elements (t : Z) (html : string) (l : Locator) : bool := false.

End Sim.

(** ** What a trace shows *)

(** The outline of the loop of [retry]: its attempts, with the rejection
    of each failed one, and the timers it awaited, in order. *)
Inductive Step :=
| Attempt (rejected : option JsError)
| Wait (ms : Z).

Fixpoint skeleton (tr : list Event) : list Step :=
  match tr with
  | [] => []
  | Invoke r _ :: rest => Attempt r :: skeleton rest
  | Timer ms :: rest => Wait ms :: skeleton rest
  | _ :: rest => skeleton rest
  end.

(** How the attempts of a run settled. *)
Fixpoint outcomes (tr : list Event) : list (option JsError) :=
  match tr with
  | [] => []
  | Invoke r _ :: rest => r :: outcomes rest
  | _ :: rest => outcomes rest
  end.

(** A failed attempt followed by the wait before the next one. *)
Definition failed_round (delayMs : Z) (e : JsError) : list Step :=
  [Attempt (Some e); Wait delayMs].

(** The outline of a run in which every attempt failed: a wait follows
    each failed attempt but the last. *)
Fixpoint failed_rounds (delayMs : Z) (errs : list JsError) : list Step :=
  match errs with
  | [] => []
  | [e] => [Attempt (Some e)]
  | e :: rest => Attempt (Some e) :: Wait delayMs :: failed_rounds delayMs rest
  end.

Definition is_rejected (r : option JsError) : Prop := r <> None.

(** The messages written with [console.log] by the run itself (not by the
    callbacks it invoked). *)
Fixpoint log_lines (tr : list Event) : list string :=
  match tr with
  | [] => []
  | Console LOG msg :: rest => msg :: log_lines rest
  | _ :: rest => log_lines rest
  end.

(** All events of a run, those of invoked callbacks included. *)
Fixpoint flatten_event (ev : Event) : list Event :=
  match ev with
  | Invoke r inner => Invoke r [] :: flat_map flatten_event inner
  | _ => [ev]
  end.

Definition flatten (tr : list Event) : list Event := flat_map flatten_event tr.

Definition is_click_on (l : Locator) (ev : Event) : bool :=
  match ev with
  | Did (locator_click l' _ _) r => (Locator_eqb l l' && is_ok r)%bool
  | _ => false
  end.

(** The number of clicks on [l] that went through. *)
Definition clicks_on (l : Locator) (tr : list Event) : nat :=
  List.length (filter (is_click_on l) (flatten tr)).

(** The results of the checks whether [l] is attached, in order. *)
Fixpoint attached_checks (l : Locator) (tr : list Event) : list bool :=
  match tr with
  | [] => []
  | Did (locator_waitFor l' state _) r :: rest =>
      if (Locator_eqb l l' && String.eqb state "attached")%bool
      then is_ok r :: attached_checks l rest
      else attached_checks l rest
  | _ :: rest => attached_checks l rest
  end.

(** ** The runs of [retry]

    The loop of [retry], as a relation between the state in which an
    iteration starts and what the rest of the loop produces.  It is the
    induction principle for every property of [retry] below. *)

Section RetryRuns.
Context {W : Type} {E : Engine W} {T : Type}.
Variable operation : M W T.
Variables maxRetries delayMs : Z.

Definition retry_warning (attempt : Z) (error : JsError) : string :=
  "Retry attempt " ++ of_number attempt ++ "/" ++ of_number maxRetries
  ++ " failed: " ++ error_to_string error.

Definition retry_failure (lastError : option JsError) : JsError :=
  Error ("Operation failed after " ++ of_number maxRetries
         ++ " attempts. Last error: " ++ opt_error_to_string lastError).

(** The wait at the end of an iteration: none after the last attempt. *)
Definition round_wait (attempt : Z) : list Event :=
  if attempt <? maxRetries then [Timer delayMs] else [].

Definition after_round (attempt : Z) (s : St W) : St W :=
  if attempt <? maxRetries then mkSt (engine_elapse delayMs (world s)) (process s) else s.

Inductive retry_run : Z -> option JsError -> St W -> Out W T -> Prop :=
| run_exhausted attempt lastError s :
    maxRetries < attempt ->
    retry_run attempt lastError s (mkOut (Throw (retry_failure lastError)) s [])
| run_fulfilled attempt lastError s v :
    attempt <= maxRetries ->
    result (operation s) = Ok v ->
    retry_run attempt lastError s
      (mkOut (Ok v) (final (operation s)) [Invoke None (trace (operation s))])
| run_rejected attempt lastError s error o :
    attempt <= maxRetries ->
    result (operation s) = Throw error ->
    retry_run (attempt + 1) (Some error) (after_round attempt (final (operation s))) o ->
    retry_run attempt lastError s
      (mkOut (result o) (final o)
             (Invoke (Some error) (trace (operation s))
              :: Console WARN (retry_warning attempt error)
              :: round_wait attempt ++ trace o)).

(** A run that returns: [errs] are the rejections of the attempts before
    the one that fulfilled. *)
Definition returns_after (errs : list JsError) (attempt : Z) (o : Out W T) : Prop :=
  exists (v : T) (s' : St W) (pre : list Event),
    (List.length errs < Z.to_nat (maxRetries + 1 - attempt))%nat /\
    result o = Ok v /\
    skeleton (trace o) = (flat_map (failed_round delayMs) errs ++ [Attempt None])%list /\
    outcomes (trace o) = (map Some errs ++ [None])%list /\
    result (operation s') = Ok v /\
    final (operation s') = final o /\
    trace o = (pre ++ [Invoke None (trace (operation s'))])%list.

(** A run that throws: [errs] are the rejections of all the attempts. *)
Definition gives_up_after (errs : list JsError) (attempt : Z)
    (lastError : option JsError) (o : Out W T) : Prop :=
  List.length errs = Z.to_nat (maxRetries + 1 - attempt) /\
  result o = Throw (retry_failure (List.last (map Some errs) lastError)) /\
  skeleton (trace o) = failed_rounds delayMs errs /\
  outcomes (trace o) = map Some errs.

End RetryRuns.


(** ** What mock-mode detection looks at *)

Definition title_indicates_mock (title : string) : bool :=
  (includes title "Mock" || includes title "Test Mode")%bool.

Definition url_indicates_mock (url : string) : bool :=
  (includes url "mock=true" || startsWith url "data:" || includes url "about:blank")%bool.

(** The decision as the specification words it: the title and the URL
    only. *)
Definition mock_by_title_or_url (title url : string) : bool :=
  (title_indicates_mock title || url_indicates_mock url)%bool.

(** Whether one observation of a run indicates mock mode: a title or a URL
    with one of the marks, a positive count of elements, or a query that
    failed. *)
Definition indicates_mock (ev : Event) : bool :=
  match ev with
  | Did a r =>
      match a as a' return Res (answer a') -> bool with
      | page_title => fun r =>
          match r with Ok title => title_indicates_mock title | Throw _ => true end
      | locator_count _ => fun r =>
          match r with Ok n => Nat.ltb 0 n | Throw _ => true end
      | _ => fun r => negb (is_ok r)
      end r
  | Url url => url_indicates_mock url
  | _ => false
  end.

(** The calls a run made to the engine, in order. *)
Fixpoint calls (tr : list Event) : list Action :=
  match tr with
  | [] => []
  | Did a _ :: rest => a :: calls rest
  | _ :: rest => calls rest
  end.

(** The value [getSelector] returns: the selector of the injected
    function, called on [description'], unless there is no function or it
    throws. *)
Definition selector_of {W} (mcp : option (McpSelectorFn W)) (description' fallback : string)
    (s : St W) : string :=
  match mcp with
  | None => fallback
  | Some f =>
      match result (f description' s) with
      | Ok selector => selector
      | Throw _ => fallback
      end
  end.


(** ** Failure handling of an operation *)

(** Whatever [m] throws is a new error whose message is [prefix] followed
    by the text of a cause, and that message was written with
    [console.error]. *)
Definition rethrows_decorated {W A} (prefix : string) (m : M W A) : Prop :=
  forall s err,
    result (m s) = Throw err ->
    exists cause,
      err = Error (prefix ++ error_to_string cause) /\
      In (Console ERROR (prefix ++ error_to_string cause)) (trace (m s)).

(** When the call [a] the operation makes first is rejected, the
    operation logs the decorated message and throws it. *)
Definition decorates_failure_of {W} {E : Engine W} {A}
    (a : Config.Constants -> Action) (prefix : string) (m : M W A) : Prop :=
  forall s cause w',
    engine_do (a (constants (process s))) (world s) = (Throw cause, w') ->
    result (m s) = Throw (Error (prefix ++ error_to_string cause)) /\
    In (Console ERROR (prefix ++ error_to_string cause)) (trace (m s)).

Definition never_throws {W A} (m : M W A) : Prop :=
  forall s, exists v, result (m s) = Ok v.


(** ** The constants as an invariant *)

(** Running [m] leaves every exported constant as it was. *)
Definition keeps_constants {W A} (m : M W A) : Prop :=
  forall s, constants (process (final (m s))) = constants (process s).

(** The injected selector function, if any, leaves the constants alone. *)
Definition selector_fn_keeps {W} (mcp : option (McpSelectorFn W)) : Prop :=
  forall f, mcp = Some f -> forall description, keeps_constants (f description).

(** What C6 says, operation by operation.  A callback handed to an
    operation is code of the caller: the operation keeps the constants if
    the callback does. *)
Definition read_only_constants {W} {E : Engine W} : Prop :=
  (forall T (operation : M W T) maxRetries delayMs,
     keeps_constants operation ->
     keeps_constants (Helpers.retry operation maxRetries delayMs)) /\
  (forall url, keeps_constants (Helpers.navigateTo url)) /\
  keeps_constants Helpers.maximizeWindow /\
  (forall l t, keeps_constants (Helpers.waitForElement l t)) /\
  (forall testName screenshotName,
     keeps_constants (Helpers.takeScreenshot testName screenshotName)) /\
  (forall l t, keeps_constants (Helpers.elementExists l t)) /\
  (forall l options, keeps_constants (Helpers.safeClick l options)) /\
  (forall (mcp : option (McpSelectorFn W)) description fallback,
     selector_fn_keeps mcp ->
     keeps_constants (WatchlistManagerPage.getSelector mcp description fallback) /\
     keeps_constants (StandardListPage.getSelector mcp description fallback) /\
     keeps_constants (LoginPage.getSelector mcp description fallback)) /\
  (forall mcp : option (McpSelectorFn W),
     selector_fn_keeps mcp ->
     keeps_constants (WatchlistManagerPage.new mcp) /\
     keeps_constants (StandardListPage.new mcp) /\
     keeps_constants (LoginPage.new mcp)) /\
  keeps_constants WatchlistManagerPage.isRunningInMockMode /\
  (forall this, keeps_constants (WatchlistManagerPage.clickMainMenu this)) /\
  (forall this, keeps_constants (WatchlistManagerPage.navigateToSynonyms this)) /\
  (forall this, keeps_constants (WatchlistManagerPage.sortNameColumnIfNeeded this)) /\
  (forall this, keeps_constants (StandardListPage.navigateToLists this)) /\
  (forall this url, keeps_constants (LoginPage.navigateToLoginPage this url)) /\
  (forall this name, keeps_constants (LoginPage.enterUsername this name)) /\
  (forall this password, keeps_constants (LoginPage.enterPassword this password)) /\
  (forall this, keeps_constants (LoginPage.clickLogin this)) /\
  (forall this name password, keeps_constants (LoginPage.login this name password)) /\
  keeps_constants AgencyListSpec.useMcpSnapshot /\
  (forall stepDescription, keeps_constants (AgencyListSpec.analyzePage stepDescription)) /\
  (forall description, keeps_constants (AgencyListSpec.getMcpSelector (W := W) description)).


(** ** Two scenarios of the login flow *)

(** The server cannot be reached. *)
Definition server_down : St Sim.World := Sim.blank None Sim.no_elements Sim.nothing_broken.

(** The server answers with its login page, every element of which
    resolves, the error message included: the credentials are refused. *)
Definition real_login_page : string :=
  "<html><head><title>NetReveal Login</title></head><body>...</body></html>".

Definition on_real_login_page (t : Z) (html : string) (l : Locator) : bool :=
  String.eqb html real_login_page.

Definition credentials_refused : St Sim.World :=
  Sim.blank (Some real_login_page) on_real_login_page Sim.nothing_broken.

Definition open_login_page : M Sim.World LoginPage.t :=
  this <- LoginPage.new None ;;
  c <- get_constants ;;
  LoginPage.navigateToLoginPage this (Config.NETREVEAL_URL c) ;;
  ret this.

Definition open_and_login : M Sim.World unit :=
  this <- open_login_page ;;
  LoginPage.login this None None.


(** ** Sorting the Name column *)

(** What a run of [sortNameColumnIfNeeded] comes to, by the checks for
    the rule-set link it made: found at once, found after the first sort,
    or not found; or the run threw, a click or a wait having failed. *)
Definition sort_outcome {W} {E : Engine W} (this : WatchlistManagerPage.t) (s : St W) : Prop :=
  let o := WatchlistManagerPage.sortNameColumnIfNeeded this s in
  let clicks := clicks_on (WatchlistManagerPage.sortColumnHeading this) (trace o) in
  let checks := attached_checks (WatchlistManagerPage.weightedWordsRuleSetLink this) (trace o) in
  (checks = [true] /\ clicks = 0%nat /\ result o = Ok tt) \/
  (checks = [false; true] /\ clicks = 1%nat /\ result o = Ok tt) \/
  (checks = [false; false] /\ clicks = 2%nat /\ result o = Ok tt) \/
  ((clicks <= 2)%nat /\
   exists cause, result o = Throw (Error ("Failed to sort Name column: "
                                          ++ error_to_string cause))).


(** ** The strategies of [navigateToLists] *)

Definition trying_msg (i : Z) : string :=
  "Trying Lists menu click strategy " ++ of_number i.

Definition success_msg (i : Z) : string :=
  "Successfully clicked Lists using strategy " ++ of_number i.

(** The strategies a run announced, and those it reported as successful,
    in order. *)
Definition attempted (tr : list Event) : list string :=
  filter (fun msg => startsWith msg "Trying Lists menu click strategy ") (log_lines tr).

Definition confirmed (tr : list Event) : list string :=
  filter (fun msg => startsWith msg "Successfully clicked Lists using strategy ")
         (log_lines tr).

(** The numbers [i+1 .. i+k]. *)
Definition strategies_from (i : Z) (k : nat) : list Z :=
  map (fun j => i + Z.of_nat j) (seq 1 k).

(** The error with which [navigateToLists] reports that no strategy
    worked. *)
Definition all_strategies_failed : JsError :=
  Error "Failed to navigate to Lists: Error: All Lists menu click strategies failed".

(** The check that confirms a click on the Lists menu. *)
Definition confirmation {W} (this : @StandardListPage.t W) : Event :=
  Did (locator_isVisible (StandardListPage.standardListsMenu this) (Some 1000)) (Ok true).

(** The error with which [navigateToLists] reports that the Watchlist
    Manager menu could not be expanded: the failure of [retry], wrapped. *)
Definition expansion_failed_error (lastError : option JsError) : JsError :=
  Error ("Failed to navigate to Lists: " ++ error_to_string (retry_failure 3 lastError)).

(** The line a run writes when it returns early. *)
Definition early_return : Event :=
  Console LOG "Already on Lists page, skipping navigation".

(** What a run of [navigateToLists] comes to: it tried the strategies
    [1..k] in this order; either none was confirmed, or the last one tried
    was, on the Standard Lists menu having become visible, and the run
    returned; it throws the error above exactly when it tried all five
    and none was confirmed; with none confirmed it tried all five or
    none; and it tried none only when it returned early or could not
    expand the Watchlist Manager menu. *)
Definition lists_navigation {W} {E : Engine W} (this : StandardListPage.t) (s : St W) : Prop :=
  let o := StandardListPage.navigateToLists this s in
  exists k : nat,
    (k <= 5)%nat /\
    attempted (trace o) = map trying_msg (strategies_from 0 k) /\
    (confirmed (trace o) = [] \/
     ((1 <= k)%nat /\
      confirmed (trace o) = [success_msg (Z.of_nat k)] /\
      In (confirmation this) (trace o) /\
      result o = Ok tt)) /\
    (result o = Throw all_strategies_failed <-> (k = 5%nat /\ confirmed (trace o) = [])) /\
    (confirmed (trace o) = [] -> k = 0%nat \/ k = 5%nat) /\
    (k = 0%nat ->
     (result o = Ok tt /\ In early_return (trace o)) \/
     exists lastError, result o = Throw (expansion_failed_error lastError)).

(** A page whose title and URL carry no mark of mock mode, seen twice: as
    it is, and with an element that carries the mock indicator. *)
Definition plain_document : string := "<html><head><title>NetReveal</title></head></html>".

Definition page_with (dom : Z -> string -> Locator -> bool) : St Sim.World :=
  mkSt (Sim.mkWorld plain_document "https://example.org/app" 0 None dom Sim.nothing_broken)
       initial_process.

Definition plain_page : St Sim.World := page_with Sim.no_elements.

Definition marked_page : St Sim.World :=
  page_with (fun _ _ l => Locator_eqb l WatchlistManagerPage.mock_indicator).

(** A page of the application whose URL already names the lists, and on
    which every locator resolves. *)
Definition on_lists_page : St Sim.World :=
  mkSt (Sim.mkWorld plain_document "https://10.222.2.239:8443/netreveal/lists.do" 0 None
                    (fun _ _ _ => true) Sim.nothing_broken)
       initial_process.

Definition open_lists : M Sim.World unit :=
  this <- StandardListPage.new None ;;
  StandardListPage.navigateToLists this.

(** What C1 says of one call of [retry]: at most [N] invocations; and
    either the call returns the value of the invocation that fulfilled,
    which is the last thing it did, every earlier invocation having been
    rejected and followed by one wait of [d] ms; or it throws after [N]
    rejected invocations with one wait of [d] ms between consecutive ones. *)
Definition linear_retry {W} {E : Engine W} {T} (operation : M W T) (N d : Z) (s : St W) : Prop :=
  let o := Helpers.retry operation (Some N) (Some d) s in
  (List.length (outcomes (trace o)) <= Z.to_nat N)%nat /\
  exists errs : list JsError,
    (exists (v : T) (s' : St W) (pre : list Event),
        (List.length errs < Z.to_nat N)%nat /\
        result o = Ok v /\
        skeleton (trace o) = (flat_map (failed_round d) errs ++ [Attempt None])%list /\
        result (operation s') = Ok v /\
        final (operation s') = final o /\
        trace o = (pre ++ [Invoke None (trace (operation s'))])%list)
    \/
    (List.length errs = Z.to_nat N /\
     (exists err, result o = Throw err) /\
     skeleton (trace o) = failed_rounds d errs).

(** A button that appears 10 ms after the page was opened; clicking it
    with a timeout of 5 ms, up to 3 times, 7 ms apart. *)
Definition late_button : Locator := locator "#late".

Definition appears_at_10 (t : Z) (html : string) (l : Locator) : bool :=
  (Locator_eqb l late_button && (10 <=? t))%bool.

Definition click_late_button : M Sim.World unit :=
  perform (locator_click late_button None (Some 5)).

(** What C2 says of one call of [retry]. *)
Definition retry_protocol {W} {E : Engine W} {T} (operation : M W T) (N d : Z) (s : St W) : Prop :=
  let o := Helpers.retry operation (Some N) (Some d) s in
  ((exists err, result o = Throw err) <->
   (List.length (outcomes (trace o)) = Z.to_nat N /\ Forall is_rejected (outcomes (trace o)))) /\
  (forall err, result o = Throw err ->
     exists e_last,
       List.last (outcomes (trace o)) None = Some e_last /\
       err = Error ("Operation failed after " ++ of_number N
                    ++ " attempts. Last error: " ++ error_to_string e_last)) /\
  (In None (outcomes (trace o)) -> exists v, result o = Ok v).

Definition screenshots_fail (a : Action) : bool :=
  match a with page_screenshot _ _ => true | _ => false end.

Definition broken_camera : St Sim.World := Sim.blank None Sim.no_elements screenshots_fail.

(** What C4 holds of: the operations whose handler logs and throws anew. *)
Definition log_and_rethrow {W} {E : Engine W} : Prop :=
  (forall url s err,
     result (Helpers.navigateTo url s) = Throw err <->
     exists cause w',
       engine_do (page_goto url (Config.LONG (Config.TIMEOUTS (constants (process s))))
                            (Some "domcontentloaded")) (world s) = (Throw cause, w') /\
       err = Error ("Failed to navigate to " ++ url ++ ": " ++ error_to_string cause) /\
       In (Console ERROR ("Navigation to " ++ url ++ " failed: " ++ error_to_string cause))
          (trace (Helpers.navigateTo url s))) /\
  decorates_failure_of (fun _ => page_setViewportSize 1920 1080)
    "Failed to maximize window: " Helpers.maximizeWindow /\
  (forall l t,
     decorates_failure_of
       (fun c => locator_waitFor l "visible"
                   (match t with Some t => t | None => Config.MEDIUM (Config.TIMEOUTS c) end))
       "Element wait timed out: " (Helpers.waitForElement l t)) /\
  (forall this,
     decorates_failure_of (fun _ => page_title)
       "Failed to click main menu button: " (WatchlistManagerPage.clickMainMenu this)) /\
  (forall this name,
     decorates_failure_of (fun _ => locator_clear (LoginPage.usernameInput this))
       "Failed to enter username: " (LoginPage.enterUsername this name)) /\
  (forall this password,
     decorates_failure_of (fun _ => locator_clear (LoginPage.passwordInput this))
       "Failed to enter password: " (LoginPage.enterPassword this password)) /\
  rethrows_decorated "Failed to maximize window: " Helpers.maximizeWindow /\
  (forall l t, rethrows_decorated "Element wait timed out: " (Helpers.waitForElement l t)) /\
  (forall this, rethrows_decorated "Failed to click main menu button: "
                  (WatchlistManagerPage.clickMainMenu this)) /\
  (forall this, rethrows_decorated "Failed to navigate to Synonyms: "
                  (WatchlistManagerPage.navigateToSynonyms this)) /\
  (forall this, rethrows_decorated "Failed to sort Name column: "
                  (WatchlistManagerPage.sortNameColumnIfNeeded this)) /\
  (forall this, rethrows_decorated "Failed to navigate to Lists: "
                  (StandardListPage.navigateToLists this)) /\
  (forall this name, rethrows_decorated "Failed to enter username: "
                       (LoginPage.enterUsername this name)) /\
  (forall this password, rethrows_decorated "Failed to enter password: "
                           (LoginPage.enterPassword this password)) /\
  (forall this, rethrows_decorated "Failed to click login button: "
                  (LoginPage.clickLogin this)) /\
  (forall this url, rethrows_decorated "Failed to navigate to login page: "
                      (LoginPage.navigateToLoginPage this url)) /\
  (forall testName screenshotName,
     never_throws (Helpers.takeScreenshot testName screenshotName)) /\
  (forall l t, never_throws (Helpers.elementExists l t)).

Definition viewport_fails (a : Action) : bool :=
  match a with page_setViewportSize _ _ => true | _ => false end.

(** * What the other operations come to *)

Unset Implicit Arguments.

(** ** More on [retry] *)

(** The messages written with [console.warn] by the run itself. *)
Fixpoint warn_lines (tr : list Event) : list string :=
  match tr with
  | [] => []
  | Console WARN msg :: rest => msg :: warn_lines rest
  | _ :: rest => warn_lines rest
  end.

(** The rejections of the attempts of a run, in order. *)
Fixpoint rejections (tr : list Event) : list JsError :=
  match tr with
  | [] => []
  | Invoke (Some e) _ :: rest => e :: rejections rest
  | _ :: rest => rejections rest
  end.

(** The warnings for the rejections [errs], numbered from [attempt]. *)
Fixpoint warnings_from (maxRetries attempt : Z) (errs : list JsError) : list string :=
  match errs with
  | [] => []
  | e :: rest =>
      retry_warning maxRetries attempt e :: warnings_from maxRetries (attempt + 1) rest
  end.

(** The failure of [retry] when no attempt was made: [lastError] is still
    [undefined]. *)
Definition undefined_failure (N : Z) : JsError :=
  Error ("Operation failed after " ++ of_number N ++ " attempts. Last error: undefined").

(** ** The attempts of [safeClick] *)

(** The invocations of the callback in a run of [retry]: how each settled
    and what it did. *)
Fixpoint invocations (tr : list Event) : list (option JsError * list Event) :=
  match tr with
  | [] => []
  | Invoke r inner :: rest => (r, inner) :: invocations rest
  | _ :: rest => invocations rest
  end.

(** The timeout [safeClick] works with: that of the options unless it is
    absent or zero. *)
Definition effective_timeout (options : option Helpers.ClickOptions) (c : Config.Constants) : Z :=
  match options with
  | Some o =>
      match Helpers.timeout o with
      | Some t => if t =? 0 then Config.MEDIUM (Config.TIMEOUTS c) else t
      | None => Config.MEDIUM (Config.TIMEOUTS c)
      end
  | None => Config.MEDIUM (Config.TIMEOUTS c)
  end.

(** One attempt of [safeClick]: the wait for the element failed, and the
    attempt is rejected with the decorated error, without a click; or the
    wait fulfilled, the click was made, and the attempt settled as the
    click did. *)
Definition safe_click_attempt (l : Locator) (force : option bool) (T : Z)
    (attempt : option JsError * list Event) : Prop :=
  (exists e,
      attempt = (Some (Error ("Element wait timed out: " ++ error_to_string e)),
                 [Did (locator_waitFor l "visible" T) (Throw e);
                  Console ERROR ("Element wait timed out: " ++ error_to_string e)])) \/
  (exists r,
      attempt = (rejection r,
                 [Did (locator_waitFor l "visible" T) (Ok tt);
                  Did (locator_click l force (Some T)) r])).

Definition safe_click_protocol {W} {E : Engine W} (l : Locator)
    (options : option Helpers.ClickOptions) (s : St W) : Prop :=
  let o := Helpers.safeClick l options s in
  let T := effective_timeout options (constants (process s)) in
  (List.length (invocations (trace o)) <= 3)%nat /\
  Forall (safe_click_attempt l (Helpers.click_force options) T) (invocations (trace o)) /\
  (forall err, result o = Throw err ->
     exists lastError, err = retry_failure 3 (Some lastError)).

(** ** Navigation in mock mode *)

(** The calls that only look at the page. *)
Definition is_probe (a : Action) : bool :=
  match a with
  | page_title | locator_count _ => true
  | _ => false
  end.

(** A run that only looked at the page, the callbacks it invoked
    included. *)
Definition probes_only (tr : list Event) : Prop :=
  forallb is_probe (calls (flatten tr)) = true.

(** The queries of mock-mode detection. *)
Definition mock_probe (a : Action) : bool :=
  match a with
  | page_title => true
  | locator_count l =>
      (Locator_eqb l WatchlistManagerPage.mock_indicator
       || Locator_eqb l WatchlistManagerPage.mock_dashboard_h1
       || Locator_eqb l WatchlistManagerPage.mock_mode_p)%bool
  | _ => false
  end.

(** How the counts of the elements that match [l] settled, in order. *)
Definition count_of (l : Locator) (ev : Event) : list (Res nat) :=
  match ev with
  | Did a r =>
      match a as a' return Res (answer a') -> list (Res nat) with
      | locator_count l' => fun r => if Locator_eqb l l' then [r] else []
      | _ => fun _ => []
      end r
  | _ => []
  end.

Definition counts_of (l : Locator) (tr : list Event) : list (Res nat) :=
  flat_map (count_of l) tr.

(** The documents [page.content()] returned, in order. *)
Definition content_of (ev : Event) : list string :=
  match ev with
  | Did a r =>
      match a as a' return Res (answer a') -> list string with
      | page_content => fun r => match r with Ok html => [html] | Throw _ => [] end
      | _ => fun _ => []
      end r
  | _ => []
  end.

Definition contents (tr : list Event) : list string := flat_map content_of tr.

Definition lists_menu : Locator := locator (xpath_id WatchlistManagerPage.lists_id).
Definition eu_list_item : Locator := locator "#eu_list_item".

(** What a navigation that looks for an element as a last resort comes
    to: it returns whenever it counted the element present, and it throws
    only when the count failed or found nothing. *)
Definition relies_on_element {W} (l : Locator) (prefix : string) (o : Out W unit) : Prop :=
  (forall n, In (Ok (S n)) (counts_of l (trace o)) -> result o = Ok tt) /\
  (forall err, result o = Throw err ->
     exists cause,
       err = Error (prefix ++ error_to_string cause) /\
       (In (Throw cause) (counts_of l (trace o)) \/ In (Ok 0%nat) (counts_of l (trace o)))).

(** ** More handlers that log and throw anew *)

(** Whatever [m] throws is a new error that names a constant: its message
    is [before], the constant, [after] and the text of a cause; and it was
    written with [console.error]. *)
Definition rethrows_naming {W A} (get : Config.Constants -> string) (before after : string)
    (m : M W A) : Prop :=
  forall s err,
    result (m s) = Throw err ->
    exists cause,
      let message := before ++ get (constants (process s)) ++ after ++ error_to_string cause in
      err = Error message /\ In (Console ERROR message) (trace (m s)).

(** The operations beyond those of C4 whose handler logs and throws
    anew. *)
Definition log_and_rethrow_more {W} {E : Engine W} : Prop :=
  (forall this, rethrows_decorated "Failed to navigate to Watchlist Manager: "
                  (WatchlistManagerPage.navigateToWatchlistManager this)) /\
  (forall this, rethrows_decorated "Failed to navigate to Synonyms Rules Manager: "
                  (WatchlistManagerPage.navigateToSynonymsRulesManager this)) /\
  (forall this, rethrows_decorated "Failed to navigate to Lists: "
                  (WatchlistManagerPage.navigateToLists this)) /\
  (forall this, rethrows_decorated "Failed to navigate to Standard Lists: "
                  (WatchlistManagerPage.navigateToStandardLists this)) /\
  (forall this, rethrows_decorated "Failed to navigate to EU List: "
                  (WatchlistManagerPage.navigateToEUList this)) /\
  (forall this, rethrows_naming (fun c => Config.RULE_SET_NAME (Config.TEST_DATA c))
                  "Failed to click '" "' link: "
                  (WatchlistManagerPage.clickWeightedWordsRuleSet this)) /\
  (forall this, rethrows_naming (fun c => Config.EXPECTED_TEXT (Config.TEST_DATA c))
                  "Assertion failed: '" "' is not visible: "
                  (WatchlistManagerPage.assertAgencyRulePresent this)) /\
  (forall this, rethrows_decorated "Navigation sequence failed: "
                  (WatchlistManagerPage.navigateToSynonymRulesWithoutAssertion this)) /\
  (forall this, rethrows_decorated "Navigation sequence failed: "
                  (WatchlistManagerPage.navigateToSynonymRulesAndAssert this)) /\
  (forall this, rethrows_decorated "Navigation sequence to EU List failed: "
                  (WatchlistManagerPage.navigateToEUListWithoutAssertion this)) /\
  (forall this, rethrows_decorated "Failed to click main menu button: "
                  (StandardListPage.clickMainMenu this)) /\
  (forall this, rethrows_decorated "Failed to navigate to Watchlist Manager: "
                  (StandardListPage.navigateToWatchlistManager this)) /\
  (forall this, rethrows_decorated "Assertion failed: eu_name text is not visible: "
                  (StandardListPage.assertEuNameTextVisible this)).

(** How the sequence with the assertion relates to the one without. *)
Definition asserting_sequence {W} {E : Engine W} (this : @WatchlistManagerPage.t W) (s : St W)
    : Prop :=
  let without := WatchlistManagerPage.navigateToSynonymRulesWithoutAssertion this s in
  let asserting := WatchlistManagerPage.navigateToSynonymRulesAndAssert this s in
  (forall err, result without = Throw err ->
     result asserting = Throw err /\ final asserting = final without) /\
  (result without = Ok tt ->
     let assertion := WatchlistManagerPage.assertAgencyRulePresent this (final without) in
     final asserting = final assertion /\
     calls (trace asserting) = (calls (trace without) ++ calls (trace assertion))%list /\
     result asserting
     = match result assertion with
       | Ok _ => Ok tt
       | Throw e => Throw (Error ("Navigation sequence failed: " ++ error_to_string e))
       end).

(** ** The assertion on eu_name *)

(** The rejections of the screenshots a run asked for. *)
Definition screenshot_rejection (ev : Event) : list JsError :=
  match ev with
  | Did a r =>
      match a as a' return Res (answer a') -> list JsError with
      | page_screenshot _ _ => fun r => match r with Ok _ => [] | Throw e => [e] end
      | _ => fun _ => []
      end r
  | _ => []
  end.

Definition screenshot_rejections (tr : list Event) : list JsError :=
  flat_map screenshot_rejection tr.

(** The errors that leave [assertEuNamePresent]: its own validation
    failures; or an error without a message, passed on as it came; or the
    rejection of the screenshot taken by the handler. *)
Definition validation_error (tr : list Event) (err : JsError) : Prop :=
  includes (err_message err) "EU List Validation Failed" = true \/
  err_message err = EmptyString \/
  In err (screenshot_rejections tr).

(** ** The main menu and the eu_name text of [StandardListPage] *)

(** Whether [l] was seen visible, for each check of its visibility, in
    order; a check that was rejected counts as not visible. *)
Definition visibility_of (l : Locator) (ev : Event) : list bool :=
  match ev with
  | Did a r =>
      match a as a' return Res (answer a') -> list bool with
      | locator_isVisible l' _ => fun r =>
          if Locator_eqb l l' then [match r with Ok b => b | Throw _ => false end] else []
      | _ => fun _ => []
      end r
  | _ => []
  end.

Definition visibility_checks (l : Locator) (tr : list Event) : list bool :=
  flat_map (visibility_of l) tr.

(** What a run of [StandardListPage.clickMainMenu] comes to, by what it
    saw of the Watchlist Manager menu: visible at once, no click; visible
    after the click, one click; otherwise a second click; or the run
    threw, a wait or a click having failed. *)
Definition main_menu_outcome {W} {E : Engine W} (this : @StandardListPage.t W) (s : St W)
    : Prop :=
  let o := StandardListPage.clickMainMenu this s in
  let clicks := clicks_on (StandardListPage.mainMenuButton this) (trace o) in
  let seen := visibility_checks (StandardListPage.watchlistManagerMenu this) (trace o) in
  (seen = [true] /\ clicks = 0%nat /\ result o = Ok tt) \/
  (seen = [false; true] /\ clicks = 1%nat /\ result o = Ok tt) \/
  (seen = [false; false] /\ clicks = 2%nat /\ result o = Ok tt) \/
  ((clicks <= 1)%nat /\ hd_error seen = Some false /\
   exists cause, result o = Throw (Error ("Failed to click main menu button: "
                                          ++ error_to_string cause))).

(** The expectations of visibility that a run saw fulfilled. *)
Definition fulfilled_expectation (ev : Event) : list Locator :=
  match ev with
  | Did a r =>
      match a as a' return Res (answer a') -> list Locator with
      | expect_toBeVisible l _ => fun r => match r with Ok _ => [l] | Throw _ => [] end
      | _ => fun _ => []
      end r
  | _ => []
  end.

Definition fulfilled_expectations (tr : list Event) : list Locator :=
  flat_map fulfilled_expectation tr.

(** The locator of eu_name inside the Search Indexes section. *)
Definition eu_name_in_section : Locator :=
  first (sub_locator
           (first (sub_locator (first (locator (has_text EmptyString "Search Indexes")))
                               (has_text EmptyString "Index Name")))
           (has_text EmptyString "eu_name")).

(** ** The login state *)

(** A count that found an element. *)
Definition positive_count (ev : Event) : bool :=
  match ev with
  | Did a r =>
      match a as a' return Res (answer a') -> bool with
      | locator_count _ => fun r => match r with Ok (S _) => true | _ => false end
      | _ => fun _ => false
      end r
  | _ => false
  end.

Definition found_element (tr : list Event) : bool := existsb positive_count tr.

(** A title that carries a mark of mock mode. *)
Definition mock_title (ev : Event) : bool :=
  match ev with
  | Did a r =>
      match a as a' return Res (answer a') -> bool with
      | page_title => fun r =>
          match r with Ok title => title_indicates_mock title | Throw _ => false end
      | _ => fun _ => false
      end r
  | _ => false
  end.

Definition saw_mock_title (tr : list Event) : bool := existsb mock_title tr.

(** No call of the run was rejected. *)
Definition fulfilled (ev : Event) : bool :=
  match ev with
  | Did _ r => is_ok r
  | _ => true
  end.

Definition all_fulfilled (tr : list Event) : bool := forallb fulfilled tr.

(** A selector function that asks the engine nothing, such as
    [getMcpSelector]. *)
Definition quiet {W} (mcp : option (McpSelectorFn W)) : Prop :=
  forall f, mcp = Some f -> forall description s, calls (trace (f description s)) = [].

(** ** Selectors and snapshots of the specification file *)

(** Whether a string holds a white-space character. *)
Fixpoint has_space (s : string) : bool :=
  match s with
  | EmptyString => false
  | String c s' => (is_space c || has_space s')%bool
  end.

(** How the captures of the page settled, in order. *)
Definition capture_of (ev : Event) : list (Res Snapshot) :=
  match ev with
  | Did a r =>
      match a as a' return Res (answer a') -> list (Res Snapshot) with
      | page_evaluate_pageInfo => fun r => [r]
      | _ => fun _ => []
      end r
  | _ => []
  end.

Definition captures (tr : list Event) : list (Res Snapshot) := flat_map capture_of tr.

(** What a page object asks [getMcpSelector] for, and what it gets: the
    fallback plays no part. *)
Definition fallback_is_unused {W} {E : Engine W} (description fallback : string) (s : St W)
    : Prop :=
  let mcp := Some (AgencyListSpec.getMcpSelector (W := W)) in
  result (WatchlistManagerPage.getSelector mcp description fallback s)
  = result (AgencyListSpec.getMcpSelector (trim (toLowerCase description)) s) /\
  result (StandardListPage.getSelector mcp description fallback s)
  = result (AgencyListSpec.getMcpSelector description s) /\
  result (LoginPage.getSelector mcp description fallback s)
  = result (AgencyListSpec.getMcpSelector description s).

(** ** The click on the Watchlist Manager menu *)

(** What the title decides in [navigateToWatchlistManager]: with a mark
    of mock mode in it, the run returns and reading the title is the only
    call it makes; without one, the run clicks the Watchlist Manager menu,
    and returns exactly when the click went through. *)
Definition title_decides_click {W} {E : Engine W} (this : @WatchlistManagerPage.t W)
    (s : St W) (title : string) : Prop :=
  let o := WatchlistManagerPage.navigateToWatchlistManager this s in
  if title_indicates_mock title
  then result o = Ok tt /\ calls (flatten (trace o)) = [page_title]
  else clicks_on (WatchlistManagerPage.watchlistManagerMenu this) (trace o)
       = (if is_ok (result o) then 1%nat else 0%nat).

(** ** The strategies of [navigateToStandardLists] *)

(** The lines of the log that start with [prefix], in order. *)
Definition lines_from (prefix : string) (tr : list Event) : list string :=
  filter (fun msg => startsWith msg prefix) (log_lines tr).

Definition standard_trying : string := "Trying Standard Lists menu click strategy ".

Definition standard_success : string :=
  "Successfully clicked Standard Lists using strategy ".

(** The one error that leaves [navigateToStandardLists]. *)
Definition standard_lists_failed : JsError :=
  Error ("Failed to navigate to Standard Lists: "
         ++ "Error: All Standard Lists menu click strategies failed").

(** The line a run writes when it returns early. *)
Definition already_there : Event :=
  Console LOG "EU List already visible, we are already on Standard Lists page".

(** What confirms a click on the Standard Lists menu: the EU List link
    was seen, or the URL is no longer [currentUrl]. *)
Definition standard_confirmation {W} (this : @StandardListPage.t W) (currentUrl : string)
    (tr : list Event) : Prop :=
  In (Did (locator_isVisible (StandardListPage.euListLink this) (Some 1000)) (Ok true)) tr \/
  exists newUrl, In (Url newUrl) tr /\ newUrl <> currentUrl.

(** What a run of [navigateToStandardLists] comes to.  It tried the
    strategies [1..k], in this order.  Either it returned: early, no
    strategy tried; or with the last strategy tried reported as
    successful, and no other, on a confirmation.  Or it threw the error
    above, all five strategies tried and none reported as successful. *)
Definition standard_lists_navigation {W} {E : Engine W} (this : @StandardListPage.t W)
    (s : St W) : Prop :=
  let o := StandardListPage.navigateToStandardLists this s in
  exists k : nat,
    (k <= 5)%nat /\
    lines_from standard_trying (trace o)
    = map (fun i => standard_trying ++ of_number i) (strategies_from 0 k) /\
    ((result o = Ok tt /\ k = 0%nat /\ In already_there (trace o)) \/
     (result o = Ok tt /\ (1 <= k)%nat /\
      lines_from standard_success (trace o) = [standard_success ++ of_number (Z.of_nat k)] /\
      standard_confirmation this (engine_url (world s)) (trace o)) \/
     (result o = Throw standard_lists_failed /\ k = 5%nat /\
      lines_from standard_success (trace o) = [])).

(** ** The mock sequence to the EU list *)

(** Whether a count found an element that matches [l]. *)
Definition present (l : Locator) (tr : list Event) : Prop :=
  exists n, In (Ok (S n)) (counts_of l tr).

(** The three elements the mock sequence cannot do without. *)
Definition required_elements (tr : list Event) : Prop :=
  present (locator (xpath_id "menu-trigger")) tr /\
  present (locator (xpath_id "home_watchlistmanagement")) tr /\
  present (locator (xpath_id WatchlistManagerPage.lists_id)) tr.

(** What a run of the mock sequence owes to the required elements. *)
Definition needs_required_elements {W A} (o : Out W A) (v : A) : Prop :=
  (result o = Ok v -> required_elements (trace o)) /\
  (required_elements (trace o) -> all_fulfilled (trace o) = true -> result o = Ok v).

(** ** Scenarios for the page objects *)

(** The value with which a run fulfilled. *)
Definition value_of {W A} (o : Out W A) :
    match result o with Ok _ => A | Throw _ => unit end :=
  match result o as r return match r with Ok _ => A | Throw _ => unit end with
  | Ok a => a
  | Throw _ => tt
  end.

(** The page objects that the constructors build when no selector
    function is injected. *)
Definition watchlist_manager_page : @WatchlistManagerPage.t Sim.World :=
  Eval vm_compute in value_of (WatchlistManagerPage.new None plain_page).

Definition standard_list_page : @StandardListPage.t Sim.World :=
  Eval vm_compute in value_of (StandardListPage.new None plain_page).

Definition login_page : @LoginPage.t Sim.World :=
  Eval vm_compute in value_of (LoginPage.new None plain_page).

(** A mock page: blank URL, and a document that carries the text eu_name
    in a cell, which no locator resolves. *)
Definition mock_eu_list : St Sim.World :=
  mkSt (Sim.mkWorld "<html><body><table><tr><td>eu_name</td></tr></table></body></html>"
                    "about:blank" 0 None Sim.no_elements Sim.nothing_broken)
       initial_process.

(** A mock page with the three menu elements of the mock dashboard. *)
Definition has_menu_elements (t : Z) (html : string) (l : Locator) : bool :=
  (Locator_eqb l (locator (xpath_id "menu-trigger"))
   || Locator_eqb l (locator (xpath_id "home_watchlistmanagement"))
   || Locator_eqb l (locator (xpath_id WatchlistManagerPage.lists_id)))%bool.

Definition mock_dashboard : St Sim.World :=
  mkSt (Sim.mkWorld plain_document "about:blank" 0 None has_menu_elements Sim.nothing_broken)
       initial_process.

(** A page titled as the mock login page is, without any element. *)
Definition test_mode_page : St Sim.World :=
  mkSt (Sim.mkWorld "<html><head><title>NetReveal Test Mode</title></head></html>"
                    "https://example.org/app" 0 None Sim.no_elements Sim.nothing_broken)
       initial_process.

(** A page whose content cannot be replaced. *)
Definition setContent_fails (a : Action) : bool :=
  match a with page_setContent _ => true | _ => false end.

Definition frozen_page : St Sim.World := Sim.blank None Sim.no_elements setContent_fails.

(** A page on which the script that collects the elements is rejected. *)
Definition pageInfo_fails (a : Action) : bool :=
  match a with page_evaluate_pageInfo => true | _ => false end.

Definition opaque_page : St Sim.World := Sim.blank None Sim.no_elements pageInfo_fails.

(** A snapshot with one button, and a process that holds it. *)
Definition save_button : Element :=
  {| tagName := "button"; id := Some "save"; className := None;
     textContent := Some "Save changes"; attributes := []; role := None;
     ariaLabel := None |}.

Definition with_snapshot : St Sim.World :=
  mkSt (world plain_page)
       {| constants := Config.initial; mcpConnected := true;
          lastSnapshot := Some (mkSnapshot "NetReveal" "https://example.org/app" 1
                                           [save_button]) |}.

(** * Properties *)

Unset Implicit Arguments.

(** ** Strings *)

Lemma prefix_refl (s : string) : String.prefix s s = true.
Proof.
  induction s as [|c s IH]; simpl; [reflexivity|].
  destruct (ascii_dec c c); [exact IH | congruence].
Qed.

Lemma append_assoc (a b c : string) : ((a ++ b) ++ c = a ++ (b ++ c))%string.
Proof. induction a as [|x a IH]; cbn; [reflexivity | rewrite IH; reflexivity]. Qed.

Lemma Locator_eqb_refl (l : Locator) : Locator_eqb l l = true.
Proof.
  induction l; simpl; rewrite ?IHl, ?String.eqb_refl, ?Nat.eqb_refl; reflexivity.
Qed.

Lemma last_cons_default {A} (x : A) (l : list A) (d d' : A) :
  List.last (x :: l) d = List.last (x :: l) d'.
Proof.
  revert x. induction l as [|y l IH]; intro x; [reflexivity|].
  change (List.last (y :: l) d = List.last (y :: l) d'). apply IH.
Qed.

(** ** The loop of [retry] *)

Section RetryFacts.
Context {W : Type} {E : Engine W} {T : Type}.
Variable operation : M W T.
Variables maxRetries delayMs : Z.

Local Abbreviation run := (retry_run operation maxRetries delayMs).
Local Abbreviation loop := (Helpers.retry_from operation maxRetries delayMs).

(** The loop terminates, and its result is a run. *)
Lemma retry_from_run (attempt : Z) (lastError : option JsError) (s : St W) :
  run attempt lastError s (loop attempt lastError s).
Proof.
  remember (Z.to_nat (maxRetries + 1 - attempt)) as n eqn:Hn.
  revert attempt lastError s Hn.
  induction n as [|n IH]; intros attempt lastError s Hn;
    rewrite Helpers.retry_from_equation_1;
    destruct (Z_le_dec attempt maxRetries) as [Hle|Hgt]; try lia.
  - apply run_exhausted; lia.
  - cbn [Helpers.retry_from_unfold_clause_1].
    unfold try_catch, invoke.
    destruct (operation s) as [[v|error] s1 t1] eqn:Hop.
    + assert (R := @run_fulfilled W E T operation maxRetries delayMs attempt lastError s v Hle).
      rewrite Hop in R. apply R. reflexivity.
    + specialize (IH (attempt + 1) (Some error)
                     (after_round maxRetries delayMs attempt s1) ltac:(lia)).
      unfold bind, console_warn, emit, setTimeout_wait, ret.
      unfold after_round in IH.
      destruct (attempt <? maxRetries) eqn:Hlt; cbn [result final trace world process app] in *;
        match goal with
        | |- context [Helpers.retry_from ?a ?b ?c ?d ?e ?f] =>
            destruct (Helpers.retry_from a b c d e f) as [r2 s2 t2] eqn:Hrec
        end;
        assert (R := @run_rejected W E T operation maxRetries delayMs attempt lastError s
                       error (mkOut r2 s2 t2) Hle);
        rewrite Hop in R; unfold after_round, round_wait, retry_warning in R;
        rewrite Hlt in R; cbn [result final trace app] in R;
        (apply R; [reflexivity | exact IH]).
Qed.
End RetryFacts.

Section RetryOutline.
Context {W : Type} {E : Engine W} {T : Type}.
Variable operation : M W T.
Variables maxRetries delayMs : Z.

Local Abbreviation run := (retry_run operation maxRetries delayMs).

Lemma run_outline attempt lastError s o :
  run attempt lastError s o ->
  exists errs,
    returns_after operation maxRetries delayMs errs attempt o \/
    gives_up_after maxRetries delayMs errs attempt lastError o.
Proof.
  induction 1 as [attempt lastError s Hgt
                 |attempt lastError s v Hle Hop
                 |attempt lastError s error o Hle Hop Hrun [errs IH]].
  - exists []. right. unfold gives_up_after. cbn.
    repeat split; try reflexivity. lia.
  - exists []. left. exists v, s, []. cbn.
    repeat split; try reflexivity; try assumption. lia.
  - exists (error :: errs). destruct IH as [IH|IH].
    + left. destruct IH as (v & s' & pre & Hlen & Hres & Hsk & Hout & Hv & Hfin & Htr).
      assert (Hlt : attempt < maxRetries) by (cbn in Hlen; lia).
      exists v, s',
        (Invoke (Some error) (trace (operation s))
         :: Console WARN (retry_warning maxRetries attempt error)
         :: round_wait maxRetries delayMs attempt ++ pre).
      unfold round_wait in *. apply Z.ltb_lt in Hlt. rewrite Hlt.
      cbn [result final trace skeleton outcomes app flat_map failed_round List.length map].
      rewrite Hsk, Hout, Htr. apply Z.ltb_lt in Hlt.
      repeat split; try reflexivity; try assumption. lia.
    + right. destruct IH as (Hlen & Hres & Hsk & Hout).
      unfold gives_up_after, round_wait.
      cbn [result final trace].
      destruct errs as [|e' errs'].
      * cbn in Hlen. assert (Heq : attempt = maxRetries) by lia. subst attempt.
        rewrite Z.ltb_irrefl. cbn. rewrite Hres, Hsk, Hout. cbn.
        repeat split; try reflexivity. lia.
      * cbn [List.length] in Hlen. assert (Hlt : attempt < maxRetries) by lia.
        apply Z.ltb_lt in Hlt. rewrite Hlt.
        cbn [app skeleton outcomes List.length map]. rewrite Hres, Hsk, Hout.
        apply Z.ltb_lt in Hlt.
        repeat split; try reflexivity; [lia|].
        do 2 f_equal.
        change (List.last (map Some (e' :: errs')) (Some error)
                = List.last (Some e' :: map Some errs') lastError).
        apply last_cons_default.
Qed.

(** Top-level events of a run are attempts, warnings and timers: the run
    writes nothing with [console.log]. *)
Lemma run_log_lines attempt lastError s o :
  run attempt lastError s o -> log_lines (trace o) = [].
Proof.
  induction 1 as [| |attempt lastError s error o Hle Hop Hrun IH]; cbn; try reflexivity.
  unfold round_wait. destruct (attempt <? maxRetries); cbn; exact IH.
Qed.
End RetryOutline.

Lemma last_map_Some {A} (l : list A) (d : option A) :
  l <> [] -> exists x, List.last (map Some l) d = Some x /\ In x l.
Proof.
  induction l as [|x l IH]; [congruence|]. intros _.
  destruct l as [|y l].
  - exists x. cbn. auto.
  - destruct IH as (z & Hz & Hin); [congruence|].
    exists z. split; [exact Hz | right; exact Hin].
Qed.

Lemma retry_outline {W} {E : Engine W} {T} (operation : M W T) (N d : Z) (s : St W) :
  let o := Helpers.retry operation (Some N) (Some d) s in
  exists errs, returns_after operation N d errs 1 o \/ gives_up_after N d errs 1 None o.
Proof.
  cbv zeta. unfold Helpers.retry.
  eapply run_outline. apply retry_from_run.
Qed.





(** ** Running the code symbolically *)

Ltac unfold_monad :=
  unfold catch_value, console_log, console_warn, console_error in *;
  unfold bind, try_catch, ret, throw, emit, perform, page_url, Date_now, setTimeout_wait,
    invoke, get_process, set_process, get_constants in *.

Ltac simpl_out := cbn [result final trace world process fst snd constants mcpConnected
                       lastSnapshot orb andb negb] in *.

(** Case analysis on how the next call to the engine settles. *)
Ltac engine_step :=
  match goal with
  | |- context [engine_do ?a ?w] =>
      lazymatch w with
      | context [engine_do] => fail
      | context [Helpers.safeClick] => fail
      | _ => idtac
      end;
      let r := fresh "r" in let w' := fresh "w" in
      destruct (engine_do a w) as [[r|r] w']; simpl_out
  end.

Ltac branch :=
  match goal with
  | |- context [if ?b then _ else _] => destruct b eqn:?; simpl_out
  end.

(** Finds an event in the trace of a concrete run. *)
Ltac in_trace := vm_compute; repeat (first [left; reflexivity | right]).

(** Finds an event in a trace that is known up to the traces of calls. *)
Ltac find_event :=
  cbn [app];
  repeat first [ left; reflexivity | assumption | right
               | apply in_or_app; left; assumption | apply in_or_app; right ].

(** ** Selector resolution *)


(** ** Mock-mode detection *)



(** ** Logging and re-throwing *)

Section Rethrow.
Context {W : Type} {E : Engine W}.

(** The handler that the page objects repeat: log, then throw anew. *)
Lemma guarded_rethrows {A} (prefix : string) (body : M W A) :
  rethrows_decorated prefix
    (TRY body CATCH error =>
       (console_error (prefix ++ error_to_string error) ;;
        throw (Error (prefix ++ error_to_string error)))).
Proof.
  intros s err. unfold_monad.
  destruct (body s) as [[v|cause] s' tr]; simpl_out; intros H; [discriminate|].
  injection H as <-. exists cause. split; [reflexivity|].
  apply in_or_app. right. left. reflexivity.
Qed.

Lemma bind_rethrows {A B} (prefix : string) (m : M W A) (k : A -> M W B) :
  never_throws m ->
  (forall a, rethrows_decorated prefix (k a)) ->
  rethrows_decorated prefix (x <- m ;; k x).
Proof.
  intros Hm Hk s err. unfold bind.
  destruct (Hm s) as [v Hv].
  destruct (m s) as [[a|e] s1 t1]; simpl_out; [|discriminate].
  specialize (Hk a s1 err).
  destruct (k a s1) as [r s2 t2]; simpl_out. intros H.
  destruct (Hk H) as (cause & -> & Hin).
  exists cause. split; [reflexivity|]. apply in_or_app. right. exact Hin.
Qed.

Lemma default_MEDIUM_never_throws (t : option Z) :
  never_throws (Helpers.default_MEDIUM (W := W) t).
Proof. intros s. destruct t; eexists; reflexivity. Qed.

Lemma default_to_never_throws (get : Config.Constants -> string) (arg : option string) :
  never_throws (LoginPage.default_to (W := W) get arg).
Proof. intros s. destruct arg; eexists; reflexivity. Qed.

Lemma navigateToLoginPage_rethrows (this : LoginPage.t) (url : string) :
  rethrows_decorated "Failed to navigate to login page: "
    (LoginPage.navigateToLoginPage this url).
Proof.
  intros s err. unfold LoginPage.navigateToLoginPage.
  match goal with
  | |- context [try_catch ?b ?h] => generalize b; intros body
  end.
  unfold_monad.
  destruct (body s) as [[v|cause] s' tr]; simpl_out; [discriminate|].
  engine_step; intros H; injection H as <-; exists cause;
    (split; [reflexivity | apply in_or_app; right; left; reflexivity]).
Qed.
End Rethrow.


Ltac first_call_rejected H :=
  unfold_monad; simpl_out; rewrite H; simpl_out;
  split; [reflexivity | cbn [app]; repeat first [left; reflexivity | right]].



(** ** The constants are read-only *)

Section KeepsConstants.
Context {W : Type} {E : Engine W}.

Lemma kc_ret {A} (a : A) : keeps_constants (ret (W := W) a).
Proof. intros s. reflexivity. Qed.

Lemma kc_throw {A} (e : JsError) : keeps_constants (throw (W := W) (A := A) e).
Proof. intros s. reflexivity. Qed.

Lemma kc_emit (ev : Event) : keeps_constants (emit (W := W) ev).
Proof. intros s. reflexivity. Qed.

Lemma kc_console_log (msg : string) : keeps_constants (console_log (W := W) msg).
Proof. intros s. reflexivity. Qed.

Lemma kc_console_warn (msg : string) : keeps_constants (console_warn (W := W) msg).
Proof. intros s. reflexivity. Qed.

Lemma kc_console_error (msg : string) : keeps_constants (console_error (W := W) msg).
Proof. intros s. reflexivity. Qed.

Lemma kc_perform (a : Action) : keeps_constants (perform a).
Proof. intros s. unfold perform. destruct (engine_do a (world s)). reflexivity. Qed.

Lemma kc_page_url : keeps_constants page_url.
Proof. intros s. reflexivity. Qed.

Lemma kc_Date_now : keeps_constants Date_now.
Proof. intros s. reflexivity. Qed.

Lemma kc_setTimeout_wait (ms : Z) : keeps_constants (setTimeout_wait ms).
Proof. intros s. reflexivity. Qed.

Lemma kc_get_process : keeps_constants (get_process (W := W)).
Proof. intros s. reflexivity. Qed.

Lemma kc_get_constants : keeps_constants (get_constants (W := W)).
Proof. intros s. reflexivity. Qed.

Lemma kc_set_mcpConnected (b : bool) : keeps_constants (AgencyListSpec.set_mcpConnected (W := W) b).
Proof. intros s. reflexivity. Qed.

Lemma kc_set_lastSnapshot (v : option Snapshot) :
  keeps_constants (AgencyListSpec.set_lastSnapshot (W := W) v).
Proof. intros s. reflexivity. Qed.

Lemma kc_bind {A B} (m : M W A) (k : A -> M W B) :
  keeps_constants m -> (forall a, keeps_constants (k a)) -> keeps_constants (bind m k).
Proof.
  intros Hm Hk s. unfold bind. specialize (Hm s).
  destruct (m s) as [[a|e] s' tr]; simpl_out; [|exact Hm].
  specialize (Hk a s'). destruct (k a s') as [r s2 t2]; simpl_out.
  rewrite Hk. exact Hm.
Qed.

Lemma kc_try_catch {A} (m : M W A) (h : JsError -> M W A) :
  keeps_constants m -> (forall e, keeps_constants (h e)) -> keeps_constants (try_catch m h).
Proof.
  intros Hm Hh s. unfold try_catch. specialize (Hm s).
  destruct (m s) as [[a|e] s' tr]; simpl_out; [exact Hm|].
  specialize (Hh e s'). destruct (h e s') as [r s2 t2]; simpl_out.
  rewrite Hh. exact Hm.
Qed.

Lemma kc_catch_value {A} (m : M W A) (v : A) :
  keeps_constants m -> keeps_constants (catch_value m v).
Proof. intros Hm. apply kc_try_catch; [exact Hm | intros e; apply kc_ret]. Qed.

Lemma kc_test_step {A} (title : string) (body : M W A) :
  keeps_constants body -> keeps_constants (AgencyListSpec.test_step title body).
Proof. intros H. exact H. Qed.

Lemma kc_run {T} (operation : M W T) (N d : Z) attempt lastError s o :
  keeps_constants operation ->
  retry_run operation N d attempt lastError s o ->
  constants (process (final o)) = constants (process s).
Proof.
  intros Hop. induction 1 as [| |attempt lastError s error o Hle Hres Hrun IH];
    simpl_out; try reflexivity.
  - apply Hop.
  - rewrite IH. unfold after_round. destruct (attempt <? N); simpl_out; apply Hop.
Qed.

Lemma kc_retry {T} (operation : M W T) (maxRetries delayMs : option Z) :
  keeps_constants operation -> keeps_constants (Helpers.retry operation maxRetries delayMs).
Proof.
  intros Hop s. unfold Helpers.retry.
  eapply kc_run; [exact Hop | apply retry_from_run].
Qed.
End KeepsConstants.

Create HintDb constants.
#[export] Hint Resolve kc_ret kc_throw kc_emit kc_console_log kc_console_warn kc_console_error
  kc_perform kc_page_url kc_Date_now kc_setTimeout_wait kc_get_process kc_get_constants
  kc_set_mcpConnected kc_set_lastSnapshot : constants.

(** Goes through a computation, statement by statement. *)
Ltac keeps_step :=
  lazymatch goal with
  | |- keeps_constants (bind _ _) => apply kc_bind; [|intros ?]
  | |- keeps_constants (try_catch _ _) => apply kc_try_catch; [|intros ?]
  | |- keeps_constants (catch_value _ _) => apply kc_catch_value
  | |- keeps_constants (AgencyListSpec.test_step _ _) => apply kc_test_step
  | |- keeps_constants (Helpers.retry _ _ _) => apply kc_retry
  | |- keeps_constants (perform ?a) => exact (kc_perform a)
  | |- keeps_constants (if ?b then _ else _) => destruct b
  | |- keeps_constants (match ?x with _ => _ end) => destruct x
  | |- keeps_constants (let _ := _ in _) => cbv zeta
  | |- _ => solve [auto with constants]
  end.

Ltac keeps := cbv zeta; repeat keeps_step.

Section KeepsConstantsOps.
Context {W : Type} {E : Engine W}.

Lemma kc_waitForElement l t : keeps_constants (Helpers.waitForElement l t).
Proof. unfold Helpers.waitForElement, Helpers.default_MEDIUM. keeps. Qed.

Lemma kc_safeClick l options : keeps_constants (Helpers.safeClick l options).
Proof.
  unfold Helpers.safeClick, Helpers.click_timeout.
  pose proof kc_waitForElement. keeps.
Qed.

Lemma kc_elementExists l t : keeps_constants (Helpers.elementExists l t).
Proof. unfold Helpers.elementExists. keeps. Qed.

Lemma kc_maximizeWindow : keeps_constants Helpers.maximizeWindow.
Proof. unfold Helpers.maximizeWindow. keeps. Qed.

Lemma kc_log_button_texts buttons : keeps_constants (LoginPage.log_button_texts buttons).
Proof. induction buttons as [|b rest IH]; cbn [LoginPage.log_button_texts]; keeps. Qed.

Lemma kc_try_strategy this strategy i :
  keeps_constants (StandardListPage.try_strategy this strategy i).
Proof. unfold StandardListPage.try_strategy. pose proof kc_safeClick. keeps. Qed.

Lemma kc_strategy_loop this strategies i :
  keeps_constants (StandardListPage.strategy_loop this strategies i).
Proof.
  revert i. induction strategies as [|st rest IH]; intros i;
    cbn [StandardListPage.strategy_loop]; pose proof kc_try_strategy; keeps.
Qed.

Lemma kc_useMcpSnapshot : keeps_constants AgencyListSpec.useMcpSnapshot.
Proof. unfold AgencyListSpec.useMcpSnapshot. keeps. Qed.
End KeepsConstantsOps.

#[export] Hint Resolve kc_waitForElement kc_safeClick kc_elementExists kc_maximizeWindow
  kc_log_button_texts kc_try_strategy kc_strategy_loop kc_useMcpSnapshot : constants.

Section KeepsConstantsPages.
Context {W : Type} {E : Engine W}.

Lemma kc_getSelector (mcp : option (McpSelectorFn W)) description fallback :
  selector_fn_keeps mcp ->
  keeps_constants (WatchlistManagerPage.getSelector mcp description fallback) /\
  keeps_constants (StandardListPage.getSelector mcp description fallback) /\
  keeps_constants (LoginPage.getSelector mcp description fallback).
Proof.
  intros Hmcp.
  unfold WatchlistManagerPage.getSelector, StandardListPage.getSelector,
    LoginPage.getSelector.
  destruct mcp as [f|]; [specialize (Hmcp f eq_refl)|]; repeat apply conj; keeps.
Qed.

Lemma kc_new (mcp : option (McpSelectorFn W)) :
  selector_fn_keeps mcp ->
  keeps_constants (WatchlistManagerPage.new mcp) /\
  keeps_constants (StandardListPage.new mcp) /\
  keeps_constants (LoginPage.new mcp).
Proof.
  intros Hmcp.
  assert (Hw := fun d f => proj1 (kc_getSelector mcp d f Hmcp)).
  assert (Hs := fun d f => proj1 (proj2 (kc_getSelector mcp d f Hmcp))).
  assert (Hl := fun d f => proj2 (proj2 (kc_getSelector mcp d f Hmcp))).
  unfold WatchlistManagerPage.new, StandardListPage.new, LoginPage.new.
  repeat apply conj; keeps.
Qed.

Lemma kc_generated_selector element :
  keeps_constants (AgencyListSpec.generated_selector (W := W) element).
Proof. unfold AgencyListSpec.generated_selector. keeps. Qed.
End KeepsConstantsPages.



(** ** The MCP connection flag *)

(** C7. The flag of the simulated MCP connection is never meaningfully
    used: two runs of [analyzePage] that differ only in the initial value
    of [mcpConnected] return the same snapshot and end in the same state,
    in which the flag is true; the branch for a failed connection, which
    starts by evaluating the logging script in the page, is never taken. *)
Theorem mcp_flag_is_irrelevant {W} {E : Engine W}
    (w : W) (c : Config.Constants) (snapshot : option Snapshot) (flag1 flag2 : bool)
    (stepDescription : option string) :
  let run flag := AgencyListSpec.analyzePage stepDescription
                    (mkSt w (mkProcess c flag snapshot)) in
  result (run flag1) = result (run flag2) /\
  final (run flag1) = final (run flag2) /\
  mcpConnected (process (final (run flag1))) = true /\
  ~ In page_evaluate_logInfo (calls (trace (run flag1))).
Proof.
  cbv zeta.
  unfold AgencyListSpec.analyzePage, AgencyListSpec.useMcpSnapshot,
    AgencyListSpec.snapshot_failed, AgencyListSpec.analysis_screenshot,
    AgencyListSpec.test_step, AgencyListSpec.set_mcpConnected,
    AgencyListSpec.set_lastSnapshot.
  destruct flag1, flag2; unfold_monad; simpl_out;
    repeat engine_step;
    cbn [app calls In];
    (repeat apply conj; [reflexivity | reflexivity | reflexivity | intuition discriminate]).
Qed.

(** ** Failures replaced by a mock page *)

Lemma calls_app (a b : list Event) : calls (a ++ b) = (calls a ++ calls b)%list.
Proof.
  induction a as [|ev a IH]; [reflexivity|].
  destruct ev; cbn [app calls]; rewrite ?IH; reflexivity.
Qed.

Section Swallowing.
Context {W : Type} {E : Engine W}.

Lemma in_calls_bind_l {A B} (m : M W A) (k : A -> M W B) (s : St W) (x : Action) :
  In x (calls (trace (m s))) -> In x (calls (trace (bind m k s))).
Proof.
  unfold bind. destruct (m s) as [[a|e] s1 t1]; simpl_out; [|tauto].
  destruct (k a s1) as [r s2 t2]; simpl_out.
  rewrite calls_app. intros H. apply in_or_app. left. exact H.
Qed.

Lemma in_calls_bind_r {A B} (m : M W A) (k : A -> M W B) (s : St W) (x : Action)
    (a : A) (s1 : St W) (t1 : list Event) :
  m s = mkOut (Ok a) s1 t1 ->
  In x (calls (trace (k a s1))) -> In x (calls (trace (bind m k s))).
Proof.
  unfold bind. intros ->. destruct (k a s1) as [r s2 t2]; simpl_out.
  rewrite calls_app. intros H. apply in_or_app. right. exact H.
Qed.

Lemma in_calls_try_l {A} (m : M W A) (h : JsError -> M W A) (s : St W) (x : Action) :
  In x (calls (trace (m s))) -> In x (calls (trace (try_catch m h s))).
Proof.
  unfold try_catch. destruct (m s) as [[a|e] s1 t1]; simpl_out; [tauto|].
  destruct (h e s1) as [r s2 t2]; simpl_out.
  rewrite calls_app. intros H. apply in_or_app. left. exact H.
Qed.

(** X28. Whenever the navigation is rejected, the mock login page is put
    in place of the page. *)
Lemma navigateToLoginPage_sets_mock_page (this : LoginPage.t) (url : string)
    (s : St W) (cause : JsError) (w' : W) :
  engine_do (page_goto url 30000 (Some "networkidle")) (world s) = (Throw cause, w') ->
  In (page_setContent LoginPage.mock_login_html)
     (calls (trace (LoginPage.navigateToLoginPage this url s))).
Proof.
  intros Hgoto. unfold LoginPage.navigateToLoginPage.
  apply in_calls_try_l.
  eapply in_calls_bind_r; [reflexivity|].
  apply in_calls_bind_l.
  unfold_monad; simpl_out. rewrite Hgoto; simpl_out.
  engine_step; engine_step; cbn [app calls In]; auto 10.
Qed.
End Swallowing.

Lemma bind_pure {W A B} (m : M W A) (k : A -> M W B) (s : St W) (a : A) :
  m s = mkOut (Ok a) s [] -> bind m k s = k a s.
Proof. unfold bind. intros ->. destruct (k a s); reflexivity. Qed.

Lemma try_catch_throws {W A} (m : M W A) (h : JsError -> M W A) (s : St W) (err : JsError) :
  result (try_catch m h s) = Throw err ->
  exists cause s1 t1,
    m s = mkOut (Throw cause) s1 t1 /\
    result (h cause s1) = Throw err /\
    trace (try_catch m h s) = (t1 ++ trace (h cause s1))%list.
Proof.
  unfold try_catch. destruct (m s) as [[a|cause] s1 t1]; simpl_out; [discriminate|].
  destruct (h cause s1) as [r s2 t2] eqn:Hh; simpl_out. intros ->.
  exists cause, s1, t1. rewrite Hh. repeat apply conj; reflexivity.
Qed.

(** X29. [login] passes on one failure only: that of loading the mock
    dashboard from its last handler. *)
Lemma login_throws_only_from_last_handler {W} {E : Engine W}
    (this : LoginPage.t) (username password : option string) (s : St W) (err : JsError) :
  result (LoginPage.login this username password s) = Throw err ->
  In (Did (page_setContent LoginPage.mock_dashboard_html_outer) (Throw err))
     (trace (LoginPage.login this username password s)).
Proof.
  unfold LoginPage.login.
  assert (Hd : forall get arg (s0 : St W),
             exists v, LoginPage.default_to get arg s0 = mkOut (Ok v) s0 []).
  { intros get arg s0. destruct arg; eexists; reflexivity. }
  destruct (Hd Config.USERNAME username s) as [u Hu].
  destruct (Hd Config.PASSWORD password s) as [p Hp].
  rewrite (bind_pure _ _ _ _ Hu), (bind_pure _ _ _ _ Hp).
  intros H. apply try_catch_throws in H.
  destruct H as (cause & s1 & t1 & _ & Hh & ->).
  apply in_or_app. right. revert Hh.
  unfold_monad; simpl_out. engine_step; [discriminate|].
  intros H. injection H as <-. find_event.
Qed.

(** C5. Some flows swallow a failure and put a fabricated page in place
    of the application.  With the server down, [page.goto] is rejected,
    yet [navigateToLoginPage] returns and the page is the mock login page,
    titled NetReveal Test Mode.  With the server up and the credentials
    refused, the check after the click finds the error message, yet
    [login] returns, reports a successful login, and the page is the mock
    dashboard, titled NetReveal Dashboard, with its menu elements. *)
Theorem failures_replaced_by_mock_page :
  (let o := open_login_page server_down in
   In (Did (page_goto (Config.NETREVEAL_URL Config.initial) 30000 (Some "networkidle"))
           (Throw (Error ("page.goto: net::ERR_CONNECTION_REFUSED at "
                          ++ Config.NETREVEAL_URL Config.initial))))
      (trace o) /\
   is_ok (result o) = true /\
   Sim.doc (world (final o)) = LoginPage.mock_login_html /\
   Sim.html_title (Sim.doc (world (final o))) = "NetReveal Test Mode") /\
  (let o := open_and_login credentials_refused in
   In (Did (locator_isVisible
              (locator (".error-message, .alert-error, " ++ has_text "text" "failed")) None)
           (Ok true))
      (trace o) /\
   In (Console LOG "Login successful") (trace o) /\
   result o = Ok tt /\
   Sim.doc (world (final o)) = LoginPage.mock_dashboard_html_inner /\
   Sim.html_title (Sim.doc (world (final o))) = "NetReveal Dashboard" /\
   includes (Sim.doc (world (final o))) ("id=" ++ q "menu-trigger") = true /\
   includes (Sim.doc (world (final o))) ("id=" ++ q "home_watchlistmanagement") = true).
Proof.
  split; cbv zeta; repeat apply conj; try (vm_compute; reflexivity); in_trace.
Qed.

(** ** Clicks *)

Lemma flatten_app (a b : list Event) : flatten (a ++ b) = (flatten a ++ flatten b)%list.
Proof. unfold flatten. apply flat_map_app. Qed.

Lemma clicks_on_app (l : Locator) (a b : list Event) :
  clicks_on l (a ++ b) = (clicks_on l a + clicks_on l b)%nat.
Proof. unfold clicks_on. rewrite flatten_app, filter_app, length_app. reflexivity. Qed.

Lemma clicks_on_cons (l : Locator) (ev : Event) (tr : list Event) :
  clicks_on l (ev :: tr) = (clicks_on l [ev] + clicks_on l tr)%nat.
Proof. apply (clicks_on_app l [ev] tr). Qed.

Lemma clicks_on_invoke (l : Locator) (r : option JsError) (inner : list Event) :
  clicks_on l [Invoke r inner] = clicks_on l inner.
Proof.
  unfold clicks_on, flatten. cbn [flat_map flatten_event].
  rewrite app_nil_r. reflexivity.
Qed.

Section SafeClick.
Context {W : Type} {E : Engine W}.

(** A callback of which each invocation clicks [l] once if it fulfils
    and not at all if it is rejected: a run of [retry] on it clicks once
    if it returns and not at all if it throws. *)
Lemma run_clicks {T} (operation : M W T) (N d : Z) (l : Locator) attempt lastError s o :
  (forall s, clicks_on l (trace (operation s))
             = if is_ok (result (operation s)) then 1%nat else 0%nat) ->
  retry_run operation N d attempt lastError s o ->
  clicks_on l (trace o) = if is_ok (result o) then 1%nat else 0%nat.
Proof.
  intros Hop. induction 1 as [|attempt lastError s v Hle Hres
                              |attempt lastError s error o Hle Hres Hrun IH];
    simpl_out.
  - reflexivity.
  - rewrite clicks_on_invoke, Hop, Hres. reflexivity.
  - rewrite clicks_on_cons, clicks_on_invoke, Hop, Hres.
    rewrite clicks_on_cons, clicks_on_app, IH.
    unfold round_wait. destruct (attempt <? N); reflexivity.
Qed.

Lemma safeClick_clicks (l : Locator) (options : option Helpers.ClickOptions) (s : St W) :
  let o := Helpers.safeClick l options s in
  clicks_on l (trace o) = (if is_ok (result o) then 1%nat else 0%nat) /\
  log_lines (trace o) = [] /\
  (forall l', attached_checks l' (trace o) = []).
Proof.
  cbv zeta. unfold Helpers.safeClick.
  assert (Ht : exists t, Helpers.click_timeout options s = mkOut (Ok t) s []).
  { unfold Helpers.click_timeout.
    destruct options as [[f [t|]]|]; try (eexists; reflexivity).
    destruct (t =? 0); eexists; reflexivity. }
  destruct Ht as [t Ht]. rewrite (bind_pure _ _ _ _ Ht).
  unfold Helpers.retry.
  match goal with
  | |- context [Helpers.retry_from ?op ?N ?d ?a ?e ?s] =>
      pose proof (retry_from_run op N d a e s) as Hrun;
      remember (Helpers.retry_from op N d a e s) as o eqn:Ho; clear Ho
  end.
  repeat apply conj.
  - eapply run_clicks; [|exact Hrun].
    intros s0. unfold Helpers.waitForElement, Helpers.default_MEDIUM.
    unfold_monad; simpl_out.
    engine_step; [engine_step|]; unfold clicks_on; cbn; rewrite ?Locator_eqb_refl;
      reflexivity.
  - eapply run_log_lines. exact Hrun.
  - intros l'. clear - Hrun.
    induction Hrun as [| |attempt lastError s0 error o Hle Hres Hrun IH]; simpl_out;
      try reflexivity.
    cbn [attached_checks]. unfold round_wait.
    destruct (attempt <? 3); cbn [app attached_checks]; exact IH.
Qed.
End SafeClick.

Lemma clicks_on_nil (l : Locator) : clicks_on l [] = 0%nat.
Proof. reflexivity. Qed.

Lemma clicks_on_console (l : Locator) lvl msg tr :
  clicks_on l (Console lvl msg :: tr) = clicks_on l tr.
Proof. reflexivity. Qed.

Lemma clicks_on_did (l : Locator) a r tr :
  clicks_on l (Did a r :: tr)
  = ((if is_click_on l (Did a r) then 1 else 0) + clicks_on l tr)%nat.
Proof.
  unfold clicks_on, flatten. cbn [flat_map flatten_event app filter].
  destruct (is_click_on l (Did a r)); reflexivity.
Qed.

Lemma attached_checks_app (l : Locator) (a b : list Event) :
  attached_checks l (a ++ b) = (attached_checks l a ++ attached_checks l b)%list.
Proof.
  induction a as [|ev a IH]; [reflexivity|].
  destruct ev as [lvl msg|act r|u|ms|rej inner]; cbn [app attached_checks]; try exact IH.
  destruct act; try exact IH.
  destruct (Locator_eqb l l0 && String.eqb state "attached")%bool; cbn [app];
    rewrite IH; reflexivity.
Qed.

Ltac count_clicks :=
  repeat first [ rewrite clicks_on_app | rewrite clicks_on_console | rewrite clicks_on_did
               | rewrite clicks_on_nil ];
  cbn [is_click_on].

(** The next [safeClick] whose starting state is known. *)
Ltac safe_click_step :=
  match goal with
  | |- context [Helpers.safeClick ?l ?o ?s] =>
      lazymatch s with
      | context [engine_do] => fail
      | context [Helpers.safeClick] => fail
      | _ => idtac
      end;
      let H := fresh "Hclick" in
      let Hlog := fresh "Hlog" in
      pose proof (safeClick_clicks l o s) as H; cbv zeta in H;
      destruct H as (H & Hlog & ?);
      destruct (Helpers.safeClick l o s) as [[[]|?] ? ?]; simpl_out
  end.


(** ** The strategies of [navigateToLists] *)

Lemma prefix_append (p x : string) : String.prefix p (p ++ x) = true.
Proof.
  induction p as [|c p IH]; cbn; [destruct x; reflexivity|].
  destruct (ascii_dec c c); [exact IH | congruence].
Qed.

Lemma log_lines_app (a b : list Event) :
  log_lines (a ++ b) = (log_lines a ++ log_lines b)%list.
Proof.
  induction a as [|ev a IH]; [reflexivity|].
  destruct ev as [[] msg|act r|u|ms|rej inner]; cbn [app log_lines]; rewrite ?IH; reflexivity.
Qed.

Lemma attempted_app (a b : list Event) :
  attempted (a ++ b) = (attempted a ++ attempted b)%list.
Proof. unfold attempted. rewrite log_lines_app, filter_app. reflexivity. Qed.

Lemma confirmed_app (a b : list Event) :
  confirmed (a ++ b) = (confirmed a ++ confirmed b)%list.
Proof. unfold confirmed. rewrite log_lines_app, filter_app. reflexivity. Qed.

Lemma attempted_silent (tr : list Event) : log_lines tr = [] -> attempted tr = [].
Proof. unfold attempted. intros ->. reflexivity. Qed.

Lemma confirmed_silent (tr : list Event) : log_lines tr = [] -> confirmed tr = [].
Proof. unfold confirmed. intros ->. reflexivity. Qed.

Lemma strategies_from_S (i : Z) (k : nat) :
  strategies_from i (S k) = (i + 1) :: strategies_from (i + 1) k.
Proof.
  unfold strategies_from. cbn [seq map]. f_equal.
  rewrite <- seq_shift, map_map. apply map_ext. intros j. lia.
Qed.

Section Strategies.
Context {W : Type} {E : Engine W}.
Variable this : @StandardListPage.t W.

Lemma try_strategy_obs (strategy : Config.Constants -> Locator) (i : Z) (s : St W) :
  let o := StandardListPage.try_strategy this strategy i s in
  exists b,
    result o = Ok b /\
    attempted (trace o) = [trying_msg (i + 1)] /\
    confirmed (trace o) = (if b then [success_msg (i + 1)] else []) /\
    (b = true -> In (confirmation this) (trace o)).
Proof.
  cbv zeta. unfold StandardListPage.try_strategy, trying_msg, success_msg, confirmation.
  generalize (of_number (i + 1)). intros n.
  assert (Htry : startsWith ("Trying Lists menu click strategy " ++ n)
                            "Trying Lists menu click strategy " = true)
    by apply prefix_append.
  assert (Hsucc : startsWith ("Successfully clicked Lists using strategy " ++ n)
                             "Successfully clicked Lists using strategy " = true)
    by apply prefix_append.
  unfold_monad; simpl_out.
  engine_step.
  2:{ exists false. repeat rewrite attempted_app, confirmed_app.
      unfold attempted, confirmed. cbn [log_lines filter app]. rewrite Htry.
      repeat split; try reflexivity. discriminate. }
  destruct r; simpl_out.
  2:{ exists false. repeat rewrite attempted_app, confirmed_app.
      unfold attempted, confirmed. cbn [log_lines filter app]. rewrite Htry.
      repeat split; try reflexivity. discriminate. }
  simpl_out. safe_click_step.
  2:{ exists false. repeat rewrite ?attempted_app, ?confirmed_app.
      rewrite (attempted_silent _ Hlog), (confirmed_silent _ Hlog).
      unfold attempted, confirmed. cbn [log_lines filter app]. rewrite Htry.
      repeat split; try reflexivity. discriminate. }
  engine_step.
  2:{ exists false. repeat rewrite ?attempted_app, ?confirmed_app.
      rewrite (attempted_silent _ Hlog), (confirmed_silent _ Hlog).
      unfold attempted, confirmed. cbn [log_lines filter app]. rewrite Htry.
      repeat split; try reflexivity. discriminate. }
  engine_step.
  2:{ exists false. repeat rewrite ?attempted_app, ?confirmed_app.
      rewrite (attempted_silent _ Hlog), (confirmed_silent _ Hlog).
      unfold attempted, confirmed. cbn [log_lines filter app]. rewrite Htry.
      repeat split; try reflexivity. discriminate. }
  engine_step.
  2:{ exists false. repeat rewrite ?attempted_app, ?confirmed_app.
      rewrite (attempted_silent _ Hlog), (confirmed_silent _ Hlog).
      unfold attempted, confirmed. cbn [log_lines filter app]. rewrite Htry.
      repeat split; try reflexivity. discriminate. }
  branch.
  - exists true. repeat rewrite ?attempted_app, ?confirmed_app.
    rewrite (attempted_silent _ Hlog), (confirmed_silent _ Hlog).
    unfold attempted, confirmed. cbn [log_lines filter app]. rewrite Htry, Hsucc.
    repeat split; try reflexivity. intros _. find_event.
  - exists false. repeat rewrite ?attempted_app, ?confirmed_app.
    rewrite (attempted_silent _ Hlog), (confirmed_silent _ Hlog).
    unfold attempted, confirmed. cbn [log_lines filter app]. rewrite Htry.
    repeat split; try reflexivity. discriminate.
Qed.
End Strategies.

Section StrategyLoop.
Context {W : Type} {E : Engine W}.
Variable this : @StandardListPage.t W.

(** The loop tries the strategies in order, stops at the first that is
    confirmed, and never throws. *)
Lemma strategy_loop_obs (strategies : list (Config.Constants -> Locator)) :
  forall (i : Z) (s : St W),
    let o := StandardListPage.strategy_loop this strategies i s in
    exists (b : bool) (k : nat),
      result o = Ok b /\
      (k <= List.length strategies)%nat /\
      attempted (trace o) = map trying_msg (strategies_from i k) /\
      confirmed (trace o) = (if b then [success_msg (i + Z.of_nat k)] else []) /\
      (b = false -> k = List.length strategies) /\
      (b = true -> (1 <= k)%nat /\ In (confirmation this) (trace o)).
Proof.
  induction strategies as [|strategy rest IH]; intros i s; cbv zeta.
  - exists false, 0%nat. cbn. repeat split; try reflexivity; try lia; discriminate.
  - cbn [StandardListPage.strategy_loop]. unfold bind.
    destruct (try_strategy_obs this strategy i s) as (b1 & Hres & Hatt & Hconf & Hin).
    cbv zeta in *.
    destruct (StandardListPage.try_strategy this strategy i s) as [r1 s1 t1]; simpl_out.
    subst r1. destruct b1; simpl_out.
    + exists true, 1%nat. unfold ret. simpl_out. cbn [List.length].
      rewrite app_nil_r, Hatt, Hconf.
      repeat split; try reflexivity; try lia; try discriminate.
      apply Hin. reflexivity.
    + destruct (IH (i + 1) s1) as (b & k & Hres' & Hk & Hatt' & Hconf' & Hfalse & Htrue).
      cbv zeta in *.
      destruct (StandardListPage.strategy_loop this rest (i + 1) s1) as [r2 s2 t2];
        simpl_out. subst r2.
      exists b, (S k).
      rewrite attempted_app, confirmed_app, Hatt, Hconf, Hatt', Hconf'.
      rewrite strategies_from_S. cbn [List.length map app].
      replace (i + Z.of_nat (S k)) with (i + 1 + Z.of_nat k) by lia.
      repeat split; try reflexivity; try lia.
      * intros Hb. rewrite (Hfalse Hb). reflexivity.
      * apply in_or_app. right. apply Htrue. assumption.
Qed.
End StrategyLoop.


(** A call of [retry] writes nothing with [console.log], and what it
    throws is its own report of failure. *)
Lemma retry_obs {W} {E : Engine W} {T} (operation : M W T) (N d : Z) (s : St W) :
  let o := Helpers.retry operation (Some N) (Some d) s in
  log_lines (trace o) = [] /\
  forall e, result o = Throw e -> exists lastError, e = retry_failure N lastError.
Proof.
  cbv zeta. unfold Helpers.retry. split.
  - eapply run_log_lines. apply retry_from_run.
  - intros e He.
    destruct (run_outline operation N d 1 None s _ (retry_from_run operation N d 1 None s))
      as [errs [H|H]].
    + destruct H as (v & s' & pre & _ & Hres & _). rewrite Hres in He. discriminate.
    + destruct H as (_ & Hres & _). rewrite Hres in He. injection He as <-.
      eexists. reflexivity.
Qed.

Ltac retry_step :=
  match goal with
  | |- context [Helpers.retry ?op (Some ?N) (Some ?d) ?s] =>
      lazymatch s with
      | context [engine_do] => fail
      | _ => idtac
      end;
      let Hsilent := fresh "Hsilent" in
      let Hfail := fresh "Hfail" in
      destruct (retry_obs op N d s) as (Hsilent & Hfail); cbv zeta in Hsilent, Hfail;
      destruct (Helpers.retry op (Some N) (Some d) s) as [[[]|?] ? ?]; simpl_out
  end.

Ltac loop_step :=
  match goal with
  | |- context [StandardListPage.strategy_loop ?this ?l ?i ?s] =>
      lazymatch s with
      | context [engine_do] => fail
      | _ => idtac
      end;
      let b := fresh "b" in
      let k := fresh "k" in
      destruct (strategy_loop_obs this l i s)
        as (b & k & Hres & Hk & Hatt & Hconf & Hfalse & Htrue);
      cbv zeta in Hres, Hatt, Hconf, Htrue;
      destruct (StandardListPage.strategy_loop this l i s) as [? ? ?]; simpl_out;
      subst; simpl_out
  end.

(** Evaluates the tests on messages that are literals. *)
Ltac known_messages :=
  repeat match goal with
         | |- context [startsWith ?a ?b] =>
             let v := eval vm_compute in (startsWith a b) in
             change (startsWith a b) with v
         end.

(** Brings [attempted] and [confirmed] of a trace to the lines that
    count. *)
Ltac observe :=
  repeat rewrite ?attempted_app, ?confirmed_app;
  repeat match goal with
         | H : log_lines ?t = [] |- _ =>
             rewrite ?(attempted_silent t H), ?(confirmed_silent t H); clear H
         | H : attempted ?t = _ |- context [attempted ?t] => rewrite H
         | H : confirmed ?t = _ |- context [confirmed ?t] => rewrite H
         end;
  unfold attempted, confirmed; cbn [log_lines filter app];
  known_messages; cbn [app]; rewrite ?app_nil_r.

(** A run that did not reach the strategies. *)
Ltac no_strategy :=
  exists 0%nat; observe;
  repeat apply conj;
  [ lia | reflexivity | left; reflexivity
  | let H := fresh in intros H; discriminate H
  | let H := fresh in intros [H _]; discriminate H
  | intros _; left; reflexivity
  | intros _; left; split; [reflexivity | unfold early_return; find_event] ].

(** A run that went through the strategies. *)
Ltac through_strategies :=
  loop_step;
  match goal with
  | Hk : (?k <= _)%nat, Hfalse : ?b = false -> _, Htrue : ?b = true -> _ |- _ =>
      cbn [List.length StandardListPage.selectorStrategies] in Hk, Hfalse;
      cbn [Z.add] in *;
      exists k; destruct b; simpl_out; observe;
      repeat apply conj;
      [ lia | reflexivity
      | right; destruct (Htrue eq_refl) as [? ?];
        repeat apply conj; [assumption | reflexivity | find_event | reflexivity]
      | let H := fresh in intros H; discriminate H
      | let H := fresh in intros [_ H]; discriminate H
      | let H := fresh in intros H; discriminate H
      | destruct (Htrue eq_refl) as [? ?]; lia
      | lia | reflexivity
      | left; reflexivity
      | rewrite (Hfalse eq_refl); intros _; split; reflexivity
      | intros _; reflexivity
      | intros _; right; exact (Hfalse eq_refl)
      | pose proof (Hfalse eq_refl); lia ]
  end.

(** A run in which the menu could not be expanded. *)
Ltac expansion_failed :=
  match goal with
  | Hfail : forall e, Throw ?e0 = Throw e -> _ |- _ =>
      let last := fresh "last" in
      destruct (Hfail e0 eq_refl) as [last ->]
  end;
  exists 0%nat; observe;
  repeat apply conj;
  [ lia | reflexivity | left; reflexivity
  | let H := fresh in
    intros H; injection H as H; revert H;
    unfold all_strategies_failed, retry_failure, Error, error_to_string; cbn; discriminate
  | let H := fresh in intros [H _]; discriminate H
  | intros _; left; reflexivity
  | intros _; right; eexists; reflexivity ].

Ltac expand_then_strategies :=
  retry_step; [through_strategies | expansion_failed].

Ltac after_early_check :=
  engine_step;
  [ match goal with
    | |- context [if negb ?r then _ else _] => destruct r; simpl_out
    end;
    [through_strategies | expand_then_strategies]
  | expand_then_strategies ].


(** * The other operations *)

(** ** More on [retry] *)

(** X1. With a maximum of zero or fewer attempts, [retry] never invokes
    the operation: it throws at once, leaving the state as it was and
    writing nothing, and its message reports the last error as undefined. *)
Theorem retry_without_attempts {W} {E : Engine W} {T}
    (operation : M W T) (N : Z) (d : option Z) (s : St W) :
  N <= 0 ->
  Helpers.retry operation (Some N) d s = mkOut (Throw (undefined_failure N)) s [].
Proof.
  intros HN. unfold Helpers.retry. rewrite Helpers.retry_from_equation_1.
  destruct (Z_le_dec 1 N) as [Hle|Hgt]; [lia|]. reflexivity.
Qed.

Lemma retry_without_attempts_witness :
  0 <= 0 /\
  Helpers.retry click_late_button (Some 0) None (Sim.blank None appears_at_10 Sim.nothing_broken)
  = mkOut (Throw (undefined_failure 0)) (Sim.blank None appears_at_10 Sim.nothing_broken) [].
Proof.
  split; [lia | apply (retry_without_attempts click_late_button 0 None); lia].
Defined.

(** X2. When the maximum is at least one and the operation fulfils at the
    first attempt, [retry] returns its value after this one invocation: no
    warning, no timer, and the state is the one the operation left. *)
Theorem retry_returns_first_success {W} {E : Engine W} {T}
    (operation : M W T) (N : Z) (d : option Z) (s : St W) (v : T) :
  1 <= N ->
  result (operation s) = Ok v ->
  Helpers.retry operation (Some N) d s
  = mkOut (Ok v) (final (operation s)) [Invoke None (trace (operation s))].
Proof.
  intros HN Hv. unfold Helpers.retry. rewrite Helpers.retry_from_equation_1.
  destruct (Z_le_dec 1 N) as [Hle|Hgt]; [|lia].
  cbn [Helpers.retry_from_unfold_clause_1]. unfold try_catch, invoke.
  destruct (operation s) as [r s1 t1]; simpl_out. subst r. reflexivity.
Qed.

Lemma run_warnings {W} {E : Engine W} {T} (operation : M W T) (N d : Z)
    attempt lastError s o :
  retry_run operation N d attempt lastError s o ->
  warn_lines (trace o) = warnings_from N attempt (rejections (trace o)).
Proof.
  induction 1 as [| |attempt lastError s error o Hle Hres Hrun IH]; simpl_out;
    try reflexivity.
  cbn [warn_lines rejections warnings_from]. f_equal.
  unfold round_wait. destruct (attempt <? N); cbn [app warn_lines rejections]; exact IH.
Qed.


(** ** The attempts of [safeClick] *)

Lemma run_invocations {W} {E : Engine W} {T} (operation : M W T) (N d : Z)
    attempt lastError s o :
  retry_run operation N d attempt lastError s o ->
  Forall (fun i => exists s', i = (rejection (result (operation s')), trace (operation s')))
         (invocations (trace o)).
Proof.
  induction 1 as [|attempt lastError s v Hle Hres
                  |attempt lastError s error o Hle Hres Hrun IH]; simpl_out.
  - constructor.
  - constructor; [|constructor]. exists s. rewrite Hres. reflexivity.
  - cbn [invocations]. constructor.
    + exists s. rewrite Hres. reflexivity.
    + unfold round_wait. destruct (attempt <? N); cbn [app invocations]; exact IH.
Qed.

Lemma invocations_outcomes (tr : list Event) :
  List.length (invocations tr) = List.length (outcomes tr).
Proof.
  induction tr as [|ev tr IH]; [reflexivity|].
  destruct ev; cbn [invocations outcomes List.length]; rewrite ?IH; reflexivity.
Qed.

(** X4. [safeClick] makes at most three attempts; each waits for the
    element with the effective timeout and clicks only if the wait
    fulfilled; and when [safeClick] throws, the error is that of [retry]
    after 3 attempts, with its last error. *)
Theorem safeClick_protocol {W} {E : Engine W} (l : Locator)
    (options : option Helpers.ClickOptions) (s : St W) :
  safe_click_protocol l options s.
Proof.
  unfold safe_click_protocol. cbv zeta. unfold Helpers.safeClick.
  assert (Ht : Helpers.click_timeout options s
               = mkOut (Ok (effective_timeout options (constants (process s)))) s []).
  { unfold Helpers.click_timeout, effective_timeout.
    destruct options as [[f [t|]]|]; try reflexivity.
    cbn [Helpers.timeout]. destruct (t =? 0); reflexivity. }
  rewrite (bind_pure _ _ _ _ Ht).
  set (T := effective_timeout options (constants (process s))).
  unfold Helpers.retry.
  match goal with
  | |- context [Helpers.retry_from ?op ?N ?d ?a ?e ?s] =>
      pose proof (retry_from_run op N d a e s) as Hrun;
      remember (Helpers.retry_from op N d a e s) as o eqn:Ho; clear Ho
  end.
  destruct (run_outline _ _ _ _ _ _ _ Hrun) as [errs Hout].
  cbn [answer] in *.
  repeat apply conj.
  - rewrite invocations_outcomes.
    destruct Hout as [H|H].
    + destruct H as (v & s' & pre & Hlen & _ & _ & Hout & _).
      rewrite Hout, length_app, length_map. cbn in *. lia.
    + destruct H as (Hlen & _ & _ & Hout). rewrite Hout, length_map. cbn in *. lia.
  - eapply Forall_impl; [|exact (run_invocations _ _ _ _ _ _ _ Hrun)].
    intros i [s' ->]. unfold safe_click_attempt.
    unfold Helpers.waitForElement, Helpers.default_MEDIUM.
    unfold_monad; simpl_out.
    engine_step.
    + destruct r. engine_step; right; eexists; reflexivity.
    + left. eexists; reflexivity.
  - intros err Herr. destruct Hout as [H|H].
    + destruct H as (v & s' & pre & _ & Hres & _). rewrite Hres in Herr. discriminate.
    + destruct H as (Hlen & Hres & _). rewrite Hres in Herr. injection Herr as <-.
      destruct errs as [|e errs]; [cbn in Hlen; lia|].
      destruct (last_map_Some (e :: errs) None) as (x & Hx & _); [discriminate|].
      exists x. rewrite Hx. reflexivity.
Qed.

(** ** Navigation in mock mode *)

Lemma probes_only_app (a b : list Event) :
  probes_only a -> probes_only b -> probes_only (a ++ b).
Proof.
  unfold probes_only. rewrite flatten_app, calls_app, forallb_app.
  intros -> ->. reflexivity.
Qed.

Lemma counts_of_app (l : Locator) (a b : list Event) :
  counts_of l (a ++ b) = (counts_of l a ++ counts_of l b)%list.
Proof. unfold counts_of. apply flat_map_app. Qed.

Lemma contents_app (a b : list Event) : contents (a ++ b) = (contents a ++ contents b)%list.
Proof. unfold contents. apply flat_map_app. Qed.

Lemma mock_probe_is_probe (l : list Action) :
  forallb mock_probe l = true -> forallb is_probe l = true.
Proof.
  induction l as [|a l IH]; [reflexivity|]. cbn [forallb].
  intros H. apply andb_prop in H. destruct H as [Ha Hl].
  rewrite (IH Hl), andb_true_r. destruct a; try discriminate; reflexivity.
Qed.

(** Mock-mode detection never throws, makes its own queries only, and
    never reads the document. *)
Lemma isRunningInMockMode_obs {W} {E : Engine W} (s : St W) :
  let o := WatchlistManagerPage.isRunningInMockMode s in
  (exists b, result o = Ok b) /\
  forallb mock_probe (calls (flatten (trace o))) = true /\
  (forall l, mock_probe (locator_count l) = false -> counts_of l (trace o) = []) /\
  contents (trace o) = [].
Proof.
  cbv zeta. unfold WatchlistManagerPage.isRunningInMockMode.
  unfold_monad; simpl_out.
  assert (Hcount : forall l l', mock_probe (locator_count l) = false ->
                     mock_probe (locator_count l') = true -> Locator_eqb l l' = false).
  { intros l l' Hl Hl'. destruct (Locator_eqb l l') eqn:Heq; [|reflexivity].
    assert (l = l').
    { clear - Heq. revert l' Heq. induction l; destruct l'; cbn; try discriminate; intros H.
      - apply String.eqb_eq in H. congruence.
      - f_equal. auto.
      - apply andb_prop in H. destruct H as [H1 H2]. apply String.eqb_eq in H2.
        f_equal; auto.
      - apply andb_prop in H. destruct H as [H1 H2]. apply Nat.eqb_eq in H2.
        f_equal; auto. }
    subst. congruence. }
  repeat first [engine_step | branch];
    (repeat apply conj;
     [ eexists; reflexivity
     | reflexivity
     | intros l Hl; unfold counts_of; cbn [flat_map count_of app];
       repeat first [ rewrite (Hcount l WatchlistManagerPage.mock_indicator Hl eq_refl)
                    | rewrite (Hcount l WatchlistManagerPage.mock_dashboard_h1 Hl eq_refl)
                    | rewrite (Hcount l WatchlistManagerPage.mock_mode_p Hl eq_refl) ];
       reflexivity
     | reflexivity ]).
Qed.

Lemma run_counts {W} {E : Engine W} {T} (operation : M W T) (N d : Z) (l : Locator)
    attempt lastError s o :
  retry_run operation N d attempt lastError s o ->
  counts_of l (trace o) = [] /\ contents (trace o) = [].
Proof.
  induction 1 as [| |attempt lastError s error o Hle Hres Hrun IH]; simpl_out;
    try (split; reflexivity).
  unfold counts_of, contents in *. cbn [flat_map count_of content_of app].
  unfold round_wait. destruct (attempt <? N); cbn [app flat_map count_of content_of]; exact IH.
Qed.

Lemma safeClick_counts {W} {E : Engine W} (l' l : Locator)
    (options : option Helpers.ClickOptions) (s : St W) :
  counts_of l (trace (Helpers.safeClick l' options s)) = [] /\
  contents (trace (Helpers.safeClick l' options s)) = [].
Proof.
  unfold Helpers.safeClick.
  assert (Ht : exists t, Helpers.click_timeout options s = mkOut (Ok t) s []).
  { unfold Helpers.click_timeout.
    destruct options as [[f [t|]]|]; try (eexists; reflexivity).
    destruct (t =? 0); eexists; reflexivity. }
  destruct Ht as [t Ht]. rewrite (bind_pure _ _ _ _ Ht).
  unfold Helpers.retry. eapply run_counts. apply retry_from_run.
Qed.

Lemma waitForElement_counts {W} {E : Engine W} (l' l : Locator) (t : option Z) (s : St W) :
  counts_of l (trace (Helpers.waitForElement l' t s)) = [] /\
  contents (trace (Helpers.waitForElement l' t s)) = [].
Proof.
  unfold Helpers.waitForElement, Helpers.default_MEDIUM.
  destruct t; unfold_monad; simpl_out; engine_step; split; reflexivity.
Qed.

(** The next call of mock-mode detection, with what is known of it. *)
Ltac mock_mode_step :=
  match goal with
  | |- context [WatchlistManagerPage.isRunningInMockMode ?s] =>
      let H := fresh "Hmock" in
      let b := fresh "isMockMode" in
      let Hb := fresh "Hb" in
      pose proof (isRunningInMockMode_obs s) as H; cbv zeta in H;
      destruct H as ([b Hb] & Hprobes & Hcounts & Hcontents);
      let r1 := fresh "r" in
      let s1 := fresh "s" in
      let t1 := fresh "t" in
      destruct (WatchlistManagerPage.isRunningInMockMode s) as [r1 s1 t1]; simpl_out;
      subst r1
  end.

(** The next call of [waitForElement] or [safeClick], which count
    nothing. *)
Ltac wait_or_click_step :=
  match goal with
  | |- context [Helpers.waitForElement ?l ?t ?s] =>
      lazymatch s with
      | context [engine_do] => fail
      | context [Helpers.safeClick] => fail
      | context [Helpers.waitForElement] => fail
      | _ => idtac
      end;
      let H := fresh "Hwait" in
      pose proof (fun l0 => waitForElement_counts l l0 t s) as H;
      let e1 := fresh "e" in
      let s1 := fresh "s" in
      let t1 := fresh "t" in
      destruct (Helpers.waitForElement l t s) as [[[]|e1] s1 t1]; simpl_out
  | |- context [Helpers.safeClick ?l ?o ?s] =>
      lazymatch s with
      | context [engine_do] => fail
      | context [Helpers.safeClick] => fail
      | context [Helpers.waitForElement] => fail
      | _ => idtac
      end;
      let H := fresh "Hsafe" in
      pose proof (fun l0 => safeClick_counts l l0 o s) as H;
      let e1 := fresh "e" in
      let s1 := fresh "s" in
      let t1 := fresh "t" in
      destruct (Helpers.safeClick l o s) as [[[]|e1] s1 t1]; simpl_out
  end.

(** Brings the counts of a trace to those the run made itself. *)
Ltac own_counts :=
  repeat rewrite ?counts_of_app;
  repeat match goal with
         | H : forall l, mock_probe (locator_count l) = false -> counts_of l ?t = []
           |- context [counts_of ?l0 ?t] => rewrite (H l0 eq_refl)
         | H : forall l, counts_of l ?t = [] /\ _ |- context [counts_of ?l0 ?t] =>
             rewrite (proj1 (H l0))
         end;
  unfold counts_of; cbn [flat_map count_of app Locator_eqb];
  rewrite ?String.eqb_refl; cbn [app].

Ltac count_value :=
  repeat match goal with
         | H : (0 <? ?r)%nat = false |- _ => destruct r; [clear H | discriminate H]
         | H : (0 <? ?r)%nat = true |- _ => destruct r; [discriminate H | clear H]
         end.

Ltac relies :=
  unfold relies_on_element; simpl_out; count_value; split;
  [ intros n Hin; first [ reflexivity | exfalso; revert Hin; own_counts; cbn [In];
                          intuition discriminate ]
  | intros err Herr; first [ discriminate Herr
                           | injection Herr as <-; eexists; split; [reflexivity|];
                             own_counts; cbn [In]; auto ] ].

(** X5. [navigateToLists] and [navigateToEUList] of [WatchlistManagerPage]
    return whenever a count found their element, in mock mode and after a
    failed click alike; they throw only when that count was rejected or
    found nothing, with their prefix and the text of a cause. *)
Theorem navigation_relies_on_the_element {W} {E : Engine W}
    (this : @WatchlistManagerPage.t W) (s : St W) :
  relies_on_element lists_menu "Failed to navigate to Lists: "
    (WatchlistManagerPage.navigateToLists this s) /\
  relies_on_element eu_list_item "Failed to navigate to EU List: "
    (WatchlistManagerPage.navigateToEUList this s).
Proof.
  split.
  - unfold WatchlistManagerPage.navigateToLists, lists_menu. unfold_monad; simpl_out.
    mock_mode_step. destruct isMockMode; simpl_out.
    + engine_step; [branch|]; relies.
    + wait_or_click_step; [wait_or_click_step|]; try engine_step; try branch; relies.
  - unfold WatchlistManagerPage.navigateToEUList, eu_list_item. unfold_monad; simpl_out.
    mock_mode_step. destruct isMockMode; simpl_out.
    + engine_step; [branch|]; relies.
    + wait_or_click_step; [wait_or_click_step|]; repeat engine_step; try branch; relies.
Qed.

Ltac probes :=
  unfold probes_only;
  repeat rewrite ?flatten_app, ?calls_app, ?forallb_app;
  repeat match goal with
         | H : forallb mock_probe (calls (flatten ?t)) = true |- context [flatten ?t] =>
             rewrite (mock_probe_is_probe _ H)
         end;
  reflexivity.

(** X6. When mock mode is detected, the three navigations only look at the
    page: every call is [page.title()] or [locator.count()], never a wait
    or a click; and [navigateToStandardLists] returns even if its count is
    rejected. *)
Theorem mock_mode_navigation_only_looks {W} {E : Engine W}
    (this : @WatchlistManagerPage.t W) (s : St W) :
  result (WatchlistManagerPage.isRunningInMockMode s) = Ok true ->
  probes_only (trace (WatchlistManagerPage.navigateToLists this s)) /\
  probes_only (trace (WatchlistManagerPage.navigateToStandardLists this s)) /\
  probes_only (trace (WatchlistManagerPage.navigateToEUList this s)) /\
  result (WatchlistManagerPage.navigateToStandardLists this s) = Ok tt.
Proof.
  intros Hmode.
  unfold WatchlistManagerPage.navigateToLists, WatchlistManagerPage.navigateToStandardLists,
    WatchlistManagerPage.navigateToEUList.
  unfold_monad; simpl_out.
  mock_mode_step.
  match goal with
  | H : Ok _ = Ok _ |- _ => injection H as H; subst
  end.
  simpl_out. repeat apply conj.
  - engine_step; [branch|]; probes.
  - engine_step; [branch|]; probes.
  - engine_step; [branch|]; probes.
  - engine_step; [branch|]; reflexivity.
Qed.

(** ** More handlers that log and throw anew *)

Section RethrowNaming.
Context {W : Type} {E : Engine W}.

Lemma guarded_rethrows_naming {A} (get : Config.Constants -> string) (before after : string)
    (body : M W A) :
  keeps_constants body ->
  rethrows_naming get before after
    (TRY body CATCH error =>
       (name <- (c <- get_constants ;; ret (get c)) ;;
        console_error (before ++ name ++ after ++ error_to_string error) ;;
        name <- (c <- get_constants ;; ret (get c)) ;;
        throw (Error (before ++ name ++ after ++ error_to_string error)))).
Proof.
  intros Hkeep s err. specialize (Hkeep s). unfold_monad.
  destruct (body s) as [[v|cause] s' tr]; simpl_out; intros H; [discriminate|].
  injection H as <-. exists cause. cbv zeta. rewrite Hkeep.
  split; [reflexivity|]. apply in_or_app. right. left. reflexivity.
Qed.
End RethrowNaming.

(** The handler of [navigateToEUListWithoutAssertion], which asks for a
    screenshot between the log and the throw: whether the screenshot is
    taken or not, the error is the same. *)
Lemma navigateToEUListWithoutAssertion_rethrows {W} {E : Engine W}
    (this : @WatchlistManagerPage.t W) :
  rethrows_decorated "Navigation sequence to EU List failed: "
    (WatchlistManagerPage.navigateToEUListWithoutAssertion this).
Proof.
  intros s err. unfold WatchlistManagerPage.navigateToEUListWithoutAssertion.
  match goal with
  | |- context [try_catch ?b ?h] => generalize b; intros body
  end.
  unfold WatchlistManagerPage.debug_screenshot. unfold_monad.
  destruct (body s) as [[v|cause] s' tr]; simpl_out; [discriminate|].
  engine_step; intros H; injection H as <-; exists cause;
    (split; [reflexivity | apply in_or_app; right; left; reflexivity]).
Qed.


(** The next call of the operation [op], whose outcome is left open. *)
Ltac sub_step op :=
  match goal with
  | |- context [op ?s] =>
      let e1 := fresh "e" in
      let s1 := fresh "s" in
      let t1 := fresh "t" in
      destruct (op s) as [[[]|e1] s1 t1]; simpl_out
  end.

Ltac same_failure :=
  split; [ intros err Herr; split; [exact Herr | reflexivity]
         | intros Hok; discriminate Hok ].

(** X8. [navigateToSynonymRulesAndAssert] is the sequence without
    assertion followed by [assertAgencyRulePresent]: a failure of the
    sequence is the same error in the same state; after a successful
    sequence the calls are those of the sequence and then those of the
    assertion, whose failure is wrapped with Navigation sequence failed. *)
Theorem assertion_follows_the_sequence {W} {E : Engine W}
    (this : @WatchlistManagerPage.t W) (s : St W) :
  asserting_sequence this s.
Proof.
  unfold asserting_sequence. cbv zeta.
  unfold WatchlistManagerPage.navigateToSynonymRulesWithoutAssertion,
      WatchlistManagerPage.navigateToSynonymRulesAndAssert,
    WatchlistManagerPage.wait_idle_SHORT.
  unfold_monad; simpl_out.
  sub_step (WatchlistManagerPage.clickMainMenu this); [|same_failure].
  engine_step; [|same_failure].
  sub_step (WatchlistManagerPage.navigateToWatchlistManager this); [|same_failure].
  engine_step; [|same_failure].
  sub_step (WatchlistManagerPage.navigateToSynonyms this); [|same_failure].
  engine_step; [|same_failure].
  sub_step (WatchlistManagerPage.navigateToSynonymsRulesManager this); [|same_failure].
  engine_step; [|same_failure].
  sub_step (WatchlistManagerPage.sortNameColumnIfNeeded this); [|same_failure].
  sub_step (WatchlistManagerPage.clickWeightedWordsRuleSet this); [|same_failure].
  split; [intros err Herr; discriminate Herr|]. intros _.
  sub_step (WatchlistManagerPage.assertAgencyRulePresent this);
    repeat apply conj; try reflexivity;
    repeat rewrite ?calls_app; cbn [calls app]; rewrite ?app_nil_r;
    repeat first [rewrite <- app_assoc | rewrite <- app_comm_cons]; reflexivity.
Qed.

(** X9. When [page.title()] is rejected at the first step, both sequences
    throw an error that carries the whole chain of prefixes and the text
    of the rejection, and they write it with [console.error]. *)
Theorem sequence_failure_names_the_step {W} {E : Engine W}
    (this : @WatchlistManagerPage.t W) :
  decorates_failure_of (fun _ => page_title)
    "Navigation sequence failed: Error: Failed to click main menu button: "
    (WatchlistManagerPage.navigateToSynonymRulesWithoutAssertion this) /\
  decorates_failure_of (fun _ => page_title)
    "Navigation sequence failed: Error: Failed to click main menu button: "
    (WatchlistManagerPage.navigateToSynonymRulesAndAssert this).
Proof.
  split; intros s cause w' Hcall;
    unfold WatchlistManagerPage.navigateToSynonymRulesWithoutAssertion,
      WatchlistManagerPage.navigateToSynonymRulesAndAssert,
      WatchlistManagerPage.clickMainMenu;
    unfold_monad; simpl_out; rewrite Hcall; simpl_out;
    (split; [reflexivity | cbn [app]; repeat first [left; reflexivity | right]]).
Qed.

(** ** The assertion on eu_name *)

Ltac own_contents :=
  repeat rewrite ?contents_app;
  repeat match goal with
         | H : contents ?t = [] |- context [contents ?t] => rewrite H
         | H : forall l, counts_of l ?t = [] /\ contents ?t = [] |- context [contents ?t] =>
             rewrite (proj2 (H (locator EmptyString)))
         end;
  unfold contents; cbn [flat_map content_of app].


Lemma screenshot_rejections_app (a b : list Event) :
  screenshot_rejections (a ++ b) = (screenshot_rejections a ++ screenshot_rejections b)%list.
Proof. unfold screenshot_rejections. apply flat_map_app. Qed.

(** The errors that the handler of [assertEuNamePresent] passes on as
    they came. *)
Lemma passed_on (e : JsError) :
  (negb (String.eqb (err_message e) EmptyString)
   && negb (includes (err_message e) "EU List Validation Failed"))%bool = false ->
  includes (err_message e) "EU List Validation Failed" = true \/
  err_message e = EmptyString.
Proof.
  destruct (String.eqb (err_message e) EmptyString) eqn:He.
  - intros _. right. apply String.eqb_eq. exact He.
  - destruct (includes (err_message e) "EU List Validation Failed"); [|discriminate].
    intros _. left. reflexivity.
Qed.

Ltac validated :=
  unfold validation_error; simpl_out;
  first
    [ discriminate
    | intros Herr; injection Herr as <-;
      first
        [ discriminate
        | solve [left; reflexivity]
        | match goal with
          | H : (negb (String.eqb (err_message ?e) EmptyString) && negb (includes _ _))%bool = false
            |- _ => solve [destruct (passed_on e H) as [?|?]; [left | right; left]; assumption]
          end
        | solve [right; right; repeat rewrite ?screenshot_rejections_app;
                 unfold screenshot_rejections; cbn [flat_map screenshot_rejection app];
                 repeat first [ left; reflexivity | right | apply in_or_app; right ]] ] ].

(** X11. Every error that leaves [assertEuNamePresent] is one of its
    validation failures, an error with an empty message passed on as it
    came, or the rejection of a screenshot the run asked for. *)
Theorem assertEuNamePresent_errors {W} {E : Engine W}
    (this : @WatchlistManagerPage.t W) (s : St W) (err : JsError) :
  let o := WatchlistManagerPage.assertEuNamePresent this s in
  result o = Throw err -> validation_error (trace o) err.
Proof.
  cbv zeta.
  unfold WatchlistManagerPage.assertEuNamePresent, WatchlistManagerPage.EU_NAME_TEXT,
    WatchlistManagerPage.debug_screenshot, Helpers.elementExists.
  unfold_monad; simpl_out.
  mock_mode_step. destruct isMockMode; simpl_out.
  - repeat first [engine_step | branch]; validated.
  - repeat first [engine_step | branch]; validated.
Qed.

(** ** The main menu and the eu_name text of [StandardListPage] *)

Lemma visibility_checks_app (l : Locator) (a b : list Event) :
  visibility_checks l (a ++ b) = (visibility_checks l a ++ visibility_checks l b)%list.
Proof. unfold visibility_checks. apply flat_map_app. Qed.

Lemma fulfilled_expectations_app (a b : list Event) :
  fulfilled_expectations (a ++ b)
  = (fulfilled_expectations a ++ fulfilled_expectations b)%list.
Proof. unfold fulfilled_expectations. apply flat_map_app. Qed.

Lemma run_visibility {W} {E : Engine W} {T} (operation : M W T) (N d : Z) (l : Locator)
    attempt lastError s o :
  retry_run operation N d attempt lastError s o ->
  visibility_checks l (trace o) = [].
Proof.
  induction 1 as [| |attempt lastError s error o Hle Hres Hrun IH]; simpl_out;
    try reflexivity.
  unfold visibility_checks in *. cbn [flat_map visibility_of app].
  unfold round_wait. destruct (attempt <? N); cbn [app flat_map visibility_of]; exact IH.
Qed.

Lemma safeClick_visibility {W} {E : Engine W} (l' l : Locator)
    (options : option Helpers.ClickOptions) (s : St W) :
  visibility_checks l (trace (Helpers.safeClick l' options s)) = [].
Proof.
  unfold Helpers.safeClick.
  assert (Ht : exists t, Helpers.click_timeout options s = mkOut (Ok t) s []).
  { unfold Helpers.click_timeout.
    destruct options as [[f [t|]]|]; try (eexists; reflexivity).
    destruct (t =? 0); eexists; reflexivity. }
  destruct Ht as [t Ht]. rewrite (bind_pure _ _ _ _ Ht).
  unfold Helpers.retry. eapply run_visibility. apply retry_from_run.
Qed.

(** The next [safeClick], with its clicks and what it leaves unseen. *)
Ltac click_step :=
  match goal with
  | |- context [Helpers.safeClick ?l ?o ?s] =>
      lazymatch s with
      | context [engine_do] => fail
      | context [Helpers.safeClick] => fail
      | _ => idtac
      end;
      let H := fresh "Hclick" in
      let Hv := fresh "Hunseen" in
      let e1 := fresh "e" in
      let s1 := fresh "s" in
      let t1 := fresh "t" in
      pose proof (safeClick_clicks l o s) as H; cbv zeta in H;
      destruct H as (H & _ & _);
      pose proof (fun l0 => safeClick_visibility l l0 o s) as Hv;
      destruct (Helpers.safeClick l o s) as [[[]|e1] s1 t1]; simpl_out
  end.

Ltac seen :=
  repeat rewrite ?visibility_checks_app;
  repeat match goal with
         | H : forall l, visibility_checks l ?t = [] |- context [visibility_checks ?l0 ?t] =>
             rewrite (H l0)
         end;
  unfold visibility_checks; cbn [flat_map visibility_of app];
  rewrite ?Locator_eqb_refl; cbn [app].

Ltac clicked :=
  count_clicks;
  repeat match goal with
         | H : clicks_on ?l ?t = _ |- context [clicks_on ?l ?t] => rewrite H
         end;
  cbn [is_ok Nat.add].

Ltac threw :=
  do 3 right; seen; clicked;
  split; [lia | split; [reflexivity | eexists; reflexivity]].

(** The next check of visibility: seen visible, seen not visible, or
    rejected. *)
Ltac visible_step :=
  engine_step;
  [ match goal with
    | r : answer (locator_isVisible _ _) |- _ => destruct r
    end
  | ];
  simpl_out.

Ltac after_first_click :=
  engine_step; [|threw];
  click_step; [|threw];
  engine_step; [|threw];
  visible_step;
  [ right; left; seen; clicked; repeat split
  | click_step; [right; right; left; seen; clicked; repeat split | threw]
  | click_step; [right; right; left; seen; clicked; repeat split | threw] ].


Section Alternatives.
Context {W : Type} {E : Engine W}.

(** The loop over the alternative locators answers [true] exactly when it
    saw one expectation fulfilled, on one of its locators. *)
Lemma find_alternative_obs (alternatives : list Locator) :
  forall s : St W,
    let o := StandardListPage.find_alternative alternatives s in
    match result o with
    | Ok true => exists l, In l alternatives /\ fulfilled_expectations (trace o) = [l]
    | _ => fulfilled_expectations (trace o) = []
    end.
Proof.
  induction alternatives as [|l rest IH]; intros s; cbv zeta.
  - reflexivity.
  - cbn [StandardListPage.find_alternative]. unfold_monad; simpl_out.
    visible_step.
    + engine_step.
      * exists l. split; [left; reflexivity | reflexivity].
      * reflexivity.
    + specialize (IH {| world := w; process := process s |}). cbv zeta in IH.
      destruct (StandardListPage.find_alternative rest {| world := w; process := process s |})
        as [[[|]|e] s1 t1]; simpl_out;
        rewrite ?fulfilled_expectations_app; cbn [fulfilled_expectations flat_map
                                                  fulfilled_expectation app];
        [destruct IH as (l0 & Hin & ->); exists l0; split; [right; exact Hin | reflexivity]
        | exact IH | exact IH].
    + specialize (IH {| world := w; process := process s |}). cbv zeta in IH.
      destruct (StandardListPage.find_alternative rest {| world := w; process := process s |})
        as [[[|]|e] s1 t1]; simpl_out;
        rewrite ?fulfilled_expectations_app; cbn [fulfilled_expectations flat_map
                                                  fulfilled_expectation app];
        [destruct IH as (l0 & Hin & ->); exists l0; split; [right; exact Hin | reflexivity]
        | exact IH | exact IH].
Qed.
End Alternatives.

Ltac alternatives_step :=
  match goal with
  | |- context [StandardListPage.find_alternative ?ls ?s] =>
      let H := fresh "Halt" in
      let e1 := fresh "e" in
      let s1 := fresh "s" in
      let t1 := fresh "t" in
      pose proof (find_alternative_obs ls s) as H; cbv zeta in H;
      destruct (StandardListPage.find_alternative ls s) as [[[|]|e1] s1 t1]; simpl_out
  end.

Ltac expectations :=
  repeat rewrite ?fulfilled_expectations_app;
  repeat match goal with
         | H : fulfilled_expectations ?t = _ |- context [fulfilled_expectations ?t] =>
             rewrite H
         end;
  unfold fulfilled_expectations; cbn [flat_map fulfilled_expectation app].

Ltac after_alternatives :=
  alternatives_step;
  [ intros _;
    match goal with
    | H : exists l, _ |- _ =>
        let l0 := fresh "l" in
        let Hin := fresh "Hin" in
        destruct H as (l0 & Hin & H); exists l0; split;
        [ expectations; reflexivity
        | right; apply in_or_app; left; exact Hin ]
    end
  | visible_step;
    [ engine_step;
      [ intros _; exists eu_name_in_section; split;
        [ expectations; reflexivity
        | right; apply in_or_app; right; left; reflexivity ]
      | discriminate ]
    | discriminate
    | discriminate ]
  | discriminate ].

(** X13. When [assertEuNameTextVisible] returns, exactly one expectation
    of visibility was fulfilled: on the eu_name locator of the page
    object, on one of the alternative locators, or on eu_name inside the
    Search Indexes section. *)
Theorem eu_name_assertion_is_sound {W} {E : Engine W}
    (this : @StandardListPage.t W) (s : St W) :
  let o := StandardListPage.assertEuNameTextVisible this s in
  result o = Ok tt ->
  exists l,
    fulfilled_expectations (trace o) = [l] /\
    In l (StandardListPage.euNameText this
          :: StandardListPage.alternativeLocators ++ [eu_name_in_section]).
Proof.
  cbv zeta. unfold StandardListPage.assertEuNameTextVisible.
  unfold_monad; simpl_out.
  visible_step.
  - engine_step; [|discriminate]. intros _.
    eexists. split; [reflexivity | left; reflexivity].
  - after_alternatives.
  - after_alternatives.
Qed.

(** ** The login state *)

Lemma found_element_app (a b : list Event) :
  found_element (a ++ b) = (found_element a || found_element b)%bool.
Proof. unfold found_element. apply existsb_app. Qed.

Lemma saw_mock_title_app (a b : list Event) :
  saw_mock_title (a ++ b) = (saw_mock_title a || saw_mock_title b)%bool.
Proof. unfold saw_mock_title. apply existsb_app. Qed.

Lemma all_fulfilled_app (a b : list Event) :
  all_fulfilled (a ++ b) = (all_fulfilled a && all_fulfilled b)%bool.
Proof. unfold all_fulfilled. apply forallb_app. Qed.

Lemma no_calls_no_title (tr : list Event) : calls tr = [] -> saw_mock_title tr = false.
Proof.
  induction tr as [|ev tr IH]; [reflexivity|].
  destruct ev; cbn [calls]; try discriminate; exact IH.
Qed.

Section Indicators.
Context {W : Type} {E : Engine W}.

Lemma first_present_obs (found : string) (selectors : list string) :
  forall s : St W,
    let o := LoginPage.first_present found selectors s in
    saw_mock_title (trace o) = false /\
    match result o with
    | Ok b => found_element (trace o) = b
    | Throw _ => all_fulfilled (trace o) = false
    end.
Proof.
  induction selectors as [|selector rest IH]; intros s; cbv zeta.
  - split; reflexivity.
  - cbn [LoginPage.first_present]. unfold_monad; simpl_out.
    engine_step.
    + destruct r as [|n]; cbn [Nat.ltb Nat.leb]; simpl_out.
      * specialize (IH {| world := w; process := process s |}). cbv zeta in IH.
        destruct IH as [Htitle IH].
        destruct (LoginPage.first_present found rest {| world := w; process := process s |})
          as [[b|e] s1 t1]; simpl_out;
          rewrite ?saw_mock_title_app, ?found_element_app, ?all_fulfilled_app, ?Htitle, ?IH;
          split; reflexivity.
      * split; reflexivity.
    + split; reflexivity.
Qed.

Lemma indicator_obs (mcp : option (McpSelectorFn W)) (description what : string)
    (selectors : list string) (s : St W) :
  let o := LoginPage.indicator mcp description what selectors s in
  (result o = Ok true -> found_element (trace o) = true) /\
  (quiet mcp -> saw_mock_title (trace o) = false) /\
  (quiet mcp -> forall e, result o = Throw e ->
     all_fulfilled (trace o) = false \/ saw_mock_title (trace o) = false).
Proof.
  cbv zeta. unfold LoginPage.indicator.
  assert (Hq : forall f, mcp = Some f -> quiet mcp ->
                 saw_mock_title (trace (f description s)) = false).
  { intros f Hf Hquiet. apply no_calls_no_title. apply (Hquiet f Hf). }
  assert (Hfirst : forall s0,
             let o :=
               LoginPage.first_present ("Found " ++ what ++ " with selector: ") selectors s0 in
             (result o = Ok true -> found_element (trace o) = true) /\
             saw_mock_title (trace o) = false).
  { intros s0. cbv zeta.
    destruct (first_present_obs ("Found " ++ what ++ " with selector: ") selectors s0)
      as [Htitle H]. fold (LoginPage.first_present (W := W)) in *.
    split; [|exact Htitle]. intros Hb. rewrite Hb in H. exact H. }
  destruct mcp as [f|]; unfold_monad; simpl_out.
  - specialize (Hq f eq_refl).
    destruct (f description s) as [[sel|e] s1 t1]; simpl_out.
    + engine_step; [destruct r as [|n]; cbn [Nat.ltb Nat.leb]; simpl_out|].
      all: try (match goal with
                | |- context [LoginPage.first_present ?a ?b ?s0] =>
                    destruct (Hfirst s0) as [Hb Ht];
                    destruct (LoginPage.first_present a b s0) as [r2 s2 t2]; simpl_out
                end).
      all: repeat rewrite ?saw_mock_title_app, ?found_element_app.
      all: repeat apply conj.
      all: try (intros Hr; try rewrite (Hb Hr); cbn; rewrite ?orb_true_r; reflexivity).
      all: try (intros Hquiet; try rewrite (Hq Hquiet); rewrite ?Ht; reflexivity).
      all: intros Hquiet e0 _; right; try rewrite (Hq Hquiet); rewrite ?Ht; reflexivity.
    + repeat apply conj; try discriminate.
      * intros Hquiet. rewrite (Hq Hquiet). reflexivity.
      * intros Hquiet e0 _. right. rewrite (Hq Hquiet). reflexivity.
  - destruct (Hfirst s) as [Hb Ht].
    destruct (LoginPage.first_present ("Found " ++ what ++ " with selector: ") selectors s)
      as [r2 s2 t2]; simpl_out.
    repeat apply conj.
    + exact Hb.
    + intros _. exact Ht.
    + intros _ e0 _. right. exact Ht.
Qed.
End Indicators.

(** The next indicator of [isLoggedIn], with what is known of it. *)
Ltac indicator_step :=
  match goal with
  | |- context [LoginPage.indicator ?m ?d ?w ?l ?s] =>
      lazymatch s with
      | context [LoginPage.indicator] => fail
      | _ => idtac
      end;
      let Hb := fresh "Hfound" in
      let Ht := fresh "Htitle" in
      let He := fresh "Hthrew" in
      let r1 := fresh "r" in
      let s1 := fresh "s" in
      let t1 := fresh "t" in
      destruct (indicator_obs m d w l s) as (Hb & Ht & He);
      destruct (LoginPage.indicator m d w l s) as [[r1|r1] s1 t1]; simpl_out
  end.

Ltac first_present_step :=
  match goal with
  | |- context [LoginPage.first_present ?a ?b ?s] =>
      let Ht := fresh "Htitle" in
      let Hb := fresh "Hfound" in
      let r1 := fresh "r" in
      let s1 := fresh "s" in
      let t1 := fresh "t" in
      destruct (first_present_obs a b s) as (Ht & Hb); fold (LoginPage.first_present a b s) in *;
      destruct (LoginPage.first_present a b s) as [[r1|r1] s1 t1]; simpl_out
  end.


(** X15. When the title that [isLoggedIn] read carries a mark of mock mode
    and no call was rejected, [isLoggedIn] answers true, whatever the
    counts found. *)
Theorem mock_title_forces_logged_in {W} {E : Engine W} (this : @LoginPage.t W) (s : St W) :
  let o := LoginPage.isLoggedIn this s in
  quiet (LoginPage.mcpSelector this) ->
  saw_mock_title (trace o) = true ->
  all_fulfilled (trace o) = true ->
  result o = Ok true.
Proof.
  cbv zeta. intros Hquiet. unfold LoginPage.isLoggedIn. unfold_monad; simpl_out.
  indicator_step.
  2:{ repeat rewrite ?saw_mock_title_app. rewrite (Htitle Hquiet). cbn. discriminate. }
  indicator_step.
  2:{ repeat rewrite ?saw_mock_title_app. rewrite (Htitle Hquiet), (Htitle0 Hquiet).
      cbn. discriminate. }
  indicator_step.
  2:{ repeat rewrite ?saw_mock_title_app.
      rewrite (Htitle Hquiet), (Htitle0 Hquiet), (Htitle1 Hquiet). cbn. discriminate. }
  engine_step.
  2:{ repeat rewrite ?saw_mock_title_app.
      rewrite (Htitle Hquiet), (Htitle0 Hquiet), (Htitle1 Hquiet). cbn. discriminate. }
  destruct (includes r2 "Mock" || includes r2 "Test Mode")%bool eqn:Hmock; simpl_out.
  - first_present_step.
    + reflexivity.
    + intros _. repeat rewrite ?all_fulfilled_app. rewrite Hfound2.
      rewrite ?andb_false_r. cbn. rewrite ?andb_false_r. discriminate.
  - repeat rewrite ?saw_mock_title_app.
    rewrite (Htitle Hquiet), (Htitle0 Hquiet), (Htitle1 Hquiet).
    cbn [saw_mock_title existsb mock_title orb]. unfold title_indicates_mock.
    rewrite Hmock. cbn. discriminate.
Qed.

(** ** Selectors and snapshots of the specification file *)

Lemma lower_ascii_idempotent (c : ascii) : lower_ascii (lower_ascii c) = lower_ascii c.
Proof. destruct c as [[] [] [] [] [] [] [] []]; reflexivity. Qed.

Lemma toLowerCase_idempotent (s : string) : toLowerCase (toLowerCase s) = toLowerCase s.
Proof.
  induction s as [|c s IH]; [reflexivity|].
  cbn [toLowerCase]. rewrite lower_ascii_idempotent, IH. reflexivity.
Qed.

Lemma lower_ascii_space (c : ascii) : is_space c = true -> lower_ascii c = c.
Proof. destruct c as [[] [] [] [] [] [] [] []]; cbn; intros H; try reflexivity; discriminate. Qed.

Lemma toLowerCase_app (a b : string) :
  toLowerCase (a ++ b) = toLowerCase a ++ toLowerCase b.
Proof. induction a as [|c a IH]; [reflexivity|]. cbn. rewrite IH. reflexivity. Qed.

Lemma replace_spaces_no_space (in_run : bool) (s : string) :
  has_space (replace_spaces_from in_run s) = false.
Proof.
  revert in_run. induction s as [|c s IH]; intros in_run; [reflexivity|].
  cbn [replace_spaces_from]. destruct (is_space c) eqn:Hc.
  - destruct in_run; [apply IH|]. cbn [has_space]. rewrite IH. reflexivity.
  - cbn [has_space]. rewrite Hc, IH. reflexivity.
Qed.

Lemma has_space_app (a b : string) : has_space (a ++ b) = (has_space a || has_space b)%bool.
Proof.
  induction a as [|c a IH]; [reflexivity|]. cbn. rewrite IH, orb_assoc. reflexivity.
Qed.

(** X16. The reference [generateMcpElementRef] builds starts with
    element-ref- and holds no white space. *)
Theorem element_ref_has_no_space (element : string) :
  has_space (AgencyListSpec.generateMcpElementRef element) = false /\
  startsWith (AgencyListSpec.generateMcpElementRef element) "element-ref-" = true.
Proof.
  unfold AgencyListSpec.generateMcpElementRef, replace_spaces. split.
  - rewrite has_space_app, replace_spaces_no_space. reflexivity.
  - apply prefix_append.
Qed.

Lemma replace_spaces_run (in_run : bool) (a b : string) (c1 c2 : ascii) :
  is_space c1 = true -> is_space c2 = true ->
  replace_spaces_from in_run (a ++ String c1 (String c2 b))
  = replace_spaces_from in_run (a ++ String c1 b).
Proof.
  intros H1 H2. revert in_run. induction a as [|c a IH]; intros in_run.
  - cbn [append replace_spaces_from]. rewrite H1, H2. destruct in_run; reflexivity.
  - cbn [append replace_spaces_from]. destruct (is_space c); [destruct in_run|];
      rewrite IH; reflexivity.
Qed.

Lemma replace_spaces_any (in_run : bool) (a b : string) (c1 c2 : ascii) :
  is_space c1 = true -> is_space c2 = true ->
  replace_spaces_from in_run (a ++ String c1 b)
  = replace_spaces_from in_run (a ++ String c2 b).
Proof.
  intros H1 H2. revert in_run. induction a as [|c a IH]; intros in_run.
  - cbn [append replace_spaces_from]. rewrite H1, H2. reflexivity.
  - cbn [append replace_spaces_from]. destruct (is_space c); [destruct in_run|];
      rewrite IH; reflexivity.
Qed.

(** X17. [generateMcpElementRef] does not tell descriptions apart that
    differ in letter case, in the length of a run of white space, or in
    which white-space character is used. *)
Theorem element_ref_ignores_case_and_spacing (element a b : string) (c1 c2 : ascii) :
  is_space c1 = true -> is_space c2 = true ->
  AgencyListSpec.generateMcpElementRef (toLowerCase element)
  = AgencyListSpec.generateMcpElementRef element /\
  AgencyListSpec.generateMcpElementRef (a ++ String c1 (String c2 b))
  = AgencyListSpec.generateMcpElementRef (a ++ String c1 b) /\
  AgencyListSpec.generateMcpElementRef (a ++ String c1 b)
  = AgencyListSpec.generateMcpElementRef (a ++ String c2 b).
Proof.
  intros H1 H2. unfold AgencyListSpec.generateMcpElementRef, replace_spaces. repeat apply conj.
  - rewrite toLowerCase_idempotent. reflexivity.
  - rewrite !toLowerCase_app. cbn [toLowerCase].
    rewrite (lower_ascii_space c1 H1), (lower_ascii_space c2 H2).
    rewrite replace_spaces_run; [reflexivity | assumption | assumption].
  - rewrite !toLowerCase_app. cbn [toLowerCase].
    rewrite (lower_ascii_space c1 H1), (lower_ascii_space c2 H2).
    rewrite (replace_spaces_any false _ _ c1 c2); [reflexivity | assumption | assumption].
Qed.

Section McpSelector.
Context {W : Type} {E : Engine W}.

(** [getMcpSelector] returns, leaves the state as it is, and only writes
    to the log. *)
Lemma getMcpSelector_obs (description : string) (s : St W) :
  exists selector logs,
    AgencyListSpec.getMcpSelector description s
    = mkOut (Ok selector) s (map (Console LOG) logs).
Proof.
  unfold AgencyListSpec.getMcpSelector, AgencyListSpec.generated_selector.
  unfold_monad; simpl_out.
  destruct s as [w p]; simpl_out.
  destruct (lastSnapshot p) as [snapshot|]; simpl_out.
  - destruct (filter _ _) as [|element rest]; simpl_out.
    + eexists. eexists (_ :: _ :: nil). reflexivity.
    + destruct (AgencyListSpec.truthy (id element)),
        (AgencyListSpec.truthy (role element)),
        (AgencyListSpec.truthy (textContent element)),
        (AgencyListSpec.truthy (Some (tagName element))),
        (AgencyListSpec.truthy (className element)); simpl_out;
        eexists; eexists (_ :: _ :: nil); reflexivity.
  - eexists. eexists (_ :: nil). reflexivity.
Qed.
End McpSelector.

Lemma calls_of_logs (logs : list string) : calls (map (Console LOG) logs) = [].
Proof. induction logs as [|m logs IH]; [reflexivity | exact IH]. Qed.

Lemma getMcpSelector_quiet {W} {E : Engine W} :
  quiet (Some (AgencyListSpec.getMcpSelector (W := W))).
Proof.
  intros f Hf description s. injection Hf as <-.
  destruct (getMcpSelector_obs description s) as (sel & logs & ->).
  apply calls_of_logs.
Qed.

(** X18. With [getMcpSelector] injected, [getSelector] of each page object
    returns what [getMcpSelector] returns for the description: the
    fallback selector plays no part. *)
Theorem fallback_selectors_are_unused {W} {E : Engine W}
    (description fallback : string) (s : St W) :
  fallback_is_unused description fallback s.
Proof.
  unfold fallback_is_unused. cbv zeta.
  unfold WatchlistManagerPage.getSelector, StandardListPage.getSelector,
    LoginPage.getSelector.
  unfold_monad; simpl_out. repeat apply conj.
  - destruct (getMcpSelector_obs (trim (toLowerCase description)) s) as (sel & logs & ->).
    reflexivity.
  - destruct (getMcpSelector_obs description s) as (sel & logs & ->). reflexivity.
  - destruct (getMcpSelector_obs description s) as (sel & logs & ->). reflexivity.
Qed.

Lemma selectorMap_lookup (k v : string) :
  In (k, v) AgencyListSpec.selectorMap ->
  AgencyListSpec.lookup k AgencyListSpec.selectorMap = Some v.
Proof.
  unfold AgencyListSpec.selectorMap. cbn [In].
  intros H. repeat (destruct H as [H|H]; [injection H as <- <-; reflexivity|]).
  destruct H.
Qed.

(** X19. Without a snapshot, [getMcpSelector] answers a description that,
    lower-cased, is a key of its map with the selector of that key. *)
Theorem known_descriptions_ignore_case {W} {E : Engine W}
    (description key selector : string) (s : St W) :
  lastSnapshot (process s) = None ->
  In (key, selector) AgencyListSpec.selectorMap ->
  toLowerCase description = key ->
  result (AgencyListSpec.getMcpSelector description s) = Ok selector.
Proof.
  intros Hsnap Hin Hkey. unfold AgencyListSpec.getMcpSelector.
  unfold_monad; simpl_out. rewrite Hsnap; simpl_out.
  rewrite Hkey, (selectorMap_lookup _ _ Hin). reflexivity.
Qed.


(** X21. With a snapshot, when the first element that matches the
    description has a non-empty id, [getMcpSelector] answers # followed by
    that id. *)
Theorem element_id_wins {W} {E : Engine W}
    (description : string) (s : St W) (snapshot : Snapshot) (element : Element)
    (others : list Element) (i : string) :
  lastSnapshot (process s) = Some snapshot ->
  filter (AgencyListSpec.element_matches (trim (toLowerCase description)))
         (accessibilityTree snapshot) = element :: others ->
  id element = Some i ->
  i <> EmptyString ->
  result (AgencyListSpec.getMcpSelector description s) = Ok ("#" ++ i).
Proof.
  intros Hsnap Hmatch Hid Hi. unfold AgencyListSpec.getMcpSelector,
    AgencyListSpec.generated_selector.
  unfold_monad; simpl_out. rewrite Hsnap; simpl_out. rewrite Hmatch; simpl_out.
  rewrite Hid. unfold AgencyListSpec.truthy.
  destruct (String.eqb_spec i EmptyString) as [->|_]; [congruence|]. reflexivity.
Qed.

Lemma captures_app (a b : list Event) : captures (a ++ b) = (captures a ++ captures b)%list.
Proof. unfold captures. apply flat_map_app. Qed.

(** X22. [analyzePage] never throws; the snapshot it returns, if any, is
    the one the single capture of the page produced, and it is the value
    of [lastSnapshot] afterwards. *)
Theorem analyzePage_returns_what_it_stored {W} {E : Engine W}
    (stepDescription : option string) (s : St W) :
  let o := AgencyListSpec.analyzePage stepDescription s in
  (exists v, result o = Ok v) /\
  (forall snapshot, result o = Ok (Some snapshot) ->
     lastSnapshot (process (final o)) = Some snapshot /\
     captures (trace o) = [Ok snapshot]).
Proof.
  cbv zeta. destruct s as [w [c flag snap]].
  unfold AgencyListSpec.analyzePage, AgencyListSpec.useMcpSnapshot,
    AgencyListSpec.snapshot_failed, AgencyListSpec.analysis_screenshot,
    AgencyListSpec.test_step, AgencyListSpec.set_mcpConnected,
    AgencyListSpec.set_lastSnapshot.
  destruct flag; unfold_monad; simpl_out;
    repeat engine_step;
    (split; [eexists; reflexivity|]);
    intros snapshot Hres; try discriminate Hres;
    injection Hres as ->; split; reflexivity.
Qed.


Lemma clicks_of_logs (l : Locator) (logs : list string) :
  clicks_on l (map (Console LOG) logs) = 0%nat.
Proof. induction logs as [|m logs IH]; [reflexivity | exact IH]. Qed.

Lemma visibility_of_logs (l : Locator) (logs : list string) :
  visibility_checks l (map (Console LOG) logs) = [].
Proof. induction logs as [|m logs IH]; [reflexivity | exact IH]. Qed.

(** X24. The hook [afterEach] always returns; it clicks at most once, and
    only a locator whose single visibility check fulfilled with true. *)
Theorem afterEach_never_fails {W} {E : Engine W} (s : St W) :
  let o := AgencyListSpec.afterEach s in
  result o = Ok tt /\
  forall l,
    (clicks_on l (trace o) <= 1)%nat /\
    (clicks_on l (trace o) = 1%nat -> visibility_checks l (trace o) = [true]).
Proof.
  cbv zeta. unfold AgencyListSpec.afterEach. unfold_monad; simpl_out.
  destruct (getMcpSelector_obs "logout button" s) as (sel & logs & ->). simpl_out.
  visible_step; [engine_step| |]; (split; [reflexivity|]); intros l;
    repeat rewrite ?clicks_on_app, ?visibility_checks_app;
    rewrite ?clicks_of_logs, ?visibility_of_logs;
    count_clicks; unfold visibility_checks; cbn [flat_map visibility_of app is_ok];
    destruct (Locator_eqb l (locator sel)); cbn [andb Nat.add app];
    (split; [lia | intros H; first [reflexivity | discriminate H]]).
Qed.

(** ** The click on the Watchlist Manager menu *)


(** ** The strategies of [navigateToStandardLists] *)

Lemma lines_from_app (prefix : string) (a b : list Event) :
  lines_from prefix (a ++ b) = (lines_from prefix a ++ lines_from prefix b)%list.
Proof. unfold lines_from. rewrite log_lines_app, filter_app. reflexivity. Qed.

Lemma lines_from_silent (prefix : string) (tr : list Event) :
  log_lines tr = [] -> lines_from prefix tr = [].
Proof. unfold lines_from. intros ->. reflexivity. Qed.

Lemma standard_confirmation_app_r {W} (this : @StandardListPage.t W) (u : string)
    (a b : list Event) :
  standard_confirmation this u b -> standard_confirmation this u (a ++ b).
Proof.
  intros [H | (v & H & Hv)]; [left | right; exists v; split; [|exact Hv]];
    apply in_or_app; right; exact H.
Qed.

(** Brings the lines of a trace to those that count. *)
Ltac standard_lines :=
  repeat rewrite ?lines_from_app;
  repeat match goal with
         | H : log_lines ?t = [] |- _ =>
             rewrite ?(lines_from_silent standard_trying t H),
                     ?(lines_from_silent standard_success t H)
         | H : lines_from ?p ?t = _ |- context [lines_from ?p ?t] => rewrite H
         end;
  unfold lines_from, standard_trying, standard_success; cbn [log_lines filter app];
  repeat match goal with
         | |- context [startsWith (?p ++ ?x) ?p] =>
             replace (startsWith (p ++ x) p) with true by (symmetry; apply prefix_append)
         end;
  known_messages; cbn [app]; rewrite ?app_nil_r.

(** A pass of the loop that did not confirm its strategy. *)
Ltac not_confirmed :=
  exists false; standard_lines;
  repeat apply conj; [reflexivity | reflexivity | reflexivity | discriminate].

Section StandardStrategies.
Context {W : Type} {E : Engine W}.
Variable this : @StandardListPage.t W.

Lemma try_standard_strategy_obs (currentUrl : string)
    (strategy : Config.Constants -> Locator) (i : Z) (s : St W) :
  let o := StandardListPage.try_standard_strategy this currentUrl strategy i s in
  exists b,
    result o = Ok b /\
    lines_from standard_trying (trace o) = [standard_trying ++ of_number (i + 1)] /\
    lines_from standard_success (trace o)
    = (if b then [standard_success ++ of_number (i + 1)] else []) /\
    (b = true -> standard_confirmation this currentUrl (trace o)).
Proof.
  cbv zeta. unfold StandardListPage.try_standard_strategy, StandardListPage.debug_screenshot.
  generalize (of_number (i + 1)). intros n.
  unfold_monad; simpl_out.
  engine_step; [|not_confirmed].
  destruct r; simpl_out; [|not_confirmed].
  engine_step; [|not_confirmed].
  safe_click_step; [|not_confirmed].
  engine_step; [|not_confirmed].
  engine_step; [|not_confirmed].
  engine_step; [|not_confirmed].
  engine_step; branch; try not_confirmed.
  all: exists true; standard_lines;
    (repeat apply conj; [reflexivity | reflexivity | reflexivity |]); intros _.
  all: match goal with
       | Hb : (?seen || negb (String.eqb ?newUrl ?u))%bool = true |- _ =>
           destruct seen;
           [ left; find_event
           | right; exists newUrl; split;
             [ find_event
             | intros Heq; rewrite Heq, String.eqb_refl in Hb; discriminate Hb ] ]
       | Hb : negb (String.eqb ?newUrl ?u) = true |- _ =>
           right; exists newUrl; split;
           [ find_event
           | intros Heq; rewrite Heq, String.eqb_refl in Hb; discriminate Hb ]
       end.
Qed.

(** The loop tries the strategies in order, stops at the first that is
    confirmed, and never throws. *)
Lemma standard_strategy_loop_obs (currentUrl : string)
    (strategies : list (Config.Constants -> Locator)) :
  forall (i : Z) (s : St W),
    let o := StandardListPage.standard_strategy_loop this currentUrl strategies i s in
    exists (b : bool) (k : nat),
      result o = Ok b /\
      (k <= List.length strategies)%nat /\
      lines_from standard_trying (trace o)
      = map (fun j => standard_trying ++ of_number j) (strategies_from i k) /\
      lines_from standard_success (trace o)
      = (if b then [standard_success ++ of_number (i + Z.of_nat k)] else []) /\
      (b = false -> k = List.length strategies) /\
      (b = true -> (1 <= k)%nat /\ standard_confirmation this currentUrl (trace o)).
Proof.
  induction strategies as [|strategy rest IH]; intros i s; cbv zeta.
  - exists false, 0%nat. cbn. repeat split; try reflexivity; try lia; discriminate.
  - cbn [StandardListPage.standard_strategy_loop]. unfold bind.
    destruct (try_standard_strategy_obs currentUrl strategy i s)
      as (b1 & Hres & Hatt & Hconf & Hin).
    cbv zeta in *.
    destruct (StandardListPage.try_standard_strategy this currentUrl strategy i s) as [r1 s1 t1];
      simpl_out.
    subst r1. destruct b1; simpl_out.
    + exists true, 1%nat. unfold ret. simpl_out. cbn [List.length].
      rewrite app_nil_r, Hatt, Hconf.
      repeat split; try reflexivity; try lia; try discriminate.
      apply Hin. reflexivity.
    + destruct (IH (i + 1) s1) as (b & k & Hres' & Hk & Hatt' & Hconf' & Hfalse & Htrue).
      cbv zeta in *.
      destruct (StandardListPage.standard_strategy_loop this currentUrl rest (i + 1) s1)
        as [r2 s2 t2]; simpl_out. subst r2.
      exists b, (S k).
      rewrite !lines_from_app, Hatt, Hconf, Hatt', Hconf'.
      rewrite strategies_from_S. cbn [List.length map app].
      replace (i + Z.of_nat (S k)) with (i + 1 + Z.of_nat k) by lia.
      repeat split; try reflexivity; try lia.
      * intros Hb. rewrite (Hfalse Hb). reflexivity.
      * apply standard_confirmation_app_r. apply Htrue. assumption.
Qed.
End StandardStrategies.

(** The loop of [navigateToStandardLists], at a known state. *)
Ltac standard_loop_step :=
  match goal with
  | |- context [StandardListPage.standard_strategy_loop ?this ?u ?l ?i ?s] =>
      let b := fresh "b" in
      let k := fresh "k" in
      destruct (standard_strategy_loop_obs this u l i s)
        as (b & k & Hres & Hk & Hatt & Hconf & Hfalse & Htrue);
      cbv zeta in Hres, Hatt, Hconf, Htrue;
      destruct (StandardListPage.standard_strategy_loop this u l i s) as [? ? ?]; simpl_out;
      subst; simpl_out;
      cbn [List.length StandardListPage.standardSelectorStrategies] in Hk, Hfalse;
      cbn [Z.add] in *;
      exists k; destruct b; simpl_out; standard_lines;
      (split; [lia|]); (split; [reflexivity|]);
      [ right; left;
        let Hone := fresh "Hone" in
        let Hseen := fresh "Hseen" in
        let newUrl := fresh "newUrl" in
        let Hnew := fresh "Hnew" in
        destruct (Htrue eq_refl) as [Hone [Hseen | (newUrl & Hseen & Hnew)]];
        (repeat apply conj; [reflexivity | assumption | reflexivity |]);
        [ left | right; exists newUrl; split; [|exact Hnew] ]; find_event
      | right; right; repeat apply conj;
        [ reflexivity | exact (Hfalse eq_refl) | reflexivity ] ]
  end.


(** ** The mock sequence to the EU list *)

Lemma all_fulfilled_cons_rejected (a : Action) (e : JsError) (tr : list Event) :
  all_fulfilled (Did a (Throw e) :: tr) = false.
Proof. reflexivity. Qed.

Lemma present_intro (l : Locator) (tr : list Event) (c : Res nat) :
  counts_of l tr = [c] ->
  (exists n, c = Ok n /\ true = Nat.ltb 0 n) ->
  present l tr.
Proof.
  intros Hl (n & -> & Hn). unfold present. rewrite Hl.
  destruct n as [|m]; [discriminate|]. exists m. left. reflexivity.
Qed.

Lemma present_elim (l : Locator) (tr : list Event) (c : Res nat) :
  present l tr ->
  counts_of l tr = [c] ->
  (exists n, c = Ok n /\ false = Nat.ltb 0 n) ->
  False.
Proof.
  intros (m & Hm) Hl (n & -> & Hn). rewrite Hl in Hm.
  destruct Hm as [Hm | []]. injection Hm as ->. discriminate.
Qed.

Section Elements.
Context {W : Type} {E : Engine W}.

(** A count of the elements that match a selector, as the run that makes
    it sees it. *)
Lemma exists_on_page_obs (selector : string) (s : St W) :
  let o := WatchlistManagerPage.exists_on_page selector s in
  (forall l, Locator_eqb l (locator selector) = false -> counts_of l (trace o) = []) /\
  all_fulfilled (trace o) = is_ok (result o) /\
  exists r,
    counts_of (locator selector) (trace o) = [r] /\
    match result o with
    | Ok found => exists n, r = Ok n /\ found = Nat.ltb 0 n
    | Throw e => r = Throw e
    end.
Proof.
  cbv zeta. unfold WatchlistManagerPage.exists_on_page. unfold_monad; simpl_out.
  engine_step;
    (repeat apply conj;
     [ intros l Hl; unfold counts_of; cbn [flat_map count_of app]; rewrite Hl; reflexivity
     | reflexivity
     | eexists; split;
       [ unfold counts_of; cbn [flat_map count_of app Locator_eqb];
         rewrite String.eqb_refl; reflexivity
       | try (eexists; split); reflexivity ] ]).
Qed.

Lemma bind_eq {A B} (m : M W A) (k : A -> M W B) (s : St W) :
  bind m k s
  = match m s with
    | mkOut (Ok a) s1 t1 =>
        match k a s1 with
        | mkOut r s2 t2 => mkOut r s2 (t1 ++ t2)
        end
    | mkOut (Throw e) s1 t1 => mkOut (Throw e) s1 t1
    end.
Proof. reflexivity. Qed.
End Elements.

Ltac other_count Hother l t :=
  first [ assert (counts_of l t = []) by (apply Hother; vm_compute; reflexivity)
        | idtac ].

(** Opens the statement that comes next. *)
Ltac next_statement :=
  match goal with
  | |- context [bind ?m ?k ?s] => rewrite (bind_eq m k s); cbn beta
  end.


(** The next count of the mock sequence, with what it tells of the three
    required elements. *)
Ltac page_call :=
  match goal with
  | |- context [WatchlistManagerPage.exists_on_page ?sel ?s] =>
      let Hother := fresh "Hother" in
      let Hall := fresh "Hall" in
      let Hown := fresh "Hown" in
      let r1 := fresh "found" in
      let s1 := fresh "s" in
      let t1 := fresh "t" in
      let c1 := fresh "c" in
      let Hc := fresh "Hc" in
      destruct (exists_on_page_obs sel s) as (Hother & Hall & c1 & Hown & Hc);
      destruct (WatchlistManagerPage.exists_on_page sel s) as [[r1|r1] s1 t1];
      cbn [result trace is_ok] in Hother, Hall, Hown, Hc; cbn beta iota;
      other_count Hother (locator (xpath_id "menu-trigger")) t1;
      other_count Hother (locator (xpath_id "home_watchlistmanagement")) t1;
      other_count Hother (locator (xpath_id WatchlistManagerPage.lists_id)) t1;
      clear Hother
  end.

Ltac page_step := next_statement; page_call.

Ltac counted :=
  repeat rewrite ?counts_of_app;
  repeat match goal with
         | H : forall l, mock_probe (locator_count l) = false -> counts_of l ?t = []
           |- context [counts_of ?l0 ?t] => rewrite (H l0 eq_refl)
         | H : counts_of ?l ?t = _ |- context [counts_of ?l ?t] => rewrite H
         end;
  unfold counts_of; cbn [flat_map count_of app].

Ltac log_call :=
  match goal with
  | |- context [console_log ?msg ?s] =>
      change (console_log msg s) with (mkOut (Ok tt) s [Console LOG msg])
  | |- context [console_warn ?msg ?s] =>
      change (console_warn msg s) with (mkOut (Ok tt) s [Console WARN msg])
  | |- context [console_error ?msg ?s] =>
      change (console_error msg s) with (mkOut (Ok tt) s [Console ERROR msg])
  end;
  cbn beta iota.

Ltac log_step := next_statement; log_call.

Ltac throw_call :=
  match goal with
  | |- context [throw ?e ?s] => change (throw e s) with (mkOut (@Throw unit e) s [])
  end;
  cbn beta iota.

Ltac ret_step :=
  match goal with
  | |- context [ret ?x ?s] => change (ret x s) with (mkOut (Ok x) s []); cbn beta iota
  end.

(** A statement that is a log or nothing, by a flag. *)
Ltac optional_log :=
  next_statement; cbn [negb]; cbn beta iota;
  first [ match goal with
          | |- context [(if negb ?b then ?x else ?y) ?s] =>
              destruct b; cbn [negb]; cbn beta iota; [ret_step | log_call]
          end
        | ret_step
        | log_call ].

(** The element that a successful mock sequence counted. *)
Ltac counted_present :=
  eapply present_intro; [counted; reflexivity | eassumption].

(** The element that a failed mock sequence did not find. *)
Ltac counted_absent p :=
  eapply (present_elim _ _ _ p); [counted; reflexivity | eassumption].

Ltac rejected :=
  repeat rewrite ?all_fulfilled_app;
  repeat match goal with
         | H : all_fulfilled ?t = false |- context [all_fulfilled ?t] => rewrite H
         end;
  cbn [all_fulfilled forallb fulfilled is_ok andb]; rewrite ?andb_false_r.

(** A run of the mock sequence that a rejected count ended. *)
Ltac count_rejected :=
  unfold WatchlistManagerPage.debug_screenshot; unfold_monad;
  cbn beta iota; simpl_out;
  engine_step;
  (unfold needs_required_elements; simpl_out;
   split; [discriminate | intros _; rejected; discriminate]).

(** The rest of the mock sequence, from the check of the required
    elements on. *)
Ltac sequence_end :=
  log_step; next_statement;
  match goal with
  | |- context [(if (negb ?f1 || negb ?f2 || negb ?f3)%bool then ?x else ?y) ?s] =>
      let Hcrit := fresh "Hcrit" in
      destruct (negb f1 || negb f2 || negb f3)%bool eqn:Hcrit; cbn beta iota;
      [ log_step; throw_call;
        unfold WatchlistManagerPage.debug_screenshot; unfold_monad; cbn beta iota; simpl_out;
        engine_step;
        (unfold needs_required_elements; simpl_out;
         split;
         [ discriminate
         | let p1 := fresh "p" in
           let p2 := fresh "p" in
           let p3 := fresh "p" in
           intros (p1 & p2 & p3) _; exfalso;
           destruct f1; [|counted_absent p1];
           destruct f2; [|counted_absent p2];
           destruct f3; [|counted_absent p3];
           discriminate Hcrit ])
      | ret_step;
        destruct f1; [|discriminate Hcrit];
        destruct f2; [|discriminate Hcrit];
        destruct f3; [|discriminate Hcrit];
        optional_log; optional_log; log_call;
        (unfold needs_required_elements; simpl_out;
         split;
         [ intros _; repeat apply conj; counted_present
         | intros _ _; reflexivity ]) ]
  end.

(** X27. In mock mode [navigateToEUListWithoutAssertion] returns only if
    its counts found the menu trigger, the Watchlist Manager menu and the
    Lists menu; and when they did and no call was rejected, it returns. *)
Theorem mock_sequence_needs_three_elements {W} {E : Engine W}
    (this : @WatchlistManagerPage.t W) (s : St W) :
  let o := WatchlistManagerPage.navigateToEUListWithoutAssertion this s in
  result (WatchlistManagerPage.isRunningInMockMode s) = Ok true ->
  needs_required_elements o tt.
Proof.
  cbv zeta. intros Hmode.
  unfold WatchlistManagerPage.navigateToEUListWithoutAssertion.
  unfold try_catch.
  log_step. next_statement.
  destruct (isRunningInMockMode_obs s) as (_ & _ & Hcounts & _).
  destruct (WatchlistManagerPage.isRunningInMockMode s) as [mode s0 t0].
  cbn [result trace] in Hmode, Hcounts. subst mode. cbn beta iota.
  log_step. log_step.
  page_step; [|count_rejected].
  page_step; [|count_rejected].
  page_step; [|count_rejected].
  page_step; [|count_rejected].
  page_step; [|count_rejected].
  next_statement.
  destruct found2; cbn [negb]; cbn beta iota.
  - ret_step. next_statement.
    destruct found3; cbn [negb]; cbn beta iota.
    + ret_step. sequence_end.
    + page_call; [|count_rejected]. sequence_end.
  - page_step; [|count_rejected].
    destruct found2; cbn beta iota.
    + ret_step. next_statement.
      destruct found3; cbn [negb]; cbn beta iota.
      * ret_step. sequence_end.
      * page_call; [|count_rejected]. sequence_end.
    + page_call; [|count_rejected]. next_statement.
      destruct found3; cbn [negb]; cbn beta iota.
      * ret_step. sequence_end.
      * page_call; [|count_rejected]. sequence_end.
Qed.

(** ** Scenarios *)

(** The button is there at the first click. *)
Lemma retry_returns_first_success_witness :
  1 <= 3 /\
  result (click_late_button on_lists_page) = Ok tt /\
  Helpers.retry click_late_button (Some 3) (Some 7) on_lists_page
  = mkOut (Ok tt) (final (click_late_button on_lists_page))
          [Invoke None (trace (click_late_button on_lists_page))].
Proof.
  split; [lia|]. split; [reflexivity|].
  apply (retry_returns_first_success click_late_button 3 (Some 7) on_lists_page tt);
    [lia | reflexivity].
Defined.

(** The page with the mock indicator. *)
Lemma mock_mode_navigation_only_looks_witness :
  result (WatchlistManagerPage.isRunningInMockMode marked_page) = Ok true /\
  probes_only (trace (WatchlistManagerPage.navigateToLists watchlist_manager_page marked_page)) /\
  probes_only
    (trace (WatchlistManagerPage.navigateToStandardLists watchlist_manager_page marked_page)) /\
  probes_only (trace (WatchlistManagerPage.navigateToEUList watchlist_manager_page marked_page)) /\
  result (WatchlistManagerPage.navigateToStandardLists watchlist_manager_page marked_page) = Ok tt.
Proof.
  split; [reflexivity|].
  apply (mock_mode_navigation_only_looks watchlist_manager_page marked_page); reflexivity.
Defined.


(** A page of the application without the text. *)
Lemma assertEuNamePresent_errors_witness :
  result (WatchlistManagerPage.assertEuNamePresent watchlist_manager_page plain_page)
  = Throw (Error (WatchlistManagerPage.eu_name_not_visible "eu_name")) /\
  validation_error
    (trace (WatchlistManagerPage.assertEuNamePresent watchlist_manager_page plain_page))
    (Error (WatchlistManagerPage.eu_name_not_visible "eu_name")).
Proof.
  split; [reflexivity|].
  apply (assertEuNamePresent_errors watchlist_manager_page plain_page
           (Error (WatchlistManagerPage.eu_name_not_visible "eu_name"))).
  reflexivity.
Defined.

(** A page on which every locator resolves. *)
Lemma eu_name_assertion_is_sound_witness :
  result (StandardListPage.assertEuNameTextVisible standard_list_page on_lists_page) = Ok tt /\
  exists l,
    fulfilled_expectations (trace (StandardListPage.assertEuNameTextVisible standard_list_page
                                     on_lists_page)) = [l] /\
    In l (StandardListPage.euNameText standard_list_page
          :: StandardListPage.alternativeLocators ++ [eu_name_in_section]).
Proof.
  split; [reflexivity|].
  apply (eu_name_assertion_is_sound standard_list_page on_lists_page). reflexivity.
Defined.

(** A page titled NetReveal Test Mode, on which no element is found. *)
Lemma mock_title_forces_logged_in_witness :
  quiet (LoginPage.mcpSelector login_page) /\
  saw_mock_title (trace (LoginPage.isLoggedIn login_page test_mode_page)) = true /\
  all_fulfilled (trace (LoginPage.isLoggedIn login_page test_mode_page)) = true /\
  found_element (trace (LoginPage.isLoggedIn login_page test_mode_page)) = false /\
  result (LoginPage.isLoggedIn login_page test_mode_page) = Ok true.
Proof.
  assert (Hquiet : quiet (LoginPage.mcpSelector login_page)).
  { intros f Hf. discriminate Hf. }
  split; [exact Hquiet|]. split; [reflexivity|]. split; [reflexivity|].
  split; [reflexivity|].
  apply (mock_title_forces_logged_in login_page test_mode_page Hquiet); reflexivity.
Defined.

(** A space and a tab. *)
Lemma element_ref_ignores_case_and_spacing_witness :
  is_space " " = true /\ is_space "009" = true /\
  AgencyListSpec.generateMcpElementRef (toLowerCase "Main Menu")
  = AgencyListSpec.generateMcpElementRef "Main Menu" /\
  AgencyListSpec.generateMcpElementRef ("Main" ++ String " " (String "009" "Menu"))
  = AgencyListSpec.generateMcpElementRef ("Main" ++ String " " "Menu") /\
  AgencyListSpec.generateMcpElementRef ("Main" ++ String " " "Menu")
  = AgencyListSpec.generateMcpElementRef ("Main" ++ String "009" "Menu").
Proof.
  split; [reflexivity|]. split; [reflexivity|].
  apply (element_ref_ignores_case_and_spacing "Main Menu" "Main" "Menu" " " "009");
    reflexivity.
Defined.

(** The main menu, in capitals. *)
Lemma known_descriptions_ignore_case_witness :
  lastSnapshot (process plain_page) = None /\
  In ("main menu", "#menu-trigger") AgencyListSpec.selectorMap /\
  toLowerCase "MAIN MENU" = "main menu" /\
  result (AgencyListSpec.getMcpSelector "MAIN MENU" plain_page) = Ok "#menu-trigger".
Proof.
  assert (Hin : In ("main menu", "#menu-trigger") AgencyListSpec.selectorMap).
  { vm_compute. auto 10. }
  split; [reflexivity|]. split; [exact Hin|]. split; [reflexivity|].
  apply (known_descriptions_ignore_case "MAIN MENU" "main menu" "#menu-trigger" plain_page);
    [reflexivity | exact Hin | reflexivity].
Defined.


(** A snapshot whose only button has an id. *)
Lemma element_id_wins_witness :
  lastSnapshot (process with_snapshot)
  = Some (mkSnapshot "NetReveal" "https://example.org/app" 1 [save_button]) /\
  filter (AgencyListSpec.element_matches (trim (toLowerCase "Save")))
         [save_button] = [save_button] /\
  id save_button = Some "save" /\
  "save" <> EmptyString /\
  result (AgencyListSpec.getMcpSelector "Save" with_snapshot) = Ok ("#" ++ "save").
Proof.
  split; [reflexivity|]. split; [reflexivity|]. split; [reflexivity|].
  split; [discriminate|].
  apply (element_id_wins "Save" with_snapshot
           (mkSnapshot "NetReveal" "https://example.org/app" 1 [save_button])
           save_button [] "save");
    [reflexivity | reflexivity | reflexivity | discriminate].
Defined.



(** The mock dashboard, with its three menu elements and nothing else. *)
Lemma mock_sequence_needs_three_elements_witness :
  result (WatchlistManagerPage.isRunningInMockMode mock_dashboard) = Ok true /\
  result
    (WatchlistManagerPage.navigateToEUListWithoutAssertion watchlist_manager_page mock_dashboard)
  = Ok tt /\
  needs_required_elements
    (WatchlistManagerPage.navigateToEUListWithoutAssertion watchlist_manager_page mock_dashboard)
    tt.
Proof.
  split; [reflexivity|]. split; [reflexivity|].
  apply (mock_sequence_needs_three_elements watchlist_manager_page mock_dashboard).
  reflexivity.
Defined.

(** A page whose content cannot be replaced: the flow fails, and so do
    both handlers. *)
Lemma login_throws_only_from_last_handler_witness :
  result (LoginPage.login login_page None None frozen_page)
  = Throw (Error "Target page, context or browser has been closed") /\
  In (Did (page_setContent LoginPage.mock_dashboard_html_outer)
          (Throw (Error "Target page, context or browser has been closed")))
     (trace (LoginPage.login login_page None None frozen_page)).
Proof.
  split; [reflexivity|].
  apply (login_throws_only_from_last_handler login_page None None frozen_page
           (Error "Target page, context or browser has been closed")).
  reflexivity.
Defined.

(** The server cannot be reached. *)
Lemma navigateToLoginPage_sets_mock_page_witness :
  engine_do (page_goto "https://10.222.2.239:8443/netreveal/login.do" 30000
                       (Some "networkidle")) (world server_down)
  = (Throw (Error ("page.goto: net::ERR_CONNECTION_REFUSED at "
                   ++ "https://10.222.2.239:8443/netreveal/login.do")),
     Sim.tick 1 (world server_down)) /\
  In (page_setContent LoginPage.mock_login_html)
     (calls (trace (LoginPage.navigateToLoginPage login_page
                      "https://10.222.2.239:8443/netreveal/login.do" server_down))).
Proof.
  split; [reflexivity|].
  apply (navigateToLoginPage_sets_mock_page login_page
           "https://10.222.2.239:8443/netreveal/login.do" server_down
           (Error ("page.goto: net::ERR_CONNECTION_REFUSED at "
                   ++ "https://10.222.2.239:8443/netreveal/login.do"))
           (Sim.tick 1 (world server_down))).
  reflexivity.
Defined.
